(** * Radar display controller: geometry kernel and instrument renderers

    A shallow embedding of [src/controller.py].  Python numbers that take
    part in floating-point arithmetic are idealised as real numbers ([R]):
    [math.sin], [math.cos] are the real sine and cosine, [/] is exact and
    raises [ZeroDivisionError] on a zero divisor, [round] rounds half to
    even.  Integers that the code keeps integral (loop counters of
    [range], contact heights, the device size) are in [Z].

    The idealisation is harmless where the code rounds its result to a
    pixel or where its arithmetic is exact; it is not where a result is
    returned unrounded or a loop accumulates a float.  For those places
    ([linepoints], the mark loops of [meter]) module [B64] has the same
    code on IEEE 754 binary64 numbers, which is what a Python [float] is,
    and the statements about them are made there.

    The drawing surface is an external collaborator: every renderer is
    embedded as a computation that appends the drawing calls it issues to
    a trace, in calling order. *)

From Stdlib Require Import PrimFloat.
From Stdlib Require Import Reals Lra Lia ZArith List String Ascii Bool.
From Stdlib Require Import DecimalString.
Import ListNotations.

Set Default Proof Using "Type".
Set Warnings "-inexact-float".

Open Scope string_scope.
Open Scope list_scope.
Open Scope R_scope.

(** ** Python numerics *)

Module PyNum.

(** [math.radians] *)
Definition radians (deg : R) : R := deg * PI / 180.

(** [math.floor] *)
Definition py_floor (x : R) : Z := Int_part x.

(** [round(x)] with one argument: nearest integer, ties to even. *)
Definition py_round (x : R) : Z :=
  let n := Int_part x in
  let d := x - IZR n in
  if Rlt_dec d (1 / 2) then n
  else if Rlt_dec (1 / 2) d then (n + 1)%Z
  else if Z.even n then n else (n + 1)%Z.

(** [int(x)]: truncation towards zero. *)
Definition py_int (x : R) : Z :=
  if Rle_dec 0 x then Int_part x else (- Int_part (- x))%Z.

(** [str(n)] for an integer. *)
Definition str_int (n : Z) : string := NilZero.string_of_int (Z.to_int n).

End PyNum.
Import PyNum.

(** ** The drawing surface *)

Module Draw.

Inductive font : Type :=
  verylargefont | largefont | mediumfont | smallfont | verysmallfont | webfont.

Definition color := string.
Definition point := (R * R)%type.

(** A label rendered into the monochrome mask by [cdraw.text]. *)
Record glyph : Type := Glyph { g_xy : point; g_text : string; g_font : font }.

(** The value of [mask.rotate(angle)]: a copy of the mask's pixels turned
    by [angle] degrees. *)
Record bitmap : Type := Bitmap { bm_glyphs : list glyph; bm_angle : R }.

(** One call on [draw] (or [image.paste]), with the arguments the source
    passes. *)
Inductive prim : Type :=
| Text (xy : point) (text : string) (f : font) (fill : color)
| Line (xy : list point) (fill : color) (width : Z)
| Rectangle (p1 p2 : point) (fill outline : option color)
| RoundedRectangle (p1 p2 : point) (radius : Z) (fill outline : option color)
| Polygon (xy : list point) (fill : color) (outline : option color)
| Ellipse (p1 p2 : point) (fill outline : option color) (width : Z)
| Arc (p1 p2 : point) (start_deg end_deg : R) (fill : color) (width : Z)
| PasteAircraft (xy : Z * Z)
| PasteColor (c : color) (xy : Z * Z) (stencil : bitmap).

(** The image drawn so far, and the pixels of the shared label [mask]
    (the glyphs rendered into it since it was last blanked). *)
Record state : Type := State { surface : list prim; mask : list glyph }.

Inductive exn : Type := ZeroDivisionError.

Inductive outcome (A : Type) : Type :=
| Returns (a : A) (s : state)
| Raises (e : exn) (s : state)
| Diverges.
Arguments Returns {A} a s.
Arguments Raises {A} e s.
Arguments Diverges {A}.

Definition M (A : Type) : Type := state -> outcome A.

Definition ret {A} (a : A) : M A := fun s => Returns a s.

Definition bind {A B} (c : M A) (k : A -> M B) : M B :=
  fun s => match c s with
           | Returns a s' => k a s'
           | Raises e s' => Raises e s'
           | Diverges => Diverges
           end.

Definition raise {A} (e : exn) : M A := fun s => Raises e s.

Definition emit (p : prim) : M unit :=
  fun s => Returns tt (State (surface s ++ [p]) (mask s)).

(** [cdraw.rectangle((0, 0, LARGE*2, LARGE*2), fill="black")]: the
    rectangle covers the whole mask, every pixel becomes 0. *)
Definition mask_blank : M unit :=
  fun s => Returns tt (State (surface s) []).

(** [cdraw.text(xy, text, 1, font=f)] *)
Definition mask_text (xy : point) (text : string) (f : font) : M unit :=
  fun s => Returns tt (State (surface s) (mask s ++ [Glyph xy text f])).

(** [mask.rotate(angle, expand=False)] *)
Definition mask_rotate (angle : R) : M bitmap :=
  fun s => Returns (Bitmap (mask s) angle) s.

(** Python's [/] *)
Definition pydiv (a b : R) : M R :=
  if Req_dec_T b 0 then raise ZeroDivisionError else ret (a / b).

Fixpoint for_each {B} (l : list B) (body : B -> M unit) : M unit :=
  match l with
  | [] => ret tt
  | b :: l' => bind (body b) (fun _ => for_each l' body)
  end.

(** A [for] loop whose body updates local variables [acc]. *)
Fixpoint for_fold {B S} (l : list B) (acc : S) (body : B -> S -> M S) : M S :=
  match l with
  | [] => ret acc
  | b :: l' => bind (body b acc) (fun acc' => for_fold l' acc' body)
  end.

(** [m = start; while m <= end_value: body(m); m += step], with [m += step]
    as the exact sum.  That is what Python computes when [m] and [step]
    are integers, and when they are floats whose sums need no rounding;
    for other floats the values visited are those of [B64.tick_values]. *)
Fixpoint while_le (fuel : nat) (m end_value step : R) (body : R -> M unit)
  : M unit :=
  match fuel with
  | O => fun _ => Diverges
  | S fuel' =>
      if Rle_dec m end_value
      then bind (body m) (fun _ => while_le fuel' (m + step) end_value step body)
      else ret tt
  end.

End Draw.
Import Draw.

Declare Scope draw_scope.
Delimit Scope draw_scope with draw.
Notation "x <- c1 ;; c2" := (bind c1 (fun x => c2))
  (at level 61, c1 at next level, right associativity) : draw_scope.
Notation "c1 ;; c2" := (bind c1 (fun _ => c2))
  (at level 61, right associativity) : draw_scope.
Open Scope draw_scope.

(** [range(start, stop, step)] for integers with a positive step. *)
Definition py_range (start stop step : Z) : list Z :=
  map (fun k => (start + Z.of_nat k * step)%Z)
      (seq 0 (Z.to_nat ((stop - start + step - 1) / step))).

(** The values [start, start + step, ...] below [stop] ([step] positive),
    for [range] applied to numbers that come out of the layout arithmetic.
    Python's [range] accepts integers only; the model does not tell an
    integral float from an integer and steps through the values. *)
Definition range_num (start stop step : R) : list R :=
  map (fun k => start + INR k * step)
      (seq 0 (Z.to_nat (- Int_part (- ((stop - start) / step))))).

(** ** Global constants *)

Definition VERYLARGE : R := 43.
Definition LARGE : R := 25.
Definition MEDIUM : R := 23.
Definition SMALL : R := 21.
Definition VERYSMALL : R := 18.
Definition AIRCRAFT_SIZE : R := 4.
Definition MINIMAL_CIRCLE : R := 18.
Definition MAXIMAL_CIRCLE : R := 100.
Definition PITCH_SCALE : R := 3.
Definition cmsize : R := 15.
Definition space : R := 3.

(** ** Geometry kernel *)

Definition posn (angle arm_length : R) : Z * Z :=
  let dx := py_round (cos (radians angle) * arm_length) in
  let dy := py_round (sin (radians angle) * arm_length) in
  (dx, dy).

Definition turn (sin_a cos_a : R) (p zero : point) : Z * Z :=
  (py_round (fst zero + fst p * cos_a - snd p * sin_a),
   py_round (snd zero + fst p * sin_a + snd p * cos_a)).

Definition translate (angle : R) (points : list point) (zero : point)
  : list (Z * Z) :=
  let s := sin (radians angle) in
  let c := cos (radians angle) in
  map (fun p => turn s c p zero) points.

Definition to_point (p : Z * Z) : point := (IZR (fst p), IZR (snd p)).

(** UTF-8 encodings of the non-ASCII characters the source prints. *)
Definition chr (n : nat) : string := String (ascii_of_nat n) EmptyString.
Definition up_arrow : string := (chr 226 ++ chr 134 ++ chr 145)%string.
Definition down_arrow : string := (chr 226 ++ chr 134 ++ chr 147)%string.
Definition degree_sign : string := (chr 194 ++ chr 176)%string.

(** A 240x240 panel with a fixed-pitch font, on which the renderers are
    run at concrete inputs. *)
Definition panel_width : Z := 240.
Definition panel_height : Z := 240.
Definition fixed_pitch (text : string) (f : font) : R :=
  10 * INR (String.length text).
Definition str_rounded (x : R) : string := str_int (py_round x).
Definition midnight (t : Z) : string := "00:00".

(** The vertical-trend suffix of a contact label: an arrow up, an arrow
    down, or nothing. *)
Definition trend_arrow (vspeed : R) : string :=
  if Rgt_dec vspeed 0 then up_arrow
  else if Rlt_dec vspeed 0 then down_arrow else "".

(** The rotation angles of the stencils pasted on a surface, in order. *)
Fixpoint pasted_rotations (l : list prim) : list R :=
  match l with
  | [] => []
  | PasteColor _ _ stencil :: l' => bm_angle stencil :: pasted_rotations l'
  | _ :: l' => pasted_rotations l'
  end.

(** The strings drawn in font [f] on a surface, in order. *)
Fixpoint texts_in (f : font) (l : list prim) : list string :=
  match l with
  | [] => []
  | Text _ text f' _ :: l' =>
      match f, f' with
      | verylargefont, verylargefont | largefont, largefont
      | mediumfont, mediumfont | smallfont, smallfont
      | verysmallfont, verysmallfont | webfont, webfont => text :: texts_in f l'
      | _, _ => texts_in f l'
      end
  | _ :: l' => texts_in f l'
  end.

(** The texts of the glyphs in the stencils pasted on a surface, in order. *)
Fixpoint pasted_labels (l : list prim) : list string :=
  match l with
  | [] => []
  | PasteColor _ _ stencil :: l' =>
      map g_text (bm_glyphs stencil) ++ pasted_labels l'
  | _ :: l' => pasted_labels l'
  end.

(** The widths of the lines drawn on a surface, in order. *)
Fixpoint line_widths (l : list prim) : list Z :=
  match l with
  | [] => []
  | Line _ _ width :: l' => width :: line_widths l'
  | _ :: l' => line_widths l'
  end.

(** The values of [m] at which the body of
    [m = start; while m <= end_value: ...; m += step] runs, with exact
    sums as in [while_le]. *)
Fixpoint mark_values (fuel : nat) (m end_value step : R) : option (list R) :=
  match fuel with
  | O => None
  | S fuel' =>
      if Rle_dec m end_value
      then option_map (cons m) (mark_values fuel' (m + step) end_value step)
      else Some []
  end.

(** The same loop on Python integers, whose arithmetic is exact and
    unbounded: [meter] keeps [m] an [int] when it is called with integer
    [start_value] and spacing, as [gmeter] does for the large marks. *)
Fixpoint tick_values_int (fuel : nat) (m end_value step : Z) : option (list Z) :=
  match fuel with
  | O => None
  | S fuel' =>
      if (m <=? end_value)%Z
      then option_map (cons m) (tick_values_int fuel' (m + step) end_value step)
      else Some []
  end.

(** ** Binary64 arithmetic

    A Python [float] is an IEEE 754 binary64 number; [+], [-], [*], [/]
    and the comparisons on it are the machine's, rounding to nearest,
    ties to even. *)

Module B64.

#[local] Open Scope float_scope.

(** [float(n)] for an integer; exact below 2^53 in absolute value. *)
Fixpoint of_pos (p : positive) : float :=
  match p with
  | xH => 1
  | xO p => 2 * of_pos p
  | xI p => 2 * of_pos p + 1
  end.

Definition of_int (n : Z) : float :=
  match n with
  | Z0 => 0
  | Zpos p => of_pos p
  | Zneg p => - of_pos p
  end.

(** [math.pi] *)
Definition pi : float := 3.141592653589793.

(** [math.radians]: CPython multiplies by the constant [pi / 180.0]. *)
Definition radians (x : float) : float := x * (pi / 180).

Definition PITCH_SCALE : float := 3.0.

(** [math.sin] and [math.cos] are the C library's; the language does not
    fix their values, so the code below takes the library as an argument. *)
Record libm : Type := Libm { math_sin : float -> float; math_cos : float -> float }.

(** The values the library returns at the two angles that [linepoints]
    uses for [roll = 0]: the doubles nearest to the sine and cosine of
    the doubles [radians(180)] and [radians(-90)], which are not exactly
    pi and -pi/2.  CPython prints them as below. *)
Definition quarter_turn_values (L : libm) : Prop :=
  math_sin L pi = 1.2246467991473532e-16 /\
  math_cos L pi = -1 /\
  math_sin L (- (pi / 2)) = -1 /\
  math_cos L (- (pi / 2)) = 6.123233995736766e-17.

(** A library that is only known at those two angles. *)
Definition quarter_turns : libm :=
  {| math_sin := fun x =>
       if Leibniz.eqb x pi then 1.2246467991473532e-16
       else if Leibniz.eqb x (- (pi / 2)) then -1
       else nan;
     math_cos := fun x =>
       if Leibniz.eqb x pi then -1
       else if Leibniz.eqb x (- (pi / 2)) then 6.123233995736766e-17
       else nan |}.

(** [linepoints] (lines 573-584); [zerox] and [zeroy] are the module's
    globals, set by [init] to half the device size. *)
Definition linepoints (L : libm) (zerox zeroy pitch roll pitch_distance length : float)
  : (float * float) * (float * float) :=
  let s := math_sin L (radians (180 + roll)) in
  let c := math_cos L (radians (180 + roll)) in
  let dist := (- pitch + pitch_distance) * PITCH_SCALE in
  let move := (dist * s, dist * c) in
  let s1 := math_sin L (radians (-90 - roll)) in
  let c1 := math_cos L (radians (-90 - roll)) in
  let p1 := (zerox - length * s1, zeroy + length * c1) in
  let p2 := (zerox + length * s1, zeroy - length * c1) in
  let ps := (fst p1 + fst move, snd p1 + snd move) in
  let pe := (fst p2 + fst move, snd p2 + snd move) in
  (ps, pe).

(** The values of [m] at which the body of a mark loop of [meter] runs
    (lines 366-371 and 374-386) when [m] is a float. *)
Fixpoint tick_values (fuel : nat) (m end_value step : float) : option (list float) :=
  match fuel with
  | O => None
  | S fuel' =>
      if m <=? end_value
      then option_map (cons m) (tick_values fuel' (m + step) end_value step)
      else Some []
  end.

(** The whole numbers [first], ..., [first + count - 1] as floats. *)
Definition whole_numbers (first count : nat) : list float :=
  map (fun k => of_int (Z.of_nat k)) (seq first count).

End B64.

(** ** Renderers *)

Section Controller.

(** Device properties, set once by [init]. *)
Variable device_width device_height : Z.

(** [draw.textlength(text, font)] / [font.getlength(text)] of the surface. *)
Variable textlength : string -> font -> R.

(** [str(x)] for a number that is not known to be an integer. *)
Variable str_num : R -> string.

(** [time.time()] and [time.strftime("%H:%M", time.gmtime(t))]. *)
Variable time_now : R.
Variable strftime_HM : Z -> string.

Definition sizex : R := IZR device_width.
Definition sizey : R := IZR device_height.
Definition zerox : R := sizex / 2.
Definition zeroy : R := sizey / 2.

(** *** Traffic contacts *)

(** The label text [t] built by [aircraft] (lines 206-213). *)
Definition aircraft_label (height : Z) (vspeed : R) : string :=
  let t := if (height >=? 0)%Z
           then ("+" ++ str_int (Z.abs height))%string
           else ("-" ++ str_int (Z.abs height))%string in
  let t := if Rgt_dec vspeed 0 then (t ++ up_arrow)%string else t in
  let t := if Rlt_dec vspeed 0 then (t ++ down_arrow)%string else t in
  t.

(** The anchor [tposition] chosen by [aircraft] (lines 215-219); [x] and
    [y] are the glyph position, after the 0.9 correction. *)
Definition aircraft_tposition (x y tsize : R) : point :=
  if Rgt_dec (tsize + x + 4 * AIRCRAFT_SIZE - 2) sizex
  then (x - 4 * AIRCRAFT_SIZE - tsize, IZR (py_int (y - LARGE / 2)))
  else (x + 4 * AIRCRAFT_SIZE + 1, IZR (py_int (y - LARGE / 2))).

Definition aircraft (x y direction : R) (height : Z) (vspeed nspeed_length : R)
  (tail : option string) : M unit :=
  let x := 9 / 10 * x in   (* 0.9 * x *)
  let y := 9 / 10 * y in   (* 0.9 * y *)
  let p1 := posn (270 + direction) (2 * AIRCRAFT_SIZE) in
  let p2 := posn (270 + direction + 150) (4 * AIRCRAFT_SIZE) in
  let p3 := posn (270 + direction + 180) (2 * AIRCRAFT_SIZE) in
  let p4 := posn (270 + direction + 210) (4 * AIRCRAFT_SIZE) in
  let p5 := posn (270 + direction) nspeed_length in
  let at_ (p : Z * Z) : point := (x + IZR (fst p), y + IZR (snd p)) in
  emit (Polygon [at_ p1; at_ p2; at_ p3; at_ p4] "red" (Some "white")) ;;
  emit (Line [at_ p1; at_ p5] "white" 1) ;;
  let t := aircraft_label height vspeed in
  let tsize := textlength t largefont in
  let tposition := aircraft_tposition x y tsize in
  emit (Rectangle tposition (fst tposition + tsize, snd tposition + LARGE)
          (Some "black") None) ;;
  emit (Text tposition t largefont "white") ;;
  match tail with
  | Some tl => emit (Text (fst tposition, snd tposition + LARGE) tl
                       verysmallfont "white")
  | None => ret tt
  end.

(** The label text [t] built by [modesaircraft] (lines 235-243). *)
Definition modesaircraft_label (height : Z) (vspeed : R) : string :=
  let signchar := if (height >? 0)%Z then "+" else "-" in
  let t := (signchar ++ str_int (Z.abs height))%string in
  let t := if Rgt_dec vspeed 0 then (t ++ up_arrow)%string else t in
  let t := if Rlt_dec vspeed 0 then (t ++ down_arrow)%string else t in
  t.

Definition modesaircraft (radius : R) (height : Z) (arcposition vspeed : R)
  (tail : option string) : M unit :=
  let radius := if Rlt_dec radius MINIMAL_CIRCLE then MINIMAL_CIRCLE else radius in
  let radius := if Rgt_dec radius MAXIMAL_CIRCLE then MAXIMAL_CIRCLE else radius in
  emit (Ellipse (zerox - radius, zeroy - radius) (zerox + radius, zeroy + radius)
          None (Some "yellow") 3) ;;
  let arctext := posn arcposition radius in
  let t := modesaircraft_label height vspeed in
  let tsize := textlength t largefont in
  let tposition : point :=
    (zerox + IZR (fst arctext) - tsize / 2, zeroy + IZR (snd arctext) - LARGE / 2) in
  emit (Rectangle tposition (fst tposition + tsize, snd tposition + LARGE)
          (Some "black") None) ;;
  emit (Text tposition t largefont "yellow") ;;
  match tail with
  | Some tl =>
      let tsize := textlength tl verysmallfont in
      emit (Rectangle (fst tposition, snd tposition + LARGE)
              (fst tposition + tsize, snd tposition + LARGE + VERYSMALL)
              (Some "black") None) ;;
      emit (Text (fst tposition, snd tposition + LARGE) tl verysmallfont "white")
  | None => ret tt
  end.

(** *** Attitude: the horizon transform *)

(** [linepoints] (lines 573-584) in exact arithmetic.  The code returns
    the coordinates unrounded, so its doubles differ from these numbers
    in the last places; [B64.linepoints] is the code on doubles. *)
Definition linepoints (pitch roll pitch_distance length : R) : point * point :=
  let s := sin (radians (180 + roll)) in
  let c := cos (radians (180 + roll)) in
  let dist := (- pitch + pitch_distance) * PITCH_SCALE in
  let move := (dist * s, dist * c) in
  let s1 := sin (radians (-90 - roll)) in
  let c1 := cos (radians (-90 - roll)) in
  let p1 := (zerox - length * s1, zeroy + length * c1) in
  let p2 := (zerox + length * s1, zeroy - length * c1) in
  let ps := (fst p1 + fst move, snd p1 + snd move) in
  let pe := (fst p2 + fst move, snd p2 + snd move) in
  (ps, pe).

(** *** Text helpers *)

Definition centered_text (y : R) (text : string) (f : font) (fill : color)
  : M unit :=
  let ts := textlength text f in
  emit (Text (zerox - ts / 2, y) text f fill).

(** *** Generic radial gauge *)

(** Lines 388-391: the value the needle is drawn at. *)
Definition normalize_current (current start_value end_value : R) : R :=
  if Rgt_dec current end_value then end_value
  else if Rlt_dec current start_value then start_value
  else current.

(** Lines 360 and 388-392 together: the needle's angle, as a function of
    [current]. *)
Definition needle_angle (deg_per_value current start_value end_value
                         from_degree : R) : R :=
  let current := normalize_current current start_value end_value in
  deg_per_value * (current - start_value) + from_degree.

(** Body of the first loop (lines 368-370). *)
Definition small_mark (deg_per_value start_value from_degree size
                       center_x center_y : R) (m : R) : M unit :=
  let small_mark_length := 7 in
  let line := [(0, - size / 2); (0, - size / 2 + small_mark_length)] in
  let angle := deg_per_value * (m - start_value) + from_degree in
  let mark := translate angle line (center_x, center_y) in
  emit (Line (map to_point mark) "white" 1).

(** Body of the second loop (lines 376-385). *)
Definition large_mark (deg_per_value start_value from_degree size
                       center_x center_y : R) (m : R) : M unit :=
  let big_mark_length := 14 in
  let text_distance := 7 in
  let line := [(0, - size / 2); (0, - size / 2 + big_mark_length)] in
  let angle := deg_per_value * (m - start_value) + from_degree in
  let mark := translate angle line (center_x, center_y) in
  emit (Line (map to_point mark) "white" 2) ;;
  let marktext := str_num m in
  let w := textlength marktext largefont in
  let h := LARGE in
  let t_center :=
    translate angle [(0, - size / 2 + big_mark_length + h / 2 + text_distance)]
      (center_x, center_y) in
  let t0 := to_point (nth 0 t_center (0%Z, 0%Z)) in
  emit (Text (fst t0 - w / 2, snd t0 - h / 2) marktext largefont "white").

(** The needle polygon at angle 0 (lines 356-357). *)
Definition arrow (size : R) : list point :=
  let arrow_line_size := 8 in
  let arrow_head_size := 15 in
  let arrow_distance := 5 in
  [(arrow_line_size / 2, 0); (- arrow_line_size / 2, 0);
   (- arrow_line_size / 2, - size / 2 + arrow_head_size);
   (0, - size / 2 + arrow_distance);
   (arrow_line_size / 2, - size / 2 + arrow_head_size);
   (arrow_line_size / 2, 0)].

(** [fuel] bounds the number of iterations of each [while] loop. *)
Definition meter (fuel : nat) (current start_value end_value from_degree
                  to_degree size center_x center_y marks_distance
                  small_marks_distance : R)
                 (middle_text1 middle_text2 : option string) : M unit :=
  deg_per_value <- pydiv (to_degree - from_degree) (end_value - start_value) ;;
  emit (Arc (center_x - size / 2, center_y - size / 2)
            (center_x + size / 2, center_y + size / 2)
            (from_degree - 90) (to_degree - 90) "white" 2) ;;
  while_le fuel start_value end_value small_marks_distance
    (small_mark deg_per_value start_value from_degree size center_x center_y) ;;
  while_le fuel start_value end_value marks_distance
    (large_mark deg_per_value start_value from_degree size center_x center_y) ;;
  let angle :=
    needle_angle deg_per_value current start_value end_value from_degree in
  let ar := translate angle (arrow size) (center_x, center_y) in
  emit (Line (map to_point ar) "white" 1) ;;
  emit (Ellipse (center_x - 5, center_y - 5) (center_x + 5, center_y + 5)
          (Some "white") None 1) ;;
  match middle_text1 with
  | Some mt =>
      let ts := textlength mt smallfont in
      let th := SMALL in
      emit (Text (center_x - ts / 2, center_y - th - 15) mt smallfont "yellow")
  | None => ret tt
  end ;;
  match middle_text2 with
  | Some mt =>
      let ts := textlength mt smallfont in
      emit (Text (center_x - ts / 2, center_y + 15) mt smallfont "yellow")
  | None => ret tt
  end.

(** *** Compass rose *)

(** Lines 446-457: the label of a long tick and its colour. *)
Definition compass_mark (m : Z) : string * color :=
  if (m =? 0)%Z then ("N", "yellow")
  else if (m =? 90)%Z then ("E", "yellow")
  else if (m =? 180)%Z then ("S", "yellow")
  else if (m =? 270)%Z then ("W", "yellow")
  else (str_int (py_int (IZR m / 10)), "white").

(** Line 463: where the label is centred. *)
Definition compass_center (heading : R) (m : Z) : point :=
  let csize := sizey / 2 in
  let s := sin (radians (IZR m - heading + 90)) in
  let c := cos (radians (IZR m - heading + 90)) in
  (zerox - (csize - cmsize - LARGE / 2) * c,
   zeroy - (csize - cmsize - LARGE / 2) * s).

(** Body of the loop of [compass] (lines 438-464). *)
Definition compass_step (heading : R) (m : Z) : M unit :=
  let csize := sizey / 2 in
  let s := sin (radians (IZR m - heading + 90)) in
  let c := cos (radians (IZR m - heading + 90)) in
  if negb (m mod 30 =? 0)%Z then
    emit (Line [(zerox - (csize - 1) * c, zeroy - (csize - 1) * s);
                (zerox - (csize - cmsize) * c, zeroy - (csize - cmsize) * s)]
            "white" 1)
  else
    emit (Line [(zerox - (csize - 1) * c, zeroy - (csize - 1) * s);
                (zerox - (csize - cmsize) * c, zeroy - (csize - cmsize) * s)]
            "white" 3) ;;
    let mark := fst (compass_mark m) in
    let color := snd (compass_mark m) in
    mask_blank ;;
    let w := textlength mark largefont in
    mask_text ((LARGE * 2 - w) / 2, (LARGE * 2 - LARGE) / 2) mark largefont ;;
    rotmask <- mask_rotate (- IZR m + heading) ;;
    let center := compass_center heading m in
    emit (PasteColor color
            (py_round (fst center - LARGE), py_round (snd center - LARGE))
            rotmask).

Definition compass (heading : R) (error_message : option string) : M unit :=
  let csize := sizey / 2 in
  emit (Ellipse (sizex / 2 - csize, 0) (sizex / 2 + csize - 1, sizey - 1)
          (Some "black") (Some "white") 3) ;;
  emit (PasteAircraft ((py_round zerox - 60)%Z, 60%Z)) ;;
  emit (Line [(zerox, 20); (zerox, 50)] "orange" 3) ;;
  let text := (str_num heading ++ degree_sign)%string in
  let textsize := textlength text smallfont in
  emit (Text (sizex - textsize, sizey - SMALL) text smallfont "floralwhite") ;;
  for_each (py_range 0 360 10) (compass_step heading) ;;
  match error_message with
  | Some e => centered_text 57 e largefont "red"
  | None => ret tt
  end.

(** *** Capacity bar *)

(** Lines 670-677. *)
Definition bar_color (val yellow red : R) : color :=
  if Req_dec_T red 0 then "DimGray"
  else if Rge_dec val red then "red"
  else if Rge_dec val yellow then "DarkOrange"
  else "green".

Definition bar_start : R := 60.
Definition bar_end : R := 240.

(** Lines 678-683: the right edge of the filled rectangle. *)
Definition bar_xval (val max_val minval : R) : M R :=
  let val := if Rlt_dec val minval then minval else val in
  if Req_dec_T max_val 0 then ret bar_start
  else q <- pydiv ((bar_end - bar_start) * val) max_val ;; ret (bar_start + q).

Definition bar (y : R) (text : string) (val max_val yellow red : R)
               (unit : string) (valtext : option string) (minval : R) : M R :=
  emit (Text (0, y) text verysmallfont "white") ;;
  let right_val := (str_int (py_int max_val) ++ unit)%string in
  let textsize := textlength right_val verysmallfont in
  emit (Text (sizex - textsize, y) right_val verysmallfont "white") ;;
  emit (RoundedRectangle (bar_start - 2, y - 2) (bar_end + 2, y + VERYSMALL + 2)
          3 None (Some "white")) ;;
  let color := bar_color val yellow red in
  xval <- bar_xval val max_val minval ;;
  let val := if Rlt_dec val minval then minval else val in
  emit (Rectangle (bar_start, y) (xval, y + VERYSMALL) (Some color) None) ;;
  let t := match valtext with Some v => v | None => str_num val end in
  let textsize := textlength t verysmallfont in
  emit (Text ((bar_end - bar_start) / 2 + bar_start - textsize / 2, y) t
          verysmallfont "white") ;;
  ret (y + VERYSMALL + 5).

(** *** Time-series graph *)

(** Lines 839-841: the y pixel of one sample, after the first guard. *)
Definition graph_sample_y (ypos ysize minvalue maxvalue d : R) : M R :=
  q <- pydiv (ysize * (d - minvalue)) (maxvalue - minvalue) ;;
  let y := ypos - 1 + ysize - q in
  let y := if Rlt_dec y ypos then ypos else y in
  ret y.

(** One iteration of the loop over the samples (lines 839-849); the loop
    variables are [x] and [lastpoint]. *)
Definition graph_sample (xpos ypos xsize ysize minvalue maxvalue : R)
  (data : list R) (i : nat) (vars : R * option point)
  : M (R * option point) :=
  let x := fst vars in
  let lastpoint := snd vars in
  y <- graph_sample_y ypos ysize minvalue maxvalue (nth i data 0) ;;
  let x := if Rgt_dec y (ypos + ysize - 1) then ypos + ysize - 1 else x in
  if (1 <=? i)%nat then
    q <- pydiv (INR i * xsize) (IZR (Z.of_nat (List.length data) - 1)) ;;
    let x := xpos + q in
    emit (Line (match lastpoint with
                | Some lp => [lp; (x, y)]
                | None => [(x, y)]
                end) "cyan" 2) ;;
    ret (x, Some (x, y))
  else
    let x := xpos in
    ret (x, Some (x, y)).

(** A dashed horizontal guide line (lines 851-853 and 855-857). *)
Definition graph_value_line (xpos ypos xsize ysize minvalue maxvalue
                             value_line : R) : M unit :=
  q <- pydiv (ysize * (value_line - minvalue)) (maxvalue - minvalue) ;;
  let y := ypos + ysize - q in
  for_each (range_num xpos (xpos + xsize) 6)
    (fun x => emit (Line [(x, y); (x + 3, y)] "white" 1)).

Definition graph (xpos ypos xsize ysize : R) (data : list R)
  (minvalue maxvalue value_line1 value_line2 timeout : R) : M unit :=
  let ts := textlength (str_num maxvalue) verysmallfont in
  let th := VERYSMALL in
  let xpos := xpos + ts + space in
  let xsize := xsize - ts - space in
  let ypos := ypos + th / 2 in
  let ysize := ysize - th in
  let vlmin_y := ypos + ysize - 1 in
  let ts := textlength (str_num minvalue) verysmallfont in
  emit (Text (xpos - ts - space, vlmin_y - th) (str_num minvalue)
          verysmallfont "white") ;;
  q <- pydiv (ysize * (value_line1 - minvalue)) (maxvalue - minvalue) ;;
  let vl1_y := ypos + ysize - q in
  let ts := textlength (str_num value_line1) verysmallfont in
  emit (Text (xpos - ts - space, vl1_y - th / 2) (str_num value_line1)
          verysmallfont "white") ;;
  q <- pydiv (ysize * (value_line2 - minvalue)) (maxvalue - minvalue) ;;
  let vl2_y := ypos + ysize - q in
  let ts := textlength (str_num value_line2) verysmallfont in
  emit (Text (xpos - ts - space, vl2_y - th / 2) (str_num value_line2)
          verysmallfont "white") ;;
  let vlmax_y := ypos in
  let ts := textlength (str_num maxvalue) verysmallfont in
  emit (Text (xpos - ts - space, vlmax_y - th / 2) (str_num maxvalue)
          verysmallfont "white") ;;
  emit (Rectangle (xpos, ypos) (xpos + xsize - 1, ypos + ysize - 1)
          (Some "black") (Some "white")) ;;
  let no_of_values := List.length data in
  let full_time := timeout * INR no_of_values in
  let timestr := strftime_HM (py_floor time_now) in
  let ts := textlength timestr verysmallfont in
  q <- pydiv xsize ts ;;
  let no_of_time := (py_floor (q / 2) + 1)%Z in
  time_offset <- pydiv full_time (IZR no_of_time) ;;
  q <- pydiv (xsize - 1) (IZR no_of_time) ;;
  let offset := py_floor q in
  let acttime := py_floor time_now in
  x <- for_fold (py_range 0 (no_of_time + 1) 1) xpos
         (fun i x =>
            emit (Line [(x, ypos + ysize - 1 - 5); (x, ypos + ysize - 1 + 3)]
                    "white" 1) ;;
            let timestr :=
              strftime_HM
                (py_floor (IZR acttime - IZR (no_of_time - i) * time_offset)) in
            emit (Text (x - ts / 2, ypos + ysize - 1 + 1) timestr
                    verysmallfont "white") ;;
            ret (x + IZR offset)) ;;
  for_fold (seq 0 (List.length data)) (x, None)
    (graph_sample xpos ypos xsize ysize minvalue maxvalue data) ;;
  graph_value_line xpos ypos xsize ysize minvalue maxvalue value_line1 ;;
  graph_value_line xpos ypos xsize ysize minvalue maxvalue value_line2.

(** *** Label declutter for stacked Mode-S contacts *)

Definition next_arcposition (old_arcposition : Z) : Z :=
  ((old_arcposition + 210) mod 360)%Z.

(** *** Attitude indicator *)

Definition roll_posmarks : list Z := [-90; -60; -30; -20; -10; 0; 10; 20; 30; 60; 90]%Z.
Definition pitch_posmarks : list Z := [-30; -20; -10; 10; 20; 30]%Z.

Definition ah_zerox : R := sizex / 2.
Definition ah_zeroy : R := sizey / 2.

(** One mark of the roll scale (lines 557-569), in exact arithmetic: the
    doubles the code passes to [draw.line] differ from these coordinates
    in the last places. *)
Definition rollmark (di roll : R) (rm : Z) : M unit :=
  let s := sin (radians (IZR rm - roll + 90)) in
  let c := cos (radians (IZR rm - roll + 90)) in
  if (rm mod 30 =? 0)%Z then
    emit (Line [(ah_zerox - di * c, ah_zeroy - di * s);
                (ah_zerox - (di - 24) * c, ah_zeroy - (di - 24) * s)] "white" 3)
  else
    emit (Line [(ah_zerox - di * c, ah_zeroy - di * s);
                (ah_zerox - (di - 16) * c, ah_zeroy - (di - 16) * s)] "white" 3).

Definition rollmarks (roll : R) : M unit :=
  let di := if Rgt_dec ah_zerox ah_zeroy then ah_zeroy else ah_zerox in
  for_each roll_posmarks (rollmark di roll) ;;
  emit (Polygon [(zerox, 20); (zerox - 12, 20 + 8); (zerox + 12, 20 + 8)]
          "white" None).

Definition slip (slipskid : R) : M unit :=
  let slipsize := 10 in
  let slipscale := 12 in
  let slipskid := if Rlt_dec slipskid (-10) then -10
                  else if Rgt_dec slipskid 10 then 10
                  else slipskid in
  emit (Rectangle (zerox - 120, sizey - slipsize * 2) (zerox + 120, sizey - 1)
          (Some "black") None) ;;
  emit (Ellipse (zerox - slipskid * slipscale - slipsize, sizey - slipsize * 2)
          (zerox - slipskid * slipscale + slipsize, sizey - 1)
          (Some "white") None 1).

(** [if error_message:] is taken for a message that is neither [None] nor
    the empty string. *)
Definition truthy (message : option string) : bool :=
  match message with
  | Some (String _ _) => true
  | _ => false
  end.

Definition ahrs (pitch roll heading slipskid : R) (error_message : option string)
  : M unit :=
  let h12 := linepoints pitch roll 0 200 in
  let h1 := fst h12 in
  let h2 := snd h12 in
  let h34 := linepoints pitch roll (-180) 200 in
  let h3 := fst h34 in
  let h4 := snd h34 in
  emit (Polygon [h1; h2; h4; h3] "brown" None) ;;
  let h34 := linepoints pitch roll 180 200 in
  let h3 := fst h34 in
  let h4 := snd h34 in
  emit (Polygon [h1; h2; h4; h3] "blue" None) ;;
  emit (Line [h1; h2] "white" 2) ;;
  for_each pitch_posmarks
    (fun pm => let l := linepoints pitch roll (IZR pm) 20 in
               emit (Line [fst l; snd l] "white" 2)) ;;
  emit (Line [(zerox - 60, zeroy); (zerox - 25, zeroy)] "white" 5) ;;
  emit (Line [(zerox + 60, zeroy); (zerox + 25, zeroy)] "white" 5) ;;
  emit (Polygon [(zerox, zeroy + 3); (zerox - 15, zeroy + 12);
                 (zerox + 15, zeroy + 12)] "white" None) ;;
  rollmarks roll ;;
  slip slipskid ;;
  if truthy error_message
  then match error_message with
       | Some e => centered_text 30 e smallfont "red"
       | None => ret tt
       end
  else ret tt.

(** *** Text helpers, continued *)

Definition right_text (y : R) (text : string) (f : font) (fill : color) : M unit :=
  let ts := textlength text f in
  emit (Text (sizex - ts, y) text f fill).

(** *** G-meter *)

(** ["{:+1.2f}".format(x)] *)
Variable format_g : R -> string.

Definition gmeter (fuel : nat) (current maxg ming : R)
  (error_message : option string) : M unit :=
  meter fuel current (-3) 5 120 420 (sizey - 2) (sizex / 2) (sizey / 2) 1 (1 / 4)
    (Some "G-Meter") None ;;
  emit (Text (zerox + 8, 52) "max" smallfont "cyan") ;;
  right_text 52 (format_g maxg) smallfont "magenta" ;;
  (if truthy error_message
   then match error_message with
        | Some e => centered_text 57 e largefont "red"
        | None => ret tt
        end
   else ret tt) ;;
  emit (Text (zerox + 8, 68) "min" smallfont "cyan") ;;
  right_text 68 (format_g ming) smallfont "magenta" ;;
  let right := "Reset" in
  let textsize := textlength right smallfont in
  emit (Text (sizex - textsize, sizey - SMALL - 3) right smallfont "green") ;;
  let middle := "" in
  centered_text (sizey - SMALL - 3) middle smallfont "green".

(** *** Vertical speed indicator *)

(** [scale = 170.0 / 2000.0] *)
Definition vsi_scale : R := 170 / 2000.

(** Lines 509-513: the needle's angle. *)
Definition vsi_needle_angle (vertical_speed : R) : R :=
  let vert_val := vertical_speed * vsi_scale in
  if Rgt_dec vert_val 170 then 170
  else if Rlt_dec vert_val (-170) then -170
  else vert_val.

(** Body of the loop over the scale (lines 488-504). *)
Definition vsi_mark (m : Z) : M unit :=
  let csize := sizey / 2 in
  let vmsize_n := 8 in
  let vmsize_l := 14 in
  let s := sin (radians (IZR m * vsi_scale)) in
  let c := cos (radians (IZR m * vsi_scale)) in
  if negb (m mod 500 =? 0)%Z then
    emit (Line [(zerox - (csize - 1) * c, zeroy - (csize - 1) * s);
                (zerox - (csize - vmsize_n) * c, zeroy - (csize - vmsize_n) * s)]
            "white" 1)
  else
    emit (Line [(zerox - (csize - 1) * c, zeroy - (csize - 1) * s);
                (zerox - (csize - vmsize_l) * c, zeroy - (csize - vmsize_l) * s)]
            "white" 3) ;;
    let mark := str_int (py_round (Rabs (IZR m / 100))) in
    let w := textlength mark largefont in
    let h := LARGE in
    (if negb (m =? 2000)%Z && negb (m =? -2000)%Z then
       let center := (zerox - (csize - 1 - vmsize_l - LARGE / 2) * c,
                      zeroy - (csize - 5 - vmsize_l - LARGE / 2) * s) in
       emit (Text (fst center - w / 2, snd center - h / 2) mark largefont "white")
     else ret tt) ;;
    (if (m =? 2000)%Z then
       emit (Text (zerox + (csize - 1 - vmsize_l - LARGE / 2) - w / 2,
                   zeroy - 1 - h / 2) mark largefont "white")
     else ret tt).

Definition vsi (vertical_speed flight_level gps_speed gps_course gps_altitude
                vertical_max vertical_min : R) (error_message : option string)
  : M unit :=
  let csize := sizey / 2 in
  let vmsize_n := 8 in
  let vmsize_l := 14 in
  emit (Arc (zerox - csize, 0) (zerox + csize - 1, sizey - 1) 10 350 "white" 2) ;;
  emit (Text (12, zeroy - VERYSMALL - 12) "up" verysmallfont "white") ;;
  emit (Text (12, zeroy + 12) "dn" verysmallfont "white") ;;
  let middle_text := "Vert Spd" in
  let ts := textlength middle_text verysmallfont in
  let th := VERYSMALL in
  emit (Text (zerox - ts / 2, zeroy - th - 10) middle_text verysmallfont "white") ;;
  let middle_text := "100 ft/min" in
  let ts := textlength middle_text verysmallfont in
  emit (Text (zerox - ts / 2, zeroy + 10) middle_text verysmallfont "white") ;;
  for_each (py_range (-2000) 2100 100) vsi_mark ;;
  match error_message with
  | Some e => centered_text 30 e largefont "red"
  | None => ret tt
  end ;;
  let vert_val := vsi_needle_angle vertical_speed in
  let s := sin (radians vert_val) in
  let c := cos (radians vert_val) in
  emit (Line [(zerox - (csize - vmsize_n - 3) * c, zeroy - (csize - vmsize_n - 3) * s);
              (zerox, zeroy)] "white" 1) ;;
  emit (Line [(zerox - (csize - vmsize_l - 3) * c, zeroy - (csize - vmsize_l - 3) * s);
              (zerox + 16 * c, zeroy + 16 * s)] "white" 5) ;;
  emit (Ellipse (zerox - 4, zeroy - 4) (zerox + 4, zeroy + 4)
          (Some "black") (Some "white") 2).

(** *** Status panels *)

Definition round_text (x y : R) (text : string) (c : color) : M R :=
  let ts := textlength text verysmallfont in
  let th := VERYSMALL in
  emit (RoundedRectangle (x - 2, y - 1) (x + ts + 2, y + th + 1) 4 (Some c) None) ;;
  emit (Text (x, y) text verysmallfont "white") ;;
  ret (x + ts + 5).

(** One line of [dashboard] (lines 899-902); [starty] is the loop variable. *)
Definition dashboard_line (x sizex : R) (line : string * string) (starty : R)
  : M R :=
  emit (Text (x, starty) (fst line) smallfont "white") ;;
  let ts := textlength (snd line) smallfont in
  emit (Text (x + sizex - ts, starty) (snd line) smallfont "white") ;;
  ret (starty + (SMALL + 2)).

Definition dashboard (x y sizex : R) (lines : list (string * string)) : M R :=
  let starty := y in
  for_fold lines starty (dashboard_line x sizex).

(** *** Flight log *)

(** [divmod(a, b)] for a positive [b]. *)
Definition py_divmod (a b : R) : R * R :=
  let q := IZR (py_floor (a / b)) in
  (q, a - q * b).

(** ["{:02}".format(n)] for an integer. *)
Definition format_02 (n : Z) : string :=
  if (0 <=? n)%Z && (n <? 10)%Z then ("0" ++ str_int n)%string else str_int n.

(** Lines 785-787: a duration in seconds as hours and minutes. *)
Definition flight_duration (delta : R) : string :=
  let hours := fst (py_divmod delta 3600) in
  let remainder := snd (py_divmod delta 3600) in
  let minutes := fst (py_divmod remainder 60) in
  (format_02 (py_int hours) ++ ":" ++ format_02 (py_int minutes))%string.

(** [f.strftime("%d.%m.")] and [f.strftime("%H:%M")] of a time stamp. *)
Variable strftime_dm : R -> string.
Variable strftime_time : R -> string.

(** A log entry: take-off time and landing time in seconds; the landing
    time is [None] where the source has 0, for a flight still in the air. *)
Definition flight : Type := (R * option R)%type.

(** One row of the log (lines 777-788). *)
Definition flight_row (f : flight) (starty : R) : M unit :=
  emit (Text (15, starty) (strftime_dm (fst f)) verysmallfont "green") ;;
  emit (Text (100, starty) (strftime_time (fst f)) verysmallfont "white") ;;
  delta <- match snd f with
           | Some landing =>
               let delta := landing - fst f in
               emit (Text (220, starty) (strftime_time landing)
                       verysmallfont "white") ;;
               ret delta
           | None =>
               let delta := time_now - fst f in
               emit (Text (220, starty) "in air" verysmallfont "red") ;;
               ret delta
           end ;;
  let out := flight_duration delta in
  _ <- round_text 160 starty out "DarkBlue" ;;
  ret tt.

(** The loop of [flighttime] with its counter [maxlines] and its [break]
    (lines 776-792). *)
Fixpoint flight_rows (last_flights : list flight) (starty : R) (maxlines : Z)
  : M unit :=
  match last_flights with
  | [] => ret tt
  | f :: rest =>
      flight_row f starty ;;
      let starty := starty + (VERYSMALL + 1) in
      let maxlines := (maxlines - 1)%Z in
      if (maxlines <=? 0)%Z then ret tt else flight_rows rest starty maxlines
  end.

Definition flighttime (last_flights : list flight) : M unit :=
  let starty := 0 in
  centered_text 0 "Flight Logs" smallfont "yellow" ;;
  let starty := starty + (SMALL + 8) in
  emit (Text (15, starty) "Date" verysmallfont "white") ;;
  emit (Text (100, starty) "Start" verysmallfont "white") ;;
  emit (Text (160, starty) "Dur" verysmallfont "white") ;;
  emit (Text (220, starty) "Ldg" verysmallfont "white") ;;
  let starty := starty + (VERYSMALL + 8) in
  let maxlines := 8%Z in
  flight_rows last_flights starty maxlines.

(** * Properties *)

(** ** Python numerics *)

Lemma Int_part_bounds (x : R) : IZR (Int_part x) <= x < IZR (Int_part x) + 1.
Proof.
  destruct (base_Int_part x) as [H1 H2]. lra.
Qed.

Lemma Int_part_IZR (z : Z) : Int_part (IZR z) = z.
Proof.
  symmetry. apply Int_part_spec. lra.
Qed.

Lemma py_round_nearest (x : R) : Rabs (IZR (py_round x) - x) <= 1 / 2.
Proof.
  unfold py_round.
  pose proof (Int_part_bounds x) as Hb.
  destruct (Rlt_dec (x - IZR (Int_part x)) (1 / 2)) as [Hlt | Hge].
  - apply Rabs_le. lra.
  - destruct (Rlt_dec (1 / 2) (x - IZR (Int_part x))) as [Hgt | Hle].
    + rewrite plus_IZR. apply Rabs_le. lra.
    + destruct (Z.even (Int_part x)).
      * apply Rabs_le. lra.
      * rewrite plus_IZR. apply Rabs_le. lra.
Qed.

Lemma py_round_IZR (z : Z) : py_round (IZR z) = z.
Proof.
  unfold py_round. rewrite Int_part_IZR.
  destruct (Rlt_dec (IZR z - IZR z) (1 / 2)) as [H | H]; [reflexivity | lra].
Qed.

Lemma py_round_unique (x : R) (z : Z) :
  IZR z - 1 / 2 < x < IZR z + 1 / 2 -> py_round x = z.
Proof.
  intros Hx. unfold py_round.
  pose proof (Int_part_bounds x) as Hb.
  assert (Hcases : Int_part x = z \/ Int_part x = (z - 1)%Z).
  { assert (IZR (Int_part x) < IZR (z + 1)) by (rewrite plus_IZR; lra).
    assert (IZR (z - 2) < IZR (Int_part x)) by (rewrite minus_IZR; lra).
    apply lt_IZR in H. apply lt_IZR in H0. lia. }
  destruct Hcases as [E | E]; rewrite E in *.
  - destruct (Rlt_dec (x - IZR z) (1 / 2)); [reflexivity | lra].
  - rewrite minus_IZR in *.
    destruct (Rlt_dec (x - (IZR z - 1)) (1 / 2)); [lra |].
    destruct (Rlt_dec (1 / 2) (x - (IZR z - 1))); [lia | lra].
Qed.

Lemma py_int_IZR (z : Z) : py_int (IZR z) = z.
Proof.
  unfold py_int. destruct (Rle_dec 0 (IZR z)) as [H | H].
  - apply Int_part_IZR.
  - rewrite <- opp_IZR, Int_part_IZR. lia.
Qed.

(** [round] and [int] differ: 2.7 rounds to 3 and truncates to 2. *)
Example py_round_is_not_truncation :
  py_round (27 / 10) = 3%Z /\ py_int (27 / 10) = 2%Z.
Proof.
  split.
  - apply py_round_unique. lra.
  - unfold py_int. destruct (Rle_dec 0 (27 / 10)) as [_ | H]; [| lra].
    symmetry. apply Int_part_spec. lra.
Qed.

(** ** Geometry kernel *)

Lemma radians_full_turn (angle : R) : radians (angle + 360) = radians angle + 2 * PI.
Proof. unfold radians. field. Qed.

Lemma cos_full_turn (x : R) : cos (x + 2 * PI) = cos x.
Proof. rewrite cos_plus, cos_2PI, sin_2PI. ring. Qed.

Lemma sin_full_turn (x : R) : sin (x + 2 * PI) = sin x.
Proof. rewrite sin_plus, cos_2PI, sin_2PI. ring. Qed.

Lemma radians_180 : radians 180 = PI.
Proof. unfold radians. field. Qed.

Lemma radians_90 : radians 90 = PI / 2.
Proof. unfold radians. field. Qed.

Lemma radians_neg90 : radians (-90) = - (PI / 2).
Proof. unfold radians. field. Qed.

Lemma radians_0 : radians 0 = 0.
Proof. unfold radians. field. Qed.

Lemma radians_360 : radians 360 = 2 * PI.
Proof. unfold radians. field. Qed.

(** C6. [posn] returns the offset [(arm_length * cos angle, arm_length * sin
    angle)] with each coordinate rounded to a nearest integer (the result
    is within one half of the exact value, which truncation is not), and it
    is periodic: an angle and the angle plus 360 degrees give the same pixel
    offset.  Sine and cosine are the real functions here; the rounding
    error of floating-point evaluation is outside the model. *)
Theorem posn_rounds_to_nearest_and_is_periodic (angle arm_length : R) :
  Rabs (IZR (fst (posn angle arm_length)) - arm_length * cos (radians angle))
    <= 1 / 2 /\
  Rabs (IZR (snd (posn angle arm_length)) - arm_length * sin (radians angle))
    <= 1 / 2 /\
  posn (angle + 360) arm_length = posn angle arm_length.
Proof.
  unfold posn. cbn [fst snd]. repeat split.
  - rewrite (Rmult_comm arm_length). apply py_round_nearest.
  - rewrite (Rmult_comm arm_length). apply py_round_nearest.
  - rewrite radians_full_turn, cos_full_turn, sin_full_turn. reflexivity.
Qed.

(** ** Attitude: the horizon transform *)

(** In exact arithmetic, with [pitch = pitch_distance] the translation
    vanishes and the two endpoints are mirror images of each other about
    the screen centre, for every roll. *)
Lemma linepoints_centered (pitch roll length : R) :
  let ps := fst (linepoints pitch roll pitch length) in
  let pe := snd (linepoints pitch roll pitch length) in
  fst ps + fst pe = 2 * zerox /\ snd ps + snd pe = 2 * zeroy.
Proof.
  unfold linepoints. cbn [fst snd]. split; ring.
Qed.

(** In exact arithmetic the level horizon is level: [cos (-90 deg)] is 0
    and both endpoints have the y-coordinate [zeroy]. *)
Lemma linepoints_level_horizon (length : R) :
  linepoints 0 0 0 length = ((zerox + length, zeroy), (zerox - length, zeroy)).
Proof.
  unfold linepoints. cbn [fst snd].
  replace (-90 - 0) with (-90) by ring.
  rewrite radians_neg90, cos_neg, cos_PI2, sin_neg, sin_PI2.
  f_equal; f_equal; ring.
Qed.

(** *** The horizon transform on doubles *)

Lemma forallb_grid {A B : Type} (f : A -> B -> bool) (la : list A) (lb : list B) :
  forallb (fun a => forallb (f a) lb) la = true ->
  forall a b, In a la -> In b lb -> f a b = true.
Proof.
  intros Hall a b Ha Hb.
  rewrite forallb_forall in Hall. specialize (Hall a Ha).
  rewrite forallb_forall in Hall. exact (Hall b Hb).
Qed.

Lemma whole_numbers_in (first count : nat) (n : Z) :
  (Z.of_nat first <= n < Z.of_nat first + Z.of_nat count)%Z ->
  In (B64.of_int n) (B64.whole_numbers first count).
Proof.
  intros Hn. unfold B64.whole_numbers.
  replace n with (Z.of_nat (Z.to_nat n)) by lia.
  apply (in_map (fun k => B64.of_int (Z.of_nat k))).
  apply in_seq. lia.
Qed.

(** At [pitch = roll = pitch_distance = 0] the only angles passed to the
    C library are [radians(180)] and [radians(-90)]. *)
Lemma linepoints_level_angles (L : B64.libm) (zerox zeroy length : float) :
  B64.quarter_turn_values L ->
  B64.linepoints L zerox zeroy 0 0 0 length
  = B64.linepoints B64.quarter_turns zerox zeroy 0 0 0 length.
Proof.
  intros (Hs & Hc & Hs1 & Hc1). unfold B64.linepoints.
  change (B64.radians (180 + 0)) with B64.pi.
  change (B64.radians (-90 - 0)) with (- (B64.pi / 2))%float.
  rewrite Hs, Hc, Hs1, Hc1. reflexivity.
Qed.

Ltac check_on_grid x y lx ly :=
  match goal with
  | |- ?body = true =>
      let f := eval pattern x, y in body in
      match f with
      | ?g _ _ => change (g x y = true); apply (forallb_grid g lx ly)
      end
  end.

(** C7 (amended).  On doubles, for a device of 1 to 480 pixels each way
    ([zerox], [zeroy] half the size, as [init] sets them) and every whole
    length from 0 to 400, the endpoints [linepoints] returns at
    [pitch = roll = pitch_distance = 0] have the x-coordinates
    [zerox + length] and [zerox - length], which add up to [2 * zerox]
    exactly, and y-coordinates on either side of [zeroy], each within
    2^-44 of it.  (They equal [zeroy] only when [length] times the
    library's [cos(radians(-90))], about 6.1e-17, is lost in the rounding
    of the sum.) *)
Theorem level_horizon_symmetric_up_to_rounding (L : B64.libm) (w h n : Z) :
  B64.quarter_turn_values L ->
  (1 <= w <= 480)%Z -> (1 <= h <= 480)%Z -> (0 <= n <= 400)%Z ->
  let zerox := (B64.of_int w / 2)%float in
  let zeroy := (B64.of_int h / 2)%float in
  let length := B64.of_int n in
  let ps := fst (B64.linepoints L zerox zeroy 0 0 0 length) in
  let pe := snd (B64.linepoints L zerox zeroy 0 0 0 length) in
  (fst ps =? zerox + length)%float = true /\
  (fst pe =? zerox - length)%float = true /\
  (fst ps + fst pe =? 2 * zerox)%float = true /\
  (snd pe <=? zeroy)%float = true /\
  (zeroy <=? snd ps)%float = true /\
  (snd ps - zeroy <=? 0x1p-44)%float = true /\
  (zeroy - snd pe <=? 0x1p-44)%float = true.
Proof.
  intros HL Hw Hh Hn. cbv zeta.
  rewrite (linepoints_level_angles L _ _ _ HL).
  set (halves := map (fun x => (x / 2)%float) (B64.whole_numbers 1 480)).
  set (lengths := B64.whole_numbers 0 401).
  assert (Hzx : In (B64.of_int w / 2)%float halves).
  { apply (in_map (fun x => (x / 2)%float)). apply whole_numbers_in. lia. }
  assert (Hzy : In (B64.of_int h / 2)%float halves).
  { apply (in_map (fun x => (x / 2)%float)). apply whole_numbers_in. lia. }
  assert (Hlen : In (B64.of_int n) lengths) by (apply whole_numbers_in; lia).
  generalize dependent (B64.of_int w / 2)%float. intros zx Hzx.
  generalize dependent (B64.of_int h / 2)%float. intros zy Hzy.
  generalize dependent (B64.of_int n). intros len Hlen.
  assert (Hx : (((fst (fst (B64.linepoints B64.quarter_turns zx zy 0 0 0 len))
                  =? zx + len)
                 && (fst (snd (B64.linepoints B64.quarter_turns zx zy 0 0 0 len))
                     =? zx - len)
                 && (fst (fst (B64.linepoints B64.quarter_turns zx zy 0 0 0 len))
                     + fst (snd (B64.linepoints B64.quarter_turns zx zy 0 0 0 len))
                     =? 2 * zx))%float)%bool = true).
  { check_on_grid zx len halves lengths; [| exact Hzx | exact Hlen].
    vm_compute. reflexivity. }
  assert (Hy : (((snd (snd (B64.linepoints B64.quarter_turns zx zy 0 0 0 len))
                  <=? zy)
                 && (zy <=? snd (fst (B64.linepoints B64.quarter_turns zx zy 0 0 0 len)))
                 && (snd (fst (B64.linepoints B64.quarter_turns zx zy 0 0 0 len)) - zy
                     <=? 0x1p-44)
                 && (zy - snd (snd (B64.linepoints B64.quarter_turns zx zy 0 0 0 len))
                     <=? 0x1p-44))%float)%bool = true).
  { check_on_grid zy len halves lengths; [| exact Hzy | exact Hlen].
    vm_compute. reflexivity. }
  apply andb_prop in Hx. destruct Hx as [Hx Hx3].
  apply andb_prop in Hx. destruct Hx as [Hx1 Hx2].
  apply andb_prop in Hy. destruct Hy as [Hy Hy4].
  apply andb_prop in Hy. destruct Hy as [Hy Hy3].
  apply andb_prop in Hy. destruct Hy as [Hy1 Hy2].
  repeat split; assumption.
Qed.

(** ** Running straight-line drawing code *)

Lemma bind_returns {A B} (c : M A) (k : A -> M B) (s s' : state) (a : A) :
  c s = Returns a s' -> bind c k s = k a s'.
Proof. intros H. unfold bind. rewrite H. reflexivity. Qed.

Lemma bind_raises {A B} (c : M A) (k : A -> M B) (s s' : state) (e : exn) :
  c s = Raises e s' -> bind c k s = Raises e s'.
Proof. intros H. unfold bind. rewrite H. reflexivity. Qed.

Lemma bind_bind {A B C} (c : M A) (k : A -> M B) (k' : B -> M C) (s : state) :
  bind (bind c k) k' s = bind c (fun a => bind (k a) k') s.
Proof. unfold bind. destruct (c s); reflexivity. Qed.

Lemma emit_bind {B} (p : prim) (k : unit -> M B) (s : state) :
  bind (emit p) k s = k tt (State (surface s ++ [p]) (mask s)).
Proof. reflexivity. Qed.

Lemma ret_bind {A B} (a : A) (k : A -> M B) (s : state) :
  bind (ret a) k s = k a s.
Proof. reflexivity. Qed.

Lemma pydiv_nonzero (a b : R) (s : state) :
  b <> 0 -> pydiv a b s = Returns (a / b) s.
Proof.
  intros Hb. unfold pydiv. destruct (Req_dec_T b 0); [contradiction | reflexivity].
Qed.

Lemma pydiv_zero (a : R) (s : state) : pydiv a 0 s = Raises ZeroDivisionError s.
Proof.
  unfold pydiv. destruct (Req_dec_T 0 0) as [_ | H]; [reflexivity | lra].
Qed.

Lemma state_eta (s : state) : State (surface s) (mask s) = s.
Proof. destruct s. reflexivity. Qed.

(** Normalises the surface of a state reached by a run of [emit]s. *)
Ltac settle_surface :=
  cbn [surface mask]; repeat (progress (rewrite <- ?app_assoc; cbn [app])).

Ltac run_emits :=
  repeat (rewrite emit_bind || rewrite ret_bind); settle_surface.

(** ** Traffic contacts *)

Lemma str_int_0 : str_int 0 = "0".
Proof. reflexivity. Qed.

Lemma append_empty_r (t : string) : (t ++ "")%string = t.
Proof. induction t as [| a t IH]; cbn; [reflexivity | now rewrite IH]. Qed.

Lemma aircraft_label_eq (height : Z) (vspeed : R) :
  aircraft_label height vspeed =
  ((if (height >=? 0)%Z then "+" else "-") ++ str_int (Z.abs height)
     ++ trend_arrow vspeed)%string.
Proof.
  unfold aircraft_label, trend_arrow.
  destruct (Rgt_dec vspeed 0) as [Hp | Hp];
    destruct (Rlt_dec vspeed 0) as [Hn | Hn]; try lra;
    destruct (height >=? 0)%Z; cbn [append]; rewrite ?append_empty_r; reflexivity.
Qed.

Lemma modesaircraft_label_eq (height : Z) (vspeed : R) :
  modesaircraft_label height vspeed =
  ((if (height >? 0)%Z then "+" else "-") ++ str_int (Z.abs height)
     ++ trend_arrow vspeed)%string.
Proof.
  unfold modesaircraft_label, trend_arrow.
  destruct (Rgt_dec vspeed 0) as [Hp | Hp];
    destruct (Rlt_dec vspeed 0) as [Hn | Hn]; try lra;
    destruct (height >? 0)%Z; cbn [append]; rewrite ?append_empty_r; reflexivity.
Qed.

(** C10. For height 0 [aircraft] labels the contact "+0" and
    [modesaircraft] labels it "-0" (each followed by the same trend arrow,
    if any); for every other height the two labels are the same text, so
    they carry the same sign. *)
Theorem height_zero_sign_differs (vspeed : R) :
  aircraft_label 0 0 = "+0" /\
  modesaircraft_label 0 0 = "-0" /\
  aircraft_label 0 vspeed = ("+0" ++ trend_arrow vspeed)%string /\
  modesaircraft_label 0 vspeed = ("-0" ++ trend_arrow vspeed)%string /\
  forall height : Z,
    height <> 0%Z ->
    aircraft_label height vspeed = modesaircraft_label height vspeed.
Proof.
  rewrite !aircraft_label_eq, !modesaircraft_label_eq.
  assert (H0 : trend_arrow 0 = "").
  { unfold trend_arrow.
    destruct (Rgt_dec 0 0); [lra |]. destruct (Rlt_dec 0 0); [lra | reflexivity]. }
  rewrite H0. repeat split.
  intros height Hh.
  rewrite !aircraft_label_eq, !modesaircraft_label_eq.
  replace (height >=? 0)%Z with (height >? 0)%Z by lia.
  reflexivity.
Qed.

Lemma aircraft_run (x y direction : R) (height : Z) (vspeed nspeed_length : R)
  (tail : option string) (s : state) :
  let gx := 9 / 10 * x in
  let gy := 9 / 10 * y in
  let at_ := fun p : Z * Z => (gx + IZR (fst p), gy + IZR (snd p)) in
  let p1 := posn (270 + direction) (2 * AIRCRAFT_SIZE) in
  let t := aircraft_label height vspeed in
  let tsize := textlength t largefont in
  let tposition := aircraft_tposition gx gy tsize in
  aircraft x y direction height vspeed nspeed_length tail s =
  Returns tt
    (State
       (surface s ++
        [Polygon [at_ p1;
                  at_ (posn (270 + direction + 150) (4 * AIRCRAFT_SIZE));
                  at_ (posn (270 + direction + 180) (2 * AIRCRAFT_SIZE));
                  at_ (posn (270 + direction + 210) (4 * AIRCRAFT_SIZE))]
           "red" (Some "white");
         Line [at_ p1; at_ (posn (270 + direction) nspeed_length)] "white" 1;
         Rectangle tposition (fst tposition + tsize, snd tposition + LARGE)
           (Some "black") None;
         Text tposition t largefont "white"] ++
        match tail with
        | Some tl => [Text (fst tposition, snd tposition + LARGE) tl
                        verysmallfont "white"]
        | None => []
        end)
       (mask s)).
Proof.
  intros. unfold aircraft. run_emits.
  destruct tail as [tl |].
  - unfold emit. settle_surface. reflexivity.
  - unfold ret. settle_surface. reflexivity.
Qed.

Lemma aircraft_tposition_eq (gx gy tsize : R) :
  aircraft_tposition gx gy tsize =
  (if Rgt_dec (gx + tsize + 14) sizex then gx - 16 - tsize else gx + 17,
   IZR (py_int (gy - LARGE / 2))).
Proof.
  unfold aircraft_tposition, AIRCRAFT_SIZE.
  destruct (Rgt_dec (tsize + gx + 4 * 4 - 2) sizex) as [H | H];
    destruct (Rgt_dec (gx + tsize + 14) sizex) as [H' | H']; try lra;
    f_equal; lra.
Qed.

(** C9 (amended). [aircraft] draws the label exactly once, as a background
    rectangle and a text at one anchor.  With [gx] the glyph's x position
    (0.9 times the argument) and [tsize] the measured label width, the
    anchor's x is [gx - 16 - tsize] (left of the glyph) when
    [gx + tsize + 14 > sizex], and [gx + 17] (right of the glyph) otherwise:
    the threshold uses the offset [4 * AIRCRAFT_SIZE - 2 = 14], the left
    placement the offset [4 * AIRCRAFT_SIZE = 16]. *)
Theorem aircraft_label_placement (x y direction : R) (height : Z)
  (vspeed nspeed_length : R) (tail : option string) (s : state) :
  let gx := 9 / 10 * x in
  let gy := 9 / 10 * y in
  let t := aircraft_label height vspeed in
  let tsize := textlength t largefont in
  let anchor_x :=
    if Rgt_dec (gx + tsize + 14) sizex then gx - 16 - tsize else gx + 17 in
  let anchor_y := IZR (py_int (gy - LARGE / 2)) in
  exists glyph : list prim,
    List.length glyph = 2%nat /\
    (forall p, In p glyph -> forall xy tx f c, p <> Text xy tx f c) /\
    aircraft x y direction height vspeed nspeed_length tail s =
    Returns tt
      (State
         (surface s ++ glyph ++
          [Rectangle (anchor_x, anchor_y) (anchor_x + tsize, anchor_y + LARGE)
             (Some "black") None;
           Text (anchor_x, anchor_y) t largefont "white"] ++
          match tail with
          | Some tl => [Text (anchor_x, anchor_y + LARGE) tl verysmallfont "white"]
          | None => []
          end)
         (mask s)).
Proof.
  intros.
  pose proof (aircraft_run x y direction height vspeed nspeed_length tail s) as Hrun.
  cbv zeta in Hrun. rewrite aircraft_tposition_eq in Hrun. cbn [fst snd] in Hrun.
  eexists [_; _]. split; [reflexivity |]. split.
  2:{ rewrite Hrun. reflexivity. }
  intros p [<- | [<- | []]]; discriminate.
Qed.

(** ** Capacity bar *)

Lemma bar_color_sentinel (val yellow : R) : bar_color val yellow 0 = "DimGray".
Proof.
  unfold bar_color. destruct (Req_dec_T 0 0) as [_ | H]; [reflexivity | lra].
Qed.

Lemma bar_xval_run (val max_val minval : R) (s : state) :
  bar_xval val max_val minval s =
  Returns
    (if Req_dec_T max_val 0 then bar_start
     else bar_start + (bar_end - bar_start)
                      * (if Rlt_dec val minval then minval else val) / max_val)
    s.
Proof.
  unfold bar_xval. destruct (Req_dec_T max_val 0) as [H0 | Hn0]; [reflexivity |].
  erewrite bind_returns by (apply pydiv_nonzero; exact Hn0). reflexivity.
Qed.

(** The division in [bar] is guarded: the call returns for every input. *)
Lemma bar_run (y : R) (text : string) (val max_val yellow red : R)
  (unit : string) (valtext : option string) (minval : R) (s : state) :
  let right_val := (str_int (py_int max_val) ++ unit)%string in
  let shown := if Rlt_dec val minval then minval else val in
  let xval := if Req_dec_T max_val 0 then bar_start
              else bar_start + (bar_end - bar_start) * shown / max_val in
  let t := match valtext with Some v => v | None => str_num shown end in
  bar y text val max_val yellow red unit valtext minval s =
  Returns (y + VERYSMALL + 5)
    (State
       (surface s ++
        [Text (0, y) text verysmallfont "white";
         Text (sizex - textlength right_val verysmallfont, y) right_val
           verysmallfont "white";
         RoundedRectangle (bar_start - 2, y - 2) (bar_end + 2, y + VERYSMALL + 2)
           3 None (Some "white");
         Rectangle (bar_start, y) (xval, y + VERYSMALL)
           (Some (bar_color val yellow red)) None;
         Text ((bar_end - bar_start) / 2 + bar_start
               - textlength t verysmallfont / 2, y) t verysmallfont "white"])
       (mask s)).
Proof.
  intros. unfold bar. run_emits.
  erewrite bind_returns by apply bar_xval_run.
  run_emits. unfold ret. reflexivity.
Qed.

(** The fill is linear in the value: above a positive [max_val] it runs
    past [bar_end]. *)
Lemma bar_fill_exceeds_bar_end (val max_val minval : R) (s : state) :
  0 < max_val -> max_val < val -> minval <= val ->
  exists xval, bar_xval val max_val minval s = Returns xval s /\ bar_end < xval.
Proof.
  intros Hmax Hval Hmin. rewrite bar_xval_run. eexists. split; [reflexivity |].
  destruct (Req_dec_T max_val 0) as [H0 | _]; [lra |].
  destruct (Rlt_dec val minval) as [Hlt | _]; [lra |].
  unfold bar_start, bar_end.
  assert (1 < val / max_val).
  { apply Rmult_lt_reg_r with max_val; [exact Hmax |].
    unfold Rdiv. rewrite Rmult_assoc, Rinv_l by lra. lra. }
  unfold Rdiv in *. rewrite Rmult_assoc. nra.
Qed.

(** C4 (amended).  For [bar(val=150, max_val=100, yellow=50, red=0)] the
    fill colour is the neutral "DimGray" ([red = 0] overrides the
    thresholds for every value), and the filled rectangle runs from
    [bar_start = 60] to x = 330, that is [bar_start + (bar_end - bar_start)
    * 150 / 100]: the width is linear in the value and is not cut off at
    [bar_end = 240]. *)
Theorem bar_over_range_with_red_sentinel (y : R) (text unit : string)
  (valtext : option string) (s : state) :
  (forall val yellow, bar_color val yellow 0 = "DimGray") /\
  bar y text 150 100 50 0 unit valtext 0 s =
  Returns (y + VERYSMALL + 5)
    (State
       (surface s ++
        [Text (0, y) text verysmallfont "white";
         Text (sizex - textlength ("100" ++ unit)%string verysmallfont, y)
           ("100" ++ unit)%string verysmallfont "white";
         RoundedRectangle (bar_start - 2, y - 2) (bar_end + 2, y + VERYSMALL + 2)
           3 None (Some "white");
         Rectangle (bar_start, y) (330, y + VERYSMALL) (Some "DimGray") None;
         Text ((bar_end - bar_start) / 2 + bar_start
               - textlength (match valtext with
                             | Some v => v
                             | None => str_num 150
                             end) verysmallfont / 2, y)
           (match valtext with Some v => v | None => str_num 150 end)
           verysmallfont "white"])
       (mask s)) /\
  bar_end < 330.
Proof.
  split; [apply bar_color_sentinel |]. split; [| unfold bar_end; lra].
  rewrite bar_run. rewrite bar_color_sentinel.
  rewrite py_int_IZR.
  destruct (Rlt_dec 150 0) as [H | _]; [lra |].
  destruct (Req_dec_T 100 0) as [H | _]; [lra |].
  replace (bar_start + (bar_end - bar_start) * 150 / 100) with 330
    by (unfold bar_start, bar_end; lra).
  reflexivity.
Qed.

(** ** Time-series graph *)

Lemma graph_sample_y_run (ypos ysize minvalue maxvalue d : R) (s : state) :
  maxvalue <> minvalue ->
  graph_sample_y ypos ysize minvalue maxvalue d s =
  Returns
    (let y := ypos - 1 + ysize - ysize * (d - minvalue) / (maxvalue - minvalue) in
     if Rlt_dec y ypos then ypos else y)
    s.
Proof.
  intros Hdom. unfold graph_sample_y.
  erewrite bind_returns by (apply pydiv_nonzero; lra). reflexivity.
Qed.

Lemma scaled_fraction_bounds (ysize minvalue maxvalue d : R) :
  minvalue < maxvalue -> 0 < ysize ->
  (d < minvalue -> ysize * (d - minvalue) / (maxvalue - minvalue) < 0) /\
  (minvalue <= d -> 0 <= ysize * (d - minvalue) / (maxvalue - minvalue)) /\
  (maxvalue < d -> ysize < ysize * (d - minvalue) / (maxvalue - minvalue)).
Proof.
  intros Hdom Hsize.
  assert (Hinv : 0 < / (maxvalue - minvalue)) by (apply Rinv_0_lt_compat; lra).
  assert (Hone : (maxvalue - minvalue) * / (maxvalue - minvalue) = 1)
    by (apply Rinv_r; lra).
  unfold Rdiv. repeat split; intros Hd.
  - assert (ysize * (d - minvalue) < 0) by nra. nra.
  - assert (0 <= ysize * (d - minvalue)) by nra. nra.
  - assert (ysize * (maxvalue - minvalue) < ysize * (d - minvalue)) by nra.
    assert (ysize * (maxvalue - minvalue) * / (maxvalue - minvalue)
            < ysize * (d - minvalue) * / (maxvalue - minvalue))
      by (apply Rmult_lt_compat_r; assumption).
    rewrite Rmult_assoc, Hone in H0. lra.
Qed.

(** Samples above [maxvalue] are drawn on the top edge of the box. *)
Lemma graph_sample_y_above (ypos ysize minvalue maxvalue d : R) (s : state) :
  minvalue < maxvalue -> 0 < ysize -> maxvalue < d ->
  graph_sample_y ypos ysize minvalue maxvalue d s = Returns ypos s.
Proof.
  intros Hdom Hsize Hd. rewrite graph_sample_y_run by lra. cbv zeta.
  destruct (scaled_fraction_bounds ysize minvalue maxvalue d Hdom Hsize)
    as (_ & _ & Hhi).
  specialize (Hhi Hd).
  destruct (Rlt_dec _ ypos) as [_ | H]; [reflexivity | lra].
Qed.

(** Samples inside the domain are drawn inside the box. *)
Lemma graph_sample_y_inside (ypos ysize minvalue maxvalue d : R) (s : state) :
  minvalue < maxvalue -> 1 <= ysize -> minvalue <= d ->
  exists y, graph_sample_y ypos ysize minvalue maxvalue d s = Returns y s /\
            ypos <= y <= ypos + ysize - 1.
Proof.
  intros Hdom Hsize Hd. rewrite graph_sample_y_run by lra. cbv zeta.
  eexists. split; [reflexivity |].
  destruct (scaled_fraction_bounds ysize minvalue maxvalue d Hdom) as (_ & Hlo & _);
    [lra |].
  specialize (Hlo Hd).
  destruct (Rlt_dec _ ypos) as [H | H]; lra.
Qed.

(** Samples below [minvalue] keep a y below the bottom edge: the second
    guard (line 842) assigns [x], which the next statement overwrites. *)
Lemma graph_sample_y_below (ypos ysize minvalue maxvalue d : R) (s : state) :
  minvalue < maxvalue -> 0 < ysize -> d < minvalue ->
  exists y, graph_sample_y ypos ysize minvalue maxvalue d s = Returns y s /\
            ypos + ysize - 1 < y.
Proof.
  intros Hdom Hsize Hd. rewrite graph_sample_y_run by lra. cbv zeta.
  eexists. split; [reflexivity |].
  destruct (scaled_fraction_bounds ysize minvalue maxvalue d Hdom Hsize)
    as (Hlo & _ & _).
  specialize (Hlo Hd).
  destruct (Rlt_dec _ ypos) as [H | H]; lra.
Qed.

(** What one iteration of the sample loop does, for the second and later
    samples: the incoming [x] is irrelevant, and the segment ends at the
    y of [graph_sample_y]. *)
Lemma graph_sample_run (xpos ypos xsize ysize minvalue maxvalue : R)
  (data : list R) (i : nat) (x : R) (lp : point) (s : state) :
  maxvalue <> minvalue -> (1 <= i)%nat -> (2 <= List.length data)%nat ->
  let y0 := ypos - 1 + ysize
            - ysize * (nth i data 0 - minvalue) / (maxvalue - minvalue) in
  let y := if Rlt_dec y0 ypos then ypos else y0 in
  let x' := xpos + INR i * xsize / IZR (Z.of_nat (List.length data) - 1) in
  graph_sample xpos ypos xsize ysize minvalue maxvalue data i (x, Some lp) s =
  Returns (x', Some (x', y))
    (State (surface s ++ [Line [lp; (x', y)] "cyan" 2]) (mask s)).
Proof.
  intros Hdom Hi Hlen. cbv zeta. unfold graph_sample.
  erewrite bind_returns by (apply graph_sample_y_run; exact Hdom).
  cbv zeta. cbn [fst snd].
  replace (1 <=? i)%nat with true by (symmetry; apply Nat.leb_le; exact Hi).
  erewrite bind_returns.
  2:{ apply pydiv_nonzero. apply not_0_IZR. lia. }
  run_emits. reflexivity.
Qed.

Lemma graph_first_sample_run (xpos ypos xsize ysize minvalue maxvalue : R)
  (data : list R) (vars : R * option point) (s : state) :
  maxvalue <> minvalue ->
  let y0 := ypos - 1 + ysize
            - ysize * (nth 0 data 0 - minvalue) / (maxvalue - minvalue) in
  let y := if Rlt_dec y0 ypos then ypos else y0 in
  graph_sample xpos ypos xsize ysize minvalue maxvalue data 0 vars s =
  Returns (xpos, Some (xpos, y)) s.
Proof.
  intros Hdom. cbv zeta. unfold graph_sample.
  erewrite bind_returns by (apply graph_sample_y_run; exact Hdom).
  reflexivity.
Qed.

(** With the plot box at [ypos = 9], [ysize = 82] (bottom edge y = 90) and
    the domain 0..120, the sample loop on [data = [-12; -12]] draws its
    segment at y = 98.2, below the box. *)
Lemma graph_sample_loop_below_minvalue (x : R) (s : state) :
  for_fold (seq 0 2) (x, None) (graph_sample 33 9 167 82 0 120 [-12; -12]) s =
  Returns (200, Some (200, 491 / 5))
    (State (surface s ++ [Line [(33, 491 / 5); (200, 491 / 5)] "cyan" 2]) (mask s))
  /\ 9 + 82 - 1 < 491 / 5.
Proof.
  split; [| lra].
  cbn [seq for_fold].
  erewrite bind_returns by (apply graph_first_sample_run; lra).
  erewrite bind_returns.
  2:{ apply graph_sample_run; cbn [List.length]; try lra; lia. }
  unfold ret. cbn [nth List.length].
  destruct (Rlt_dec (9 - 1 + 82 - 82 * (-12 - 0) / (120 - 0)) 9) as [H | _]; [lra |].
  replace (9 - 1 + 82 - 82 * (-12 - 0) / (120 - 0)) with (491 / 5) by lra.
  replace (33 + INR 1 * 167 / IZR (Z.of_nat 2 - 1)) with 200
    by (cbn [INR Z.of_nat Pos.of_succ_nat Pos.succ Z.sub Z.add Z.opp Z.pos_sub
             Pos.pred_double]; lra).
  reflexivity.
Qed.

(** ** Loops *)

Lemma while_le_mark_values (fuel : nat) (m end_value step : R) (l : list R) :
  mark_values fuel m end_value step = Some l ->
  forall (body : R -> M unit) (s : state),
    while_le fuel m end_value step body s = for_each l body s.
Proof.
  revert m l. induction fuel as [| fuel IH]; intros m l Hl body s.
  - discriminate.
  - cbn [mark_values] in Hl. cbn [while_le].
    destruct (Rle_dec m end_value) as [Hle | Hgt].
    + destruct (mark_values fuel (m + step) end_value step) as [l' |] eqn:E;
        [| discriminate].
      cbn in Hl. injection Hl as <-. cbn [for_each].
      unfold bind. destruct (body m s); try reflexivity.
      apply IH. exact E.
    + injection Hl as <-. reflexivity.
Qed.

Lemma mark_values_more_fuel (fuel : nat) (m end_value step : R) (l : list R) :
  mark_values fuel m end_value step = Some l ->
  mark_values (S fuel) m end_value step = Some l.
Proof.
  revert m l. induction fuel as [| fuel IH]; intros m l Hl.
  - discriminate.
  - cbn [mark_values] in Hl. change (mark_values (S (S fuel)) m end_value step)
      with (if Rle_dec m end_value
            then option_map (cons m) (mark_values (S fuel) (m + step) end_value step)
            else Some []).
    destruct (Rle_dec m end_value) as [Hle | Hgt]; [| exact Hl].
    destruct (mark_values fuel (m + step) end_value step) as [l' |] eqn:E;
      [| discriminate].
    rewrite (IH _ _ E). exact Hl.
Qed.

(** The loop visits [m], [m + step], ... as long as the value is at most
    [end_value]. *)
Lemma mark_values_spec (step end_value : R) (n : nat) :
  0 < step ->
  forall m : R,
    end_value < m + INR n * step ->
    exists l, mark_values (S n) m end_value step = Some l /\
              forall v, In v l <->
                        exists k : nat, v = m + INR k * step /\ v <= end_value.
Proof.
  intros Hstep. induction n as [| n IH]; intros m Hn.
  - cbn [INR] in Hn. exists []. cbn [mark_values].
    destruct (Rle_dec m end_value) as [Hle | _]; [lra |].
    split; [reflexivity |]. intros v. split; [intros [] |].
    intros (k & -> & Hk). pose proof (pos_INR k) as Hpos. nra.
  - rewrite S_INR in Hn.
    change (mark_values (S (S n)) m end_value step)
      with (if Rle_dec m end_value
            then option_map (cons m) (mark_values (S n) (m + step) end_value step)
            else Some []).
    destruct (Rle_dec m end_value) as [Hle | Hgt].
    + destruct (IH (m + step)) as (l & Hl & Hin); [lra |].
      rewrite Hl. exists (m :: l). split; [reflexivity |].
      intros v. cbn [In]. rewrite Hin. split.
      * intros [<- | (k & -> & Hk)].
        -- exists 0%nat. cbn [INR]. split; [ring | exact Hle].
        -- exists (S k). rewrite S_INR. split; [ring | exact Hk].
      * intros (k & -> & Hk). destruct k as [| k].
        -- left. cbn [INR]. ring.
        -- right. exists k. rewrite S_INR in *. split; [ring | lra].
    + exists []. split; [reflexivity |]. intros v. split; [intros [] |].
      intros (k & -> & Hk). pose proof (pos_INR k) as Hpos. nra.
Qed.

Lemma enough_steps (m end_value step : R) :
  0 < step -> exists n : nat, end_value < m + INR n * step.
Proof.
  intros Hstep.
  destruct (archimed ((end_value - m) / step)) as [Hup _].
  exists (Z.to_nat (up ((end_value - m) / step))).
  assert (Hq : end_value - m = (end_value - m) / step * step) by (field; lra).
  destruct (Z_le_gt_dec (up ((end_value - m) / step)) 0) as [Hneg | Hpos].
  - replace (Z.to_nat _) with 0%nat by lia. cbn [INR].
    apply IZR_le in Hneg. nra.
  - rewrite INR_IZR_INZ, Z2Nat.id by lia. nra.
Qed.

(** With a positive step each [while] loop of [meter] terminates. *)
Lemma while_le_terminates (m end_value step : R) :
  0 < step ->
  exists fuel l,
    mark_values fuel m end_value step = Some l /\
    forall v, In v l <-> exists k : nat, v = m + INR k * step /\ v <= end_value.
Proof.
  intros Hstep. destruct (enough_steps m end_value step Hstep) as (n & Hn).
  destruct (mark_values_spec step end_value n Hstep m Hn) as (l & Hl & Hin).
  exists (S n), l. split; assumption.
Qed.

Lemma for_each_emits {B} (f : B -> list prim) (body : B -> M unit) :
  (forall b s, body b s = Returns tt (State (surface s ++ f b) (mask s))) ->
  forall l s,
    for_each l body s = Returns tt (State (surface s ++ flat_map f l) (mask s)).
Proof.
  intros Hbody. induction l as [| b l IH]; intros s.
  - cbn. rewrite app_nil_r, state_eta. reflexivity.
  - cbn [for_each flat_map]. erewrite bind_returns by apply Hbody.
    rewrite IH. settle_surface. reflexivity.
Qed.

(** ** Generic radial gauge *)

(** The drawing calls of one small and of one large mark. *)
Lemma small_mark_run (dpv start_value from_degree size cx cy m : R) (s : state) :
  small_mark dpv start_value from_degree size cx cy m s =
  Returns tt
    (State
       (surface s ++
        [Line (map to_point
                 (translate (dpv * (m - start_value) + from_degree)
                    [(0, - size / 2); (0, - size / 2 + 7)] (cx, cy)))
           "white" 1])
       (mask s)).
Proof. reflexivity. Qed.

Lemma large_mark_run (dpv start_value from_degree size cx cy m : R) (s : state) :
  exists tick label,
    large_mark dpv start_value from_degree size cx cy m s =
    Returns tt (State (surface s ++ [Line tick "white" 2; label]) (mask s)) /\
    tick = map to_point
             (translate (dpv * (m - start_value) + from_degree)
                [(0, - size / 2); (0, - size / 2 + 14)] (cx, cy)) /\
    exists xy, label = Text xy (str_num m) largefont "white".
Proof.
  do 2 eexists. split; [| split; [reflexivity | eexists; reflexivity]].
  unfold large_mark. run_emits. unfold emit. settle_surface. reflexivity.
Qed.

Lemma meter_zero_domain (fuel : nat) (current v from_degree to_degree size cx cy
                         marks_distance small_marks_distance : R)
  (middle_text1 middle_text2 : option string) (s : state) :
  meter fuel current v v from_degree to_degree size cx cy marks_distance
    small_marks_distance middle_text1 middle_text2 s
  = Raises ZeroDivisionError s.
Proof.
  unfold meter. apply bind_raises.
  replace (v - v) with 0 by ring. apply pydiv_zero.
Qed.

Lemma graph_zero_domain (xpos ypos xsize ysize : R) (data : list R)
  (v value_line1 value_line2 timeout : R) (s : state) :
  exists label,
    graph xpos ypos xsize ysize data v v value_line1 value_line2 timeout s
    = Raises ZeroDivisionError (State (surface s ++ [label]) (mask s)) /\
    exists xy, label = Text xy (str_num v) verysmallfont "white".
Proof.
  eexists. split; [| eexists; reflexivity].
  unfold graph. run_emits. apply bind_raises.
  replace (v - v) with 0 by ring. apply pydiv_zero.
Qed.

(** C2 (amended).  A zero-length domain makes the renderer raise
    [ZeroDivisionError]: the division by the domain length is not guarded.
    [meter] with [end_value = start_value] raises at line 360, before it
    draws anything; [graph] with [maxvalue = minvalue] raises at line 808,
    after it has drawn the label of [minvalue]. *)
Theorem zero_length_domain_raises :
  (forall fuel current v from_degree to_degree size cx cy marks_distance
          small_marks_distance middle_text1 middle_text2 s,
      meter fuel current v v from_degree to_degree size cx cy marks_distance
        small_marks_distance middle_text1 middle_text2 s
      = Raises ZeroDivisionError s) /\
  (forall xpos ypos xsize ysize data v value_line1 value_line2 timeout s,
      exists label,
        graph xpos ypos xsize ysize data v v value_line1 value_line2 timeout s
        = Raises ZeroDivisionError (State (surface s ++ [label]) (mask s)) /\
        exists xy, label = Text xy (str_num v) verysmallfont "white").
Proof.
  split.
  - intros. apply meter_zero_domain.
  - intros. apply graph_zero_domain.
Qed.

(** On a domain of non-zero length, with positive spacings, [meter]
    returns once it is given enough fuel, and draws: the arc, one small
    mark per visited value, a tick and a label per visited major value,
    the needle at [needle_angle], the hub, and the captions. *)
Lemma meter_returns (current start_value end_value from_degree to_degree size
                     cx cy marks_distance small_marks_distance : R)
  (middle_text1 middle_text2 : option string) :
  end_value <> start_value -> 0 < marks_distance -> 0 < small_marks_distance ->
  exists fuel smalls larges,
    mark_values fuel start_value end_value small_marks_distance = Some smalls /\
    mark_values fuel start_value end_value marks_distance = Some larges /\
    forall s, exists marks captions,
      meter fuel current start_value end_value from_degree to_degree size cx cy
        marks_distance small_marks_distance middle_text1 middle_text2 s =
      Returns tt
        (State
           (surface s ++
            [Arc (cx - size / 2, cy - size / 2) (cx + size / 2, cy + size / 2)
               (from_degree - 90) (to_degree - 90) "white" 2] ++
            marks ++
            [Line (map to_point
                     (translate
                        (needle_angle
                           ((to_degree - from_degree) / (end_value - start_value))
                           current start_value end_value from_degree)
                        (arrow size) (cx, cy)))
               "white" 1;
             Ellipse (cx - 5, cy - 5) (cx + 5, cy + 5) (Some "white") None 1] ++
            captions)
           (mask s)) /\
      List.length marks = (List.length smalls + 2 * List.length larges)%nat.
Proof.
  intros Hdom Hbig Hsmall.
  destruct (while_le_terminates start_value end_value small_marks_distance Hsmall)
    as (f1 & smalls & Hs & _).
  destruct (while_le_terminates start_value end_value marks_distance Hbig)
    as (f2 & larges & Hl & _).
  assert (Hmore : forall st l n f,
             mark_values f start_value end_value st = Some l ->
             mark_values (n + f) start_value end_value st = Some l).
  { intros st l n f H. induction n as [| n IHn]; [exact H |].
    cbn [Nat.add]. apply mark_values_more_fuel. exact IHn. }
  exists (f1 + f2)%nat, smalls, larges.
  split; [rewrite Nat.add_comm; apply Hmore; exact Hs |].
  split; [apply Hmore; exact Hl |].
  intros s.
  set (dpv := (to_degree - from_degree) / (end_value - start_value)).
  set (big := fun m =>
                [Line (map to_point
                         (translate (dpv * (m - start_value) + from_degree)
                            [(0, - size / 2); (0, - size / 2 + 14)] (cx, cy)))
                   "white" 2;
                 Text (fst (to_point (nth 0 (translate
                         (dpv * (m - start_value) + from_degree)
                         [(0, - size / 2 + 14 + LARGE / 2 + 7)] (cx, cy))
                         (0%Z, 0%Z))) - textlength (str_num m) largefont / 2,
                       snd (to_point (nth 0 (translate
                         (dpv * (m - start_value) + from_degree)
                         [(0, - size / 2 + 14 + LARGE / 2 + 7)] (cx, cy))
                         (0%Z, 0%Z))) - LARGE / 2)
                   (str_num m) largefont "white"]).
  set (small := fun m =>
                  [Line (map to_point
                           (translate (dpv * (m - start_value) + from_degree)
                              [(0, - size / 2); (0, - size / 2 + 7)] (cx, cy)))
                     "white" 1]).
  exists (flat_map small smalls ++ flat_map big larges).
  exists (match middle_text1 with
          | Some mt => [Text (cx - textlength mt smallfont / 2, cy - SMALL - 15)
                          mt smallfont "yellow"]
          | None => []
          end ++
          match middle_text2 with
          | Some mt => [Text (cx - textlength mt smallfont / 2, cy + 15)
                          mt smallfont "yellow"]
          | None => []
          end).
  split.
  - unfold meter.
    erewrite bind_returns by (apply pydiv_nonzero; lra).
    fold dpv. run_emits.
    erewrite bind_returns.
    2:{ rewrite (while_le_mark_values _ _ _ _ smalls)
          by (rewrite Nat.add_comm; apply Hmore; exact Hs).
        apply (for_each_emits small). intros b s0. apply small_mark_run. }
    erewrite bind_returns.
    2:{ rewrite (while_le_mark_values _ _ _ _ larges) by (apply Hmore; exact Hl).
        apply (for_each_emits big). intros b s0.
        unfold large_mark. run_emits. unfold emit. settle_surface. reflexivity. }
    run_emits.
    destruct middle_text1 as [m1 |]; destruct middle_text2 as [m2 |];
      unfold bind, emit, ret; settle_surface; reflexivity.
  - rewrite length_app.
    assert (Hsm : forall l, List.length (flat_map small l) = List.length l).
    { induction l as [| a l IHl]; cbn; [reflexivity | now rewrite IHl]. }
    assert (Hbg : forall l, List.length (flat_map big l) = (2 * List.length l)%nat).
    { induction l as [| a l IHl]; [reflexivity |].
      cbn [flat_map]. unfold big at 1. cbn [app List.length]. rewrite IHl. lia. }
    rewrite Hsm, Hbg. reflexivity.
Qed.

(** On integers the exact loop is the loop Python runs. *)
Lemma mark_values_of_int (fuel : nat) (m end_value step : Z) :
  mark_values fuel (IZR m) (IZR end_value) (IZR step)
  = option_map (map IZR) (tick_values_int fuel m end_value step).
Proof.
  revert m. induction fuel as [| fuel IH]; intros m; [reflexivity |].
  cbn [mark_values tick_values_int].
  destruct (Rle_dec (IZR m) (IZR end_value)) as [Hle | Hgt];
    destruct (Z.leb_spec m end_value) as [Hz | Hz].
  - rewrite <- plus_IZR, IH.
    destruct (tick_values_int fuel (m + step) end_value step); reflexivity.
  - apply le_IZR in Hle. lia.
  - exfalso. apply Hgt. apply IZR_le. exact Hz.
  - reflexivity.
Qed.

Lemma tick_values_int_run (step end_value : Z) (n : nat) :
  (0 < step)%Z ->
  forall m : Z,
    (m + Z.of_nat n * step <= end_value < m + (Z.of_nat n + 1) * step)%Z ->
    tick_values_int (S (S n)) m end_value step
    = Some (map (fun k => (m + Z.of_nat k * step)%Z) (seq 0 (S n))).
Proof.
  intros Hstep. induction n as [| n IH]; intros m Hm.
  - cbn [tick_values_int].
    destruct (Z.leb_spec m end_value) as [_ | Hlt]; [| lia].
    destruct (Z.leb_spec (m + step) end_value) as [Hle | _]; [lia |].
    cbn. repeat f_equal. lia.
  - change (tick_values_int (S (S (S n))) m end_value step)
      with (if (m <=? end_value)%Z
            then option_map (cons m)
                   (tick_values_int (S (S n)) (m + step) end_value step)
            else Some []).
    destruct (Z.leb_spec m end_value) as [_ | Hlt]; [| lia].
    rewrite IH by lia.
    change (seq 0 (S (S n))) with (0%nat :: seq 1 (S n)).
    rewrite <- seq_shift, map_cons, map_map. cbn [option_map].
    f_equal. f_equal; [lia |].
    apply map_ext. intros k. lia.
Qed.

(** C3 (amended).  The mark loops of [meter] are
    [while m <= end_value: ...; m += spacing]: inclusive of [end_value],
    with no tolerance and no extra mark at the boundary.  For integers
    [start_value < end_value] and a positive integer spacing the loop
    stops after [(end_value - start_value) / spacing + 1] marks, at
    [start_value + k * spacing], and [end_value] has a mark exactly when
    the spacing divides the domain.  On floats the same holds when the
    sums are exact, as for the small marks of [gmeter] (-3 to 5 by 0.25:
    33 marks, the last at 5); when they are not, a spacing that divides
    the domain can still miss the boundary: from 0 to 0.3 by 0.1 the
    marks are 0, 0.1 and 0.2, because 0.1 + 0.1 + 0.1 exceeds 0.3. *)
Theorem meter_marks_inclusive_without_tolerance :
  (forall start_value end_value spacing : Z,
      (start_value < end_value)%Z -> (0 < spacing)%Z ->
      let last := Z.to_nat ((end_value - start_value) / spacing) in
      let marks :=
        map (fun k => (start_value + Z.of_nat k * spacing)%Z) (seq 0 (S last)) in
      tick_values_int (S (S last)) start_value end_value spacing = Some marks /\
      (forall body s,
          while_le (S (S last)) (IZR start_value) (IZR end_value) (IZR spacing)
            body s
          = for_each (map IZR marks) body s) /\
      (In end_value marks <-> (spacing | end_value - start_value)%Z)) /\
  B64.tick_values 34 (-3) 5 0.25
  = Some (map (fun k => (-3 + 0.25 * k)%float) (B64.whole_numbers 0 33)) /\
  (-3 + 0.25 * B64.of_int 32 =? 5)%float = true /\
  B64.tick_values 5 0 0.3 0.1 = Some [0%float; 0.1%float; 0.2%float] /\
  (0.1 + 0.1 + 0.1 <=? 0.3)%float = false.
Proof.
  split; [| repeat split; vm_compute; reflexivity].
  intros start_value end_value spacing Hdom Hstep last marks.
  assert (Hq : (0 <= (end_value - start_value) / spacing)%Z)
    by (apply Z.div_pos; lia).
  assert (Hlast : Z.of_nat last = ((end_value - start_value) / spacing)%Z)
    by (unfold last; lia).
  pose proof (Z.div_mod (end_value - start_value) spacing ltac:(lia)) as Hdm.
  pose proof (Z.mod_pos_bound (end_value - start_value) spacing Hstep) as Hmod.
  assert (Hrun : tick_values_int (S (S last)) start_value end_value spacing
                 = Some marks).
  { apply tick_values_int_run; [exact Hstep |]. rewrite Hlast. nia. }
  split; [exact Hrun |]. split.
  - intros body s. apply while_le_mark_values.
    rewrite mark_values_of_int, Hrun. reflexivity.
  - unfold marks. rewrite in_map_iff. split.
    + intros (k & Hk & _). exists (Z.of_nat k). lia.
    + intros (q & Hq'). exists last. split.
      * rewrite Hlast, Hq', Z.div_mul by lia. lia.
      * apply in_seq. lia.
Qed.

Lemma normalize_current_lipschitz (start_value end_value x y : R) :
  start_value <= end_value ->
  Rabs (normalize_current x start_value end_value
        - normalize_current y start_value end_value) <= Rabs (x - y).
Proof.
  intros Hdom. unfold normalize_current.
  destruct (Rgt_dec x end_value); destruct (Rgt_dec y end_value);
    destruct (Rlt_dec x start_value); destruct (Rlt_dec y start_value);
    unfold Rabs; repeat destruct Rcase_abs; lra.
Qed.

Lemma normalize_current_monotone (start_value end_value x y : R) :
  start_value <= end_value -> x <= y ->
  normalize_current x start_value end_value
  <= normalize_current y start_value end_value.
Proof.
  intros Hdom Hxy. unfold normalize_current.
  destruct (Rgt_dec x end_value); destruct (Rgt_dec y end_value);
    destruct (Rlt_dec x start_value); destruct (Rlt_dec y start_value); lra.
Qed.

Lemma normalize_current_range (start_value end_value x : R) :
  start_value <= end_value ->
  start_value <= normalize_current x start_value end_value <= end_value.
Proof.
  intros Hdom. unfold normalize_current.
  destruct (Rgt_dec x end_value); destruct (Rlt_dec x start_value); lra.
Qed.

Lemma lipschitz_continuity (f : R -> R) (c : R) :
  (forall x y, Rabs (f x - f y) <= c * Rabs (x - y)) -> continuity f.
Proof.
  intros Hlip x0.
  assert (Hc : 0 <= c).
  { specialize (Hlip (x0 + 1) x0). replace (x0 + 1 - x0) with 1 in Hlip by ring.
    rewrite Rabs_R1 in Hlip. pose proof (Rabs_pos (f (x0 + 1) - f x0)). lra. }
  unfold continuity_pt, continue_in, limit1_in, limit_in.
  intros eps Heps. exists (eps / (c + 1)). split.
  - apply Rdiv_lt_0_compat; lra.
  - intros x [_ Hx]. cbn [dist R_met] in *. unfold R_dist in *.
    apply Rle_lt_trans with (c * Rabs (x - x0)); [apply Hlip |].
    assert (Hpos : 0 < c + 1) by lra.
    assert (Hq : eps / (c + 1) * (c + 1) = eps) by (field; lra).
    pose proof (Rabs_pos (x - x0)). nra.
Qed.

(** C5.  On a gauge with [start_value < end_value], the needle angle that
    [meter] draws, as a function of [current], is non-decreasing when
    [to_degree > from_degree] (and non-increasing when the angular domain
    is reversed), continuous on the whole real line, and saturating: below
    [start_value] it is the angle at [start_value], which is
    [from_degree], and above [end_value] it is the angle at [end_value],
    which is [to_degree]. *)
Theorem needle_angle_monotone_continuous_saturating
  (start_value end_value from_degree to_degree : R) :
  start_value < end_value ->
  let angle := fun current : R =>
    needle_angle ((to_degree - from_degree) / (end_value - start_value))
      current start_value end_value from_degree in
  (from_degree < to_degree -> forall x y, x <= y -> angle x <= angle y) /\
  (to_degree < from_degree -> forall x y, x <= y -> angle y <= angle x) /\
  continuity angle /\
  (forall x, x < start_value -> angle x = angle start_value) /\
  (forall x, end_value < x -> angle x = angle end_value) /\
  angle start_value = from_degree /\
  angle end_value = to_degree.
Proof.
  intros Hdom angle.
  set (dpv := (to_degree - from_degree) / (end_value - start_value)) in *.
  assert (Hinv : 0 < / (end_value - start_value)) by (apply Rinv_0_lt_compat; lra).
  assert (Hstart : normalize_current start_value start_value end_value = start_value).
  { unfold normalize_current.
    destruct (Rgt_dec start_value end_value); [lra |].
    destruct (Rlt_dec start_value start_value); [lra | reflexivity]. }
  assert (Hend : normalize_current end_value start_value end_value = end_value).
  { unfold normalize_current.
    destruct (Rgt_dec end_value end_value); [lra |].
    destruct (Rlt_dec end_value start_value); [lra | reflexivity]. }
  repeat split.
  - intros Hdeg x y Hxy. unfold angle, needle_angle. cbv zeta.
    pose proof (normalize_current_monotone start_value end_value x y) as Hm.
    assert (0 < dpv) by (unfold dpv, Rdiv; apply Rmult_lt_0_compat; lra).
    assert (normalize_current x start_value end_value
            <= normalize_current y start_value end_value) by (apply Hm; lra).
    nra.
  - intros Hdeg x y Hxy. unfold angle, needle_angle. cbv zeta.
    pose proof (normalize_current_monotone start_value end_value x y) as Hm.
    assert (0 < - dpv).
    { unfold dpv, Rdiv.
      replace (- ((to_degree - from_degree) * / (end_value - start_value)))
        with ((from_degree - to_degree) * / (end_value - start_value)) by ring.
      apply Rmult_lt_0_compat; lra. }
    assert (normalize_current x start_value end_value
            <= normalize_current y start_value end_value) by (apply Hm; lra).
    nra.
  - apply lipschitz_continuity with (c := Rabs dpv).
    intros x y. unfold angle, needle_angle. cbv zeta.
    replace (dpv * (normalize_current x start_value end_value - start_value)
             + from_degree
             - (dpv * (normalize_current y start_value end_value - start_value)
                + from_degree))
      with (dpv * (normalize_current x start_value end_value
                   - normalize_current y start_value end_value)) by ring.
    rewrite Rabs_mult. apply Rmult_le_compat_l; [apply Rabs_pos |].
    apply normalize_current_lipschitz. lra.
  - intros x Hx. unfold angle, needle_angle. cbv zeta. rewrite Hstart.
    unfold normalize_current.
    destruct (Rgt_dec x end_value); [lra |].
    destruct (Rlt_dec x start_value); [reflexivity | lra].
  - intros x Hx. unfold angle, needle_angle. cbv zeta. rewrite Hend.
    unfold normalize_current.
    destruct (Rgt_dec x end_value); [reflexivity | lra].
  - unfold angle, needle_angle. cbv zeta. rewrite Hstart. ring.
  - unfold angle, needle_angle. cbv zeta. rewrite Hend. unfold dpv. field. lra.
Qed.

(** ** Compass rose *)

Lemma compass_step_short (heading : R) (m : Z) (s : state) :
  (m mod 30 <> 0)%Z ->
  exists tick,
    compass_step heading m s = Returns tt (State (surface s ++ [tick]) (mask s)).
Proof.
  intros Hm. unfold compass_step.
  replace (m mod 30 =? 0)%Z with false by (symmetry; apply Z.eqb_neq; exact Hm).
  cbn [negb]. eexists. reflexivity.
Qed.

Lemma compass_step_long (heading : R) (m : Z) (s : state) :
  (m mod 30 = 0)%Z ->
  let mark := fst (compass_mark m) in
  let glyph := Glyph ((LARGE * 2 - textlength mark largefont) / 2,
                      (LARGE * 2 - LARGE) / 2) mark largefont in
  let center := compass_center heading m in
  exists tick,
    compass_step heading m s =
    Returns tt
      (State
         (surface s ++
          [tick;
           PasteColor (snd (compass_mark m))
             (py_round (fst center - LARGE), py_round (snd center - LARGE))
             (Bitmap [glyph] (heading - IZR m))])
         [glyph]).
Proof.
  intros Hm. cbv zeta. unfold compass_step.
  replace (m mod 30 =? 0)%Z with true by (symmetry; apply Z.eqb_eq; exact Hm).
  cbn [negb]. eexists. run_emits.
  unfold bind, mask_blank, mask_text, mask_rotate, emit. settle_surface.
  replace (- IZR m + heading) with (heading - IZR m) by ring.
  reflexivity.
Qed.

Lemma compass_step_extends (heading : R) (m : Z) (s : state) :
  exists added mask',
    compass_step heading m s = Returns tt (State (surface s ++ added) mask').
Proof.
  destruct (Z.eq_dec (m mod 30) 0) as [Hm | Hm].
  - destruct (compass_step_long heading m s Hm) as (tick & Hrun).
    rewrite Hrun. do 2 eexists. reflexivity.
  - destruct (compass_step_short heading m s Hm) as (tick & Hrun).
    rewrite Hrun. do 2 eexists. reflexivity.
Qed.

Lemma for_each_extends {B} (body : B -> M unit) :
  (forall b s, exists added mask',
      body b s = Returns tt (State (surface s ++ added) mask')) ->
  forall l s, exists added mask',
      for_each l body s = Returns tt (State (surface s ++ added) mask').
Proof.
  intros Hbody. induction l as [| b l IH]; intros s.
  - exists [], (mask s). cbn. rewrite app_nil_r, state_eta. reflexivity.
  - destruct (Hbody b s) as (a1 & m1 & H1).
    destruct (IH (State (surface s ++ a1) m1)) as (a2 & m2 & H2).
    exists (a1 ++ a2), m2. cbn [for_each].
    erewrite bind_returns by exact H1. rewrite H2. settle_surface. reflexivity.
Qed.

Lemma for_each_draws {B} (body : B -> M unit) (b : B) (p : prim) :
  (forall b s, exists added mask',
      body b s = Returns tt (State (surface s ++ added) mask')) ->
  (forall s, exists s', body b s = Returns tt s' /\ In p (surface s')) ->
  forall l, In b l ->
  forall s, exists s', for_each l body s = Returns tt s' /\ In p (surface s').
Proof.
  intros Hext Hdraw. induction l as [| a l IH]; intros Hin s; [destruct Hin |].
  cbn [for_each]. destruct Hin as [-> | Hin].
  - destruct (Hdraw s) as (s1 & H1 & Hp).
    destruct (for_each_extends body Hext l s1) as (a2 & m2 & H2).
    eexists. erewrite bind_returns by exact H1. split; [exact H2 |].
    cbn [surface]. apply in_or_app. left. exact Hp.
  - destruct (Hext a s) as (a1 & m1 & H1).
    destruct (IH Hin (State (surface s ++ a1) m1)) as (s' & H2 & Hp).
    exists s'. erewrite bind_returns by exact H1. split; assumption.
Qed.

Lemma long_marks_in_range (m : Z) :
  (0 <= m < 360)%Z -> (m mod 30 = 0)%Z -> In m (py_range 0 360 10).
Proof.
  intros Hm Hmod.
  assert (Hk : exists k, (0 <= k < 12)%Z /\ m = (30 * k)%Z).
  { exists (m / 30)%Z. split.
    - split; [apply Z.div_pos; lia | apply Z.div_lt_upper_bound; lia].
    - pose proof (Z.div_mod m 30). lia. }
  destruct Hk as (k & Hk & ->).
  assert (Hcases : (k = 0 \/ k = 1 \/ k = 2 \/ k = 3 \/ k = 4 \/ k = 5 \/ k = 6
                    \/ k = 7 \/ k = 8 \/ k = 9 \/ k = 10 \/ k = 11)%Z) by lia.
  vm_compute py_range. clear - Hcases.
  repeat (destruct Hcases as [-> | Hcases]; [cbn; tauto |]).
  subst k. cbn. tauto.
Qed.

Lemma compass_center_top : compass_center 0 0 =
  (zerox, zeroy - (sizey / 2 - cmsize - LARGE / 2)).
Proof.
  unfold compass_center. replace (0 - 0 + 90) with 90 by ring.
  rewrite radians_90, cos_PI2, sin_PI2. f_equal; ring.
Qed.

Lemma compass_center_left : compass_center 90 0 =
  (zerox - (sizey / 2 - cmsize - LARGE / 2), zeroy).
Proof.
  unfold compass_center. replace (0 - 90 + 90) with 0 by ring.
  rewrite radians_0, cos_0, sin_0. f_equal; ring.
Qed.

Lemma compass_center_270 : compass_center 0 270 = compass_center 90 0.
Proof.
  rewrite compass_center_left. unfold compass_center.
  replace (270 - 0 + 90) with 360 by ring.
  rewrite radians_360, cos_2PI, sin_2PI. f_equal; ring.
Qed.

Lemma pasted_rotations_app (l l' : list prim) :
  pasted_rotations (l ++ l') = pasted_rotations l ++ pasted_rotations l'.
Proof.
  induction l as [| p l IH]; [reflexivity |].
  destruct p; cbn [app pasted_rotations]; rewrite IH; reflexivity.
Qed.

(** The stencil a long tick pastes is turned by [heading - m]. *)
Lemma compass_step_rotation (heading : R) (m : Z) (s : state) :
  (m mod 30 = 0)%Z ->
  exists s', compass_step heading m s = Returns tt s' /\
             pasted_rotations (surface s')
             = pasted_rotations (surface s) ++ [heading - IZR m].
Proof.
  intros Hm. destruct (compass_step_long heading m s Hm) as (tick & Hrun).
  eexists. split; [exact Hrun |]. cbn [surface].
  rewrite pasted_rotations_app.
  unfold compass_step in Hrun.
  replace (m mod 30 =? 0)%Z with true in Hrun
    by (symmetry; apply Z.eqb_eq; exact Hm).
  cbn [negb] in Hrun. rewrite emit_bind in Hrun.
  unfold bind, mask_blank, mask_text, mask_rotate, emit in Hrun.
  cbn [surface mask] in Hrun. injection Hrun as Hsurf.
  rewrite <- app_assoc in Hsurf. apply app_inv_head in Hsurf.
  injection Hsurf as <- _. reflexivity.
Qed.

(** C8 (amended).  For every heading and every step [m] that is a
    multiple of 30 in 0..350, [compass] blanks the mask, renders the label
    into it, turns the mask by [heading - m] degrees (the argument of the
    bitmap rotation) and pastes it: the pasted stencil holds the one glyph
    of this label whatever the mask held before.  The label is centred at
    the screen centre minus [(sizey/2 - cmsize - LARGE/2) * (cos a, sin a)]
    with [a = m - heading + 90]; the paste position is that centre minus
    [LARGE], rounded.  For [heading = 0] the label of bearing 0 is pasted
    with rotation 0, centred straight above the screen centre; for
    [heading = 90] it is pasted with rotation [heading - m = 90] (not -90),
    centred where the label of bearing 270 is centred at heading 0. *)
Theorem compass_label_compositing (heading : R) (m : Z)
  (error_message : option string) (s : state) :
  (0 <= m < 360)%Z -> (m mod 30 = 0)%Z ->
  let mark := fst (compass_mark m) in
  let glyph := Glyph ((LARGE * 2 - textlength mark largefont) / 2,
                      (LARGE * 2 - LARGE) / 2) mark largefont in
  let inset_radius := sizey / 2 - cmsize - LARGE / 2 in
  let cx := zerox - inset_radius * cos (radians (IZR m - heading + 90)) in
  let cy := zeroy - inset_radius * sin (radians (IZR m - heading + 90)) in
  let paste := PasteColor (snd (compass_mark m))
                 (py_round (cx - LARGE), py_round (cy - LARGE))
                 (Bitmap [glyph] (heading - IZR m)) in
  (exists tick,
      compass_step heading m s
      = Returns tt (State (surface s ++ [tick; paste]) [glyph])) /\
  (exists s', compass heading error_message s = Returns tt s' /\
              In paste (surface s')) /\
  compass_center 0 0 = (zerox, zeroy - inset_radius) /\
  (exists s', compass_step 0 0 s = Returns tt s' /\
              pasted_rotations (surface s') = pasted_rotations (surface s) ++ [0]) /\
  compass_center 90 0 = compass_center 0 270 /\
  (exists s', compass_step 90 0 s = Returns tt s' /\
              pasted_rotations (surface s') = pasted_rotations (surface s) ++ [90]).
Proof.
  intros Hrange Hmod. cbv zeta.
  split; [exact (compass_step_long heading m s Hmod) |].
  split.
  - assert (Hdraw : forall s0, exists s1,
              compass_step heading m s0 = Returns tt s1 /\
              In (PasteColor (snd (compass_mark m))
                    (py_round (fst (compass_center heading m) - LARGE),
                     py_round (snd (compass_center heading m) - LARGE))
                    (Bitmap [Glyph ((LARGE * 2
                                     - textlength (fst (compass_mark m)) largefont) / 2,
                                    (LARGE * 2 - LARGE) / 2)
                               (fst (compass_mark m)) largefont]
                       (heading - IZR m)))
                 (surface s1)).
    { intros s0. destruct (compass_step_long heading m s0 Hmod) as (tick & Hrun).
      eexists. split; [exact Hrun |]. cbn [surface].
      apply in_or_app. right. right. left. reflexivity. }
    pose proof (for_each_draws (compass_step heading) m _
                  (compass_step_extends heading) Hdraw (py_range 0 360 10)
                  (long_marks_in_range m Hrange Hmod)) as Hloop.
    unfold compass. run_emits.
    match goal with
    | |- context [bind (for_each _ _) _ ?s0] =>
        destruct (Hloop s0) as (s1 & Hrun & Hin)
    end.
    erewrite bind_returns by exact Hrun.
    destruct error_message as [e |].
    + eexists. split; [reflexivity |]. cbn [surface].
      apply in_or_app. left. exact Hin.
    + exists s1. split; [reflexivity | exact Hin].
  - split; [apply compass_center_top |].
    split.
    { destruct (compass_step_rotation 0 0%Z s) as (s1 & H1 & H2); [reflexivity |].
      exists s1. split; [exact H1 |]. rewrite H2. do 2 f_equal. ring. }
    split; [symmetry; apply compass_center_270 |].
    destruct (compass_step_rotation 90 0%Z s) as (s1 & H1 & H2); [reflexivity |].
    exists s1. split; [exact H1 |]. rewrite H2. do 2 f_equal. ring.
Qed.

(** * Further properties of the code *)

(** ** Rounding *)

Lemma py_round_char (x : R) :
  Rabs (x - IZR (py_round x)) < 1 / 2 \/
  (Rabs (x - IZR (py_round x)) = 1 / 2 /\ Z.even (py_round x) = true).
Proof.
  unfold py_round.
  pose proof (Int_part_bounds x) as Hb.
  destruct (Rlt_dec (x - IZR (Int_part x)) (1 / 2)) as [Hlt | Hge].
  - left. apply Rabs_def1; lra.
  - destruct (Rlt_dec (1 / 2) (x - IZR (Int_part x))) as [Hgt | Hle].
    + left. rewrite plus_IZR. apply Rabs_def1; lra.
    + assert (Hhalf : x - IZR (Int_part x) = 1 / 2) by lra.
      right. destruct (Z.even (Int_part x)) eqn:He.
      * split; [| exact He]. rewrite Hhalf. apply Rabs_pos_eq. lra.
      * split.
        -- rewrite plus_IZR.
           replace (x - (IZR (Int_part x) + 1)) with (- (1 / 2)) by lra.
           rewrite Rabs_Ropp. apply Rabs_pos_eq. lra.
        -- rewrite Z.even_add, He. reflexivity.
Qed.

Lemma py_round_spec (x : R) (z : Z) :
  Rabs (x - IZR z) < 1 / 2 \/ (Rabs (x - IZR z) = 1 / 2 /\ Z.even z = true) ->
  py_round x = z.
Proof.
  intros [Hlt | [Heq He]].
  - apply py_round_unique. apply Rabs_def2 in Hlt. lra.
  - unfold py_round.
    assert (Hx : x = IZR z + 1 / 2 \/ x = IZR z - 1 / 2).
    { unfold Rabs in Heq. destruct (Rcase_abs (x - IZR z)); [right | left]; lra. }
    destruct Hx as [Hx | Hx].
    + assert (Hi : Int_part x = z) by (symmetry; apply Int_part_spec; lra).
      rewrite Hi.
      destruct (Rlt_dec (x - IZR z) (1 / 2)); [lra |].
      destruct (Rlt_dec (1 / 2) (x - IZR z)); [lra |].
      rewrite He. reflexivity.
    + assert (Hi : Int_part x = (z - 1)%Z).
      { symmetry. apply Int_part_spec. rewrite minus_IZR. lra. }
      rewrite Hi. rewrite minus_IZR.
      destruct (Rlt_dec (x - (IZR z - 1)) (1 / 2)); [lra |].
      destruct (Rlt_dec (1 / 2) (x - (IZR z - 1))); [lra |].
      replace (Z.even (z - 1)) with false; [lia |].
      symmetry. rewrite Z.even_sub, He. reflexivity.
Qed.

(** [round] is odd: ties go to the even neighbour on both sides of 0. *)
Lemma py_round_opp (x : R) : py_round (- x) = (- py_round x)%Z.
Proof.
  apply py_round_spec. rewrite opp_IZR.
  replace (- x - - IZR (py_round x)) with (- (x - IZR (py_round x))) by ring.
  rewrite Rabs_Ropp, Z.even_opp. apply py_round_char.
Qed.

Lemma py_round_abs_le (x b : R) :
  Rabs x <= b -> Rabs (IZR (py_round x)) <= b + 1 / 2.
Proof.
  intros Hx. pose proof (py_round_nearest x) as Hn.
  replace (IZR (py_round x)) with (IZR (py_round x) - x + x) by ring.
  eapply Rle_trans; [apply Rabs_triang |]. lra.
Qed.

(** ** Geometry kernel, continued *)

Lemma radians_half_turn (angle : R) : radians (angle + 180) = radians angle + PI.
Proof. unfold radians. field. Qed.





Lemma posn_coordinate_bound (angle arm_length : R) :
  Rabs (IZR (fst (posn angle arm_length))) <= Rabs arm_length + 1 / 2 /\
  Rabs (IZR (snd (posn angle arm_length))) <= Rabs arm_length + 1 / 2.
Proof.
  unfold posn. cbn [fst snd]. split.
  - apply py_round_abs_le. rewrite Rabs_mult.
    pose proof (COS_bound (radians angle)) as [H1 H2].
    assert (Rabs (cos (radians angle)) <= 1) by (apply Rabs_le; lra).
    pose proof (Rabs_pos arm_length). nra.
  - apply py_round_abs_le. rewrite Rabs_mult.
    pose proof (SIN_bound (radians angle)) as [H1 H2].
    assert (Rabs (sin (radians angle)) <= 1) by (apply Rabs_le; lra).
    pose proof (Rabs_pos arm_length). nra.
Qed.

Lemma posn_antipodal (angle arm_length : R) :
  posn (angle + 180) arm_length
  = ((- fst (posn angle arm_length))%Z, (- snd (posn angle arm_length))%Z).
Proof.
  unfold posn. cbn [fst snd].
  rewrite radians_half_turn, neg_cos, neg_sin.
  rewrite <- !py_round_opp. f_equal; f_equal; ring.
Qed.

(** X1.  The offset [posn] returns never exceeds the arm length by more
    than half a pixel in either coordinate, and the offset for the
    opposite direction (the angle plus 180 degrees) is exactly the
    negated offset. *)
Theorem posn_bounded_and_antipodal (angle arm_length : R) :
  Rabs (IZR (fst (posn angle arm_length))) <= Rabs arm_length + 1 / 2 /\
  Rabs (IZR (snd (posn angle arm_length))) <= Rabs arm_length + 1 / 2 /\
  posn (angle + 180) arm_length
  = ((- fst (posn angle arm_length))%Z, (- snd (posn angle arm_length))%Z).
Proof.
  destruct (posn_coordinate_bound angle arm_length) as [Hx Hy].
  split; [exact Hx |]. split; [exact Hy |]. apply posn_antipodal.
Qed.

(** ** Label declutter *)

Lemma next_arcposition_range (a : Z) : (0 <= next_arcposition a < 360)%Z.
Proof. unfold next_arcposition. apply Z.mod_pos_bound. lia. Qed.

Lemma next_arcposition_iter (k : nat) (a : Z) :
  ((Nat.iter k next_arcposition a) mod 360
   = (a + 210 * Z.of_nat k) mod 360)%Z.
Proof.
  induction k as [| k IH].
  - change (Nat.iter 0 next_arcposition a) with a. f_equal. lia.
  - change (Nat.iter (S k) next_arcposition a)
      with (next_arcposition (Nat.iter k next_arcposition a)).
    unfold next_arcposition at 1.
    rewrite Z.mod_mod by lia.
    rewrite <- Z.add_mod_idemp_l by lia. rewrite IH.
    rewrite Z.add_mod_idemp_l by lia. f_equal. lia.
Qed.

(** X2.  [next_arcposition] maps every integer angle into 0..359, and
    starting from an angle in that range it runs through twelve different
    positions before it comes back: the twelfth step returns to the start
    and no earlier step does. *)
Theorem next_arcposition_cycle (a : Z) :
  (0 <= next_arcposition a < 360)%Z /\
  ((0 <= a < 360)%Z ->
   Nat.iter 12 next_arcposition a = a /\
   forall k : nat, (0 < k < 12)%nat -> Nat.iter k next_arcposition a <> a).
Proof.
  split; [apply next_arcposition_range |].
  intros Ha.
  assert (Hsmall : forall k, ((Nat.iter k next_arcposition a) mod 360
                              = Nat.iter k next_arcposition a)%Z).
  { intros [| k]; apply Z.mod_small; [exact Ha |].
    change (Nat.iter (S k) next_arcposition a)
      with (next_arcposition (Nat.iter k next_arcposition a)).
    apply next_arcposition_range. }
  split.
  - rewrite <- Hsmall, next_arcposition_iter.
    replace (a + 210 * Z.of_nat 12)%Z with (a + 7 * 360)%Z by lia.
    rewrite Z.mod_add by lia. apply Z.mod_small. exact Ha.
  - intros k Hk Heq.
    rewrite <- Hsmall, next_arcposition_iter in Heq.
    pose proof (Z.div_mod (a + 210 * Z.of_nat k) 360) as Hdm.
    assert (Hq : (210 * Z.of_nat k = 360 * ((a + 210 * Z.of_nat k) / 360))%Z) by lia.
    set (q := ((a + 210 * Z.of_nat k) / 360)%Z) in *.
    assert (Hcases : (Z.of_nat k = 1 \/ Z.of_nat k = 2 \/ Z.of_nat k = 3
                      \/ Z.of_nat k = 4 \/ Z.of_nat k = 5 \/ Z.of_nat k = 6
                      \/ Z.of_nat k = 7 \/ Z.of_nat k = 8 \/ Z.of_nat k = 9
                      \/ Z.of_nat k = 10 \/ Z.of_nat k = 11)%Z) by lia.
    clear - Hq Hcases. lia.
Qed.



(** ** Traffic contacts, continued *)

Lemma modesaircraft_radius_clamp (radius : R) :
  (let r := if Rlt_dec radius MINIMAL_CIRCLE then MINIMAL_CIRCLE else radius in
   if Rgt_dec r MAXIMAL_CIRCLE then MAXIMAL_CIRCLE else r)
  = Rmin MAXIMAL_CIRCLE (Rmax MINIMAL_CIRCLE radius).
Proof.
  cbv zeta. unfold MINIMAL_CIRCLE, MAXIMAL_CIRCLE, Rmin, Rmax.
  destruct (Rlt_dec radius 18); destruct (Rle_dec 18 radius); try lra;
    repeat match goal with
           | |- context [Rgt_dec ?a ?b] => destruct (Rgt_dec a b)
           | |- context [Rle_dec ?a ?b] => destruct (Rle_dec a b)
           end; lra.
Qed.

(** X5.  [modesaircraft] draws the ring with the radius clamped into
    [MINIMAL_CIRCLE, MAXIMAL_CIRCLE] = [18, 100] (a radius of 5 is drawn
    as 18), and centres the black label box and the label on the point of
    that ring that [posn] gives for [arcposition]. *)
Theorem modesaircraft_ring_clamped_label_centred (radius : R) (height : Z)
  (arcposition vspeed : R) (tail : option string) (s : state) :
  let ring := Rmin MAXIMAL_CIRCLE (Rmax MINIMAL_CIRCLE radius) in
  let cx := zerox + IZR (fst (posn arcposition ring)) in
  let cy := zeroy + IZR (snd (posn arcposition ring)) in
  let t := modesaircraft_label height vspeed in
  let tsize := textlength t largefont in
  18 <= ring <= 100 /\
  (18 <= radius <= 100 -> ring = radius) /\
  (radius < 18 -> ring = 18) /\
  (100 < radius -> ring = 100) /\
  exists tailprims,
    modesaircraft radius height arcposition vspeed tail s =
    Returns tt
      (State
         (surface s ++
          [Ellipse (zerox - ring, zeroy - ring) (zerox + ring, zeroy + ring)
             None (Some "yellow") 3;
           Rectangle (cx - tsize / 2, cy - LARGE / 2)
             (cx + tsize / 2, cy + LARGE / 2) (Some "black") None;
           Text (cx - tsize / 2, cy - LARGE / 2) t largefont "yellow"] ++
          tailprims)
         (mask s)) /\
    (tail = None -> tailprims = []).
Proof.
  cbv zeta.
  assert (Hring : 18 <= Rmin MAXIMAL_CIRCLE (Rmax MINIMAL_CIRCLE radius) <= 100
                  /\ (18 <= radius <= 100 ->
                      Rmin MAXIMAL_CIRCLE (Rmax MINIMAL_CIRCLE radius) = radius)
                  /\ (radius < 18 ->
                      Rmin MAXIMAL_CIRCLE (Rmax MINIMAL_CIRCLE radius) = 18)
                  /\ (100 < radius ->
                      Rmin MAXIMAL_CIRCLE (Rmax MINIMAL_CIRCLE radius) = 100)).
  { unfold MINIMAL_CIRCLE, MAXIMAL_CIRCLE, Rmin, Rmax.
    destruct (Rle_dec 18 radius);
      repeat match goal with
             | |- context [Rle_dec ?a ?b] => destruct (Rle_dec a b)
             end; repeat split; intros; lra. }
  destruct Hring as (H1 & H2 & H3 & H4).
  split; [exact H1 |]. split; [exact H2 |]. split; [exact H3 |]. split; [exact H4 |].
  unfold modesaircraft. rewrite modesaircraft_radius_clamp.
  set (ring := Rmin MAXIMAL_CIRCLE (Rmax MINIMAL_CIRCLE radius)).
  set (t := modesaircraft_label height vspeed).
  set (tsize := textlength t largefont).
  cbv zeta. run_emits. cbn [fst snd].
  replace (zerox + IZR (fst (posn arcposition ring)) - tsize / 2 + tsize)
    with (zerox + IZR (fst (posn arcposition ring)) + tsize / 2) by field.
  replace (zeroy + IZR (snd (posn arcposition ring)) - LARGE / 2 + LARGE)
    with (zeroy + IZR (snd (posn arcposition ring)) + LARGE / 2) by field.
  destruct tail as [tl |].
  - eexists. split; [| discriminate].
    run_emits. unfold emit. settle_surface. reflexivity.
  - exists []. split; [| reflexivity]. unfold ret. reflexivity.
Qed.


(** ** Attitude indicator *)

Lemma rollmark_run (di roll : R) (rm : Z) (s : state) :
  rollmark di roll rm s =
  Returns tt
    (State
       (surface s ++
        [Line [(ah_zerox - di * cos (radians (IZR rm - roll + 90)),
                ah_zeroy - di * sin (radians (IZR rm - roll + 90)));
               (ah_zerox - (di - (if (rm mod 30 =? 0)%Z then 24 else 16))
                           * cos (radians (IZR rm - roll + 90)),
                ah_zeroy - (di - (if (rm mod 30 =? 0)%Z then 24 else 16))
                           * sin (radians (IZR rm - roll + 90)))]
           "white" 3])
       (mask s)).
Proof.
  unfold rollmark. destruct (rm mod 30 =? 0)%Z; reflexivity.
Qed.

(** X9.  [rollmarks] draws eleven marks of width 3 and then the fixed
    pointer.  Each mark lies on the ray from the centre at the angle
    [rm - roll + 90], starting at the radius [di] (the smaller of the two
    half sizes of the screen) and running inwards by 24 pixels for the
    marks -90, -60, -30, 0, 30, 60 and 90 and by 16 pixels for -20, -10,
    10 and 20. *)
Theorem rollmarks_scale (roll : R) (s : state) :
  let di := Rmin ah_zerox ah_zeroy in
  let tick := fun (rm : Z) (len : R) =>
    Line [(ah_zerox - di * cos (radians (IZR rm - roll + 90)),
           ah_zeroy - di * sin (radians (IZR rm - roll + 90)));
          (ah_zerox - (di - len) * cos (radians (IZR rm - roll + 90)),
           ah_zeroy - (di - len) * sin (radians (IZR rm - roll + 90)))]
      "white" 3 in
  rollmarks roll s =
  Returns tt
    (State
       (surface s ++
        [tick (-90)%Z 24; tick (-60)%Z 24; tick (-30)%Z 24;
         tick (-20)%Z 16; tick (-10)%Z 16; tick 0%Z 24;
         tick 10%Z 16; tick 20%Z 16; tick 30%Z 24;
         tick 60%Z 24; tick 90%Z 24;
         Polygon [(zerox, 20); (zerox - 12, 20 + 8); (zerox + 12, 20 + 8)]
           "white" None])
       (mask s)).
Proof.
  cbv zeta.
  unfold rollmarks.
  replace (if Rgt_dec ah_zerox ah_zeroy then ah_zeroy else ah_zerox)
    with (Rmin ah_zerox ah_zeroy).
  2:{ unfold Rmin. destruct (Rgt_dec ah_zerox ah_zeroy);
        destruct (Rle_dec ah_zerox ah_zeroy); lra. }
  erewrite bind_returns.
  2:{ apply (for_each_emits
               (fun rm =>
                  [Line [(ah_zerox - Rmin ah_zerox ah_zeroy
                                     * cos (radians (IZR rm - roll + 90)),
                          ah_zeroy - Rmin ah_zerox ah_zeroy
                                     * sin (radians (IZR rm - roll + 90)));
                         (ah_zerox - (Rmin ah_zerox ah_zeroy
                                      - (if (rm mod 30 =? 0)%Z then 24 else 16))
                                     * cos (radians (IZR rm - roll + 90)),
                          ah_zeroy - (Rmin ah_zerox ah_zeroy
                                      - (if (rm mod 30 =? 0)%Z then 24 else 16))
                                     * sin (radians (IZR rm - roll + 90)))]
                     "white" 3])).
      intros rm s0. apply rollmark_run. }
  unfold emit, roll_posmarks. cbn [flat_map]. settle_surface.
  repeat match goal with
         | |- context [(?a mod 30 =? 0)%Z] =>
             let b := eval vm_compute in (a mod 30 =? 0)%Z in
             change (a mod 30 =? 0)%Z with b
         end.
  reflexivity.
Qed.

Lemma slip_run (slipskid : R) (s : state) :
  let clamped := if Rlt_dec slipskid (-10) then -10
                 else if Rgt_dec slipskid 10 then 10 else slipskid in
  slip slipskid s =
  Returns tt
    (State
       (surface s ++
        [Rectangle (zerox - 120, sizey - 10 * 2) (zerox + 120, sizey - 1)
           (Some "black") None;
         Ellipse (zerox - clamped * 12 - 10, sizey - 10 * 2)
           (zerox - clamped * 12 + 10, sizey - 1) (Some "white") None 1])
       (mask s)).
Proof.
  cbv zeta. unfold slip. run_emits. unfold emit. settle_surface. reflexivity.
Qed.

(** X10.  [slip] blanks a strip 240 pixels wide at the bottom of the
    screen and draws the ball as a disc 20 pixels wide whose centre is 12
    pixels left of the screen centre per unit of slip; the slip is
    clamped to -10..10 first, so the centre of the ball never leaves the
    blanked strip. *)
Theorem slip_ball_stays_in_strip (slipskid : R) (s : state) :
  exists cx : R,
    slip slipskid s =
    Returns tt
      (State
         (surface s ++
          [Rectangle (zerox - 120, sizey - 20) (zerox + 120, sizey - 1)
             (Some "black") None;
           Ellipse (cx - 10, sizey - 20) (cx + 10, sizey - 1)
             (Some "white") None 1])
         (mask s)) /\
    zerox - 120 <= cx <= zerox + 120 /\
    (-10 <= slipskid <= 10 -> cx = zerox - 12 * slipskid) /\
    (slipskid < -10 -> cx = zerox + 120) /\
    (10 < slipskid -> cx = zerox - 120).
Proof.
  exists (zerox - (if Rlt_dec slipskid (-10) then -10
                   else if Rgt_dec slipskid 10 then 10 else slipskid) * 12).
  split.
  - rewrite slip_run. cbv zeta.
    replace (sizey - 10 * 2) with (sizey - 20) by ring. reflexivity.
  - destruct (Rlt_dec slipskid (-10)); [| destruct (Rgt_dec slipskid 10)];
      repeat split; intros; lra.
Qed.

Lemma rollmarks_returns (roll : R) (s : state) :
  exists marks,
    rollmarks roll s = Returns tt (State (surface s ++ marks) (mask s)) /\
    List.length marks = 12%nat.
Proof.
  unfold rollmarks.
  set (di := if Rgt_dec ah_zerox ah_zeroy then ah_zeroy else ah_zerox).
  eexists. split.
  - erewrite bind_returns.
    2:{ apply (for_each_emits
                 (fun rm =>
                    [Line [(ah_zerox - di * cos (radians (IZR rm - roll + 90)),
                            ah_zeroy - di * sin (radians (IZR rm - roll + 90)));
                           (ah_zerox - (di - (if (rm mod 30 =? 0)%Z then 24 else 16))
                                       * cos (radians (IZR rm - roll + 90)),
                            ah_zeroy - (di - (if (rm mod 30 =? 0)%Z then 24 else 16))
                                       * sin (radians (IZR rm - roll + 90)))]
                       "white" 3])).
        intros rm s0. apply rollmark_run. }
    unfold emit. settle_surface. reflexivity.
  - rewrite length_app. reflexivity.
Qed.

(** Everything [ahrs] draws before it looks at the error message. *)
Lemma ahrs_run (pitch roll heading slipskid : R) (s : state) :
  exists rest,
    List.length rest = 23%nat /\
    forall msg,
      ahrs pitch roll heading slipskid msg s =
      (if truthy msg
       then match msg with
            | Some e => centered_text 30 e smallfont "red"
            | None => ret tt
            end
       else ret tt)
        (State
           (surface s ++
            [Polygon [fst (linepoints pitch roll 0 200);
                      snd (linepoints pitch roll 0 200);
                      snd (linepoints pitch roll (-180) 200);
                      fst (linepoints pitch roll (-180) 200)] "brown" None;
             Polygon [fst (linepoints pitch roll 0 200);
                      snd (linepoints pitch roll 0 200);
                      snd (linepoints pitch roll 180 200);
                      fst (linepoints pitch roll 180 200)] "blue" None;
             Line [fst (linepoints pitch roll 0 200);
                   snd (linepoints pitch roll 0 200)] "white" 2] ++ rest)
           (mask s)).
Proof.
  set (ladder := flat_map
                   (fun pm => [Line [fst (linepoints pitch roll (IZR pm) 20);
                                     snd (linepoints pitch roll (IZR pm) 20)]
                                 "white" 2]) pitch_posmarks).
  set (symbol := [Line [(zerox - 60, zeroy); (zerox - 25, zeroy)] "white" 5;
                  Line [(zerox + 60, zeroy); (zerox + 25, zeroy)] "white" 5;
                  Polygon [(zerox, zeroy + 3); (zerox - 15, zeroy + 12);
                           (zerox + 15, zeroy + 12)] "white" None]).
  set (layers := [Polygon [fst (linepoints pitch roll 0 200);
                           snd (linepoints pitch roll 0 200);
                           snd (linepoints pitch roll (-180) 200);
                           fst (linepoints pitch roll (-180) 200)] "brown" None;
                  Polygon [fst (linepoints pitch roll 0 200);
                           snd (linepoints pitch roll 0 200);
                           snd (linepoints pitch roll 180 200);
                           fst (linepoints pitch roll 180 200)] "blue" None;
                  Line [fst (linepoints pitch roll 0 200);
                        snd (linepoints pitch roll 0 200)] "white" 2]).
  destruct (rollmarks_returns roll
              (State (surface s ++ layers ++ ladder ++ symbol) (mask s)))
    as (marks & Hmarks & Hlen).
  cbn [surface mask] in Hmarks.
  exists (ladder ++ symbol ++ marks ++
          [Rectangle (zerox - 120, sizey - 10 * 2) (zerox + 120, sizey - 1)
             (Some "black") None;
           Ellipse (zerox - (if Rlt_dec slipskid (-10) then -10
                             else if Rgt_dec slipskid 10 then 10 else slipskid)
                            * 12 - 10, sizey - 10 * 2)
             (zerox - (if Rlt_dec slipskid (-10) then -10
                       else if Rgt_dec slipskid 10 then 10 else slipskid)
                      * 12 + 10, sizey - 1) (Some "white") None 1]).
  split.
  - rewrite !length_app, Hlen. reflexivity.
  - intros msg. unfold ahrs. cbv zeta.
    rewrite !emit_bind. cbn [surface mask].
    erewrite bind_returns.
    2:{ apply (for_each_emits
                 (fun pm => [Line [fst (linepoints pitch roll (IZR pm) 20);
                                   snd (linepoints pitch roll (IZR pm) 20)]
                               "white" 2])).
        intros b s0. reflexivity. }
    fold ladder. rewrite !emit_bind. cbn [surface mask].
    match goal with
    | |- bind (rollmarks roll) _ ?s0 = _ =>
        replace s0 with (State (surface s ++ layers ++ ladder ++ symbol) (mask s))
    end.
    2:{ f_equal. unfold layers, symbol.
        repeat (rewrite <- ?app_assoc; cbn [app]). reflexivity. }
    erewrite bind_returns by exact Hmarks.
    erewrite bind_returns by apply slip_run.
    cbv zeta. f_equal. f_equal. cbn [surface mask]. unfold layers.
    repeat (rewrite <- ?app_assoc; cbn [app]). reflexivity.
Qed.

(** X11.  [ahrs] paints, in this order, the earth quadrilateral, the sky
    quadrilateral and the horizon line, which is the edge the two share,
    and then 23 further primitives (pitch ladder, aircraft symbol, roll
    scale, slip ball).  A non-empty error message is drawn last, in red,
    centred at y = 30; [None] and the empty string draw nothing. *)
Theorem ahrs_layers (pitch roll heading slipskid : R) (s : state) :
  let h1 := fst (linepoints pitch roll 0 200) in
  let h2 := snd (linepoints pitch roll 0 200) in
  let e3 := fst (linepoints pitch roll (-180) 200) in
  let e4 := snd (linepoints pitch roll (-180) 200) in
  let s3 := fst (linepoints pitch roll 180 200) in
  let s4 := snd (linepoints pitch roll 180 200) in
  exists rest,
    List.length rest = 23%nat /\
    ahrs pitch roll heading slipskid None s =
    Returns tt
      (State
         (surface s ++
          [Polygon [h1; h2; e4; e3] "brown" None;
           Polygon [h1; h2; s4; s3] "blue" None;
           Line [h1; h2] "white" 2] ++ rest)
         (mask s)) /\
    ahrs pitch roll heading slipskid (Some "") s
    = ahrs pitch roll heading slipskid None s /\
    forall (a : ascii) (e : string),
      ahrs pitch roll heading slipskid (Some (String a e)) s =
      Returns tt
        (State
           (surface s ++
            [Polygon [h1; h2; e4; e3] "brown" None;
             Polygon [h1; h2; s4; s3] "blue" None;
             Line [h1; h2] "white" 2] ++ rest ++
            [Text (zerox - textlength (String a e) smallfont / 2, 30)
               (String a e) smallfont "red"])
           (mask s)).
Proof.
  cbv zeta.
  destruct (ahrs_run pitch roll heading slipskid s) as (rest & Hlen & Hrun).
  exists rest. split; [exact Hlen |].
  split; [rewrite Hrun; reflexivity |].
  split; [rewrite !Hrun; reflexivity |].
  intros a e. rewrite Hrun. cbn [truthy]. unfold centered_text, emit.
  settle_surface. reflexivity.
Qed.

(** ** Loops, continued *)

Lemma py_range_bounds (start stop step m : Z) :
  (0 < step)%Z -> In m (py_range start stop step) ->
  (start <= m < stop)%Z /\ ((m - start) mod step = 0)%Z.
Proof.
  intros Hstep Hin. unfold py_range in Hin.
  apply in_map_iff in Hin. destruct Hin as (k & <- & Hk).
  apply in_seq in Hk. destruct Hk as [_ Hk]. cbn in Hk.
  assert (Hq : (Z.of_nat k < (stop - start + step - 1) / step)%Z) by lia.
  pose proof (Z.mul_div_le (stop - start + step - 1) step Hstep) as Hle.
  split; [split; [nia | nia] |].
  replace (start + Z.of_nat k * step - start)%Z with (Z.of_nat k * step)%Z by lia.
  apply Z.mod_mul. lia.
Qed.

Lemma texts_in_app (f : font) (l l' : list prim) :
  texts_in f (l ++ l') = texts_in f l ++ texts_in f l'.
Proof.
  induction l as [| p l IH]; [reflexivity |].
  destruct p; cbn [app texts_in]; try exact IH.
  destruct f, f0; cbn [app]; rewrite ?IH; reflexivity.
Qed.

Lemma line_widths_app (l l' : list prim) :
  line_widths (l ++ l') = line_widths l ++ line_widths l'.
Proof.
  induction l as [| p l IH]; [reflexivity |].
  destruct p; cbn [app line_widths]; rewrite ?IH; reflexivity.
Qed.

(** A loop whose body only draws: what two read-outs of the drawing show
    is the concatenation of what they show for each iteration. *)
Lemma for_each_collect {B X Y} (proj1 : list prim -> list X)
  (proj2 : list prim -> list Y) (g1 : B -> list X) (g2 : B -> list Y)
  (body : B -> M unit) :
  (forall a b, proj1 (a ++ b) = proj1 a ++ proj1 b) -> proj1 [] = [] ->
  (forall a b, proj2 (a ++ b) = proj2 a ++ proj2 b) -> proj2 [] = [] ->
  (forall b s, exists prims,
      body b s = Returns tt (State (surface s ++ prims) (mask s)) /\
      proj1 prims = g1 b /\ proj2 prims = g2 b) ->
  forall l s, exists all,
      for_each l body s = Returns tt (State (surface s ++ all) (mask s)) /\
      proj1 all = flat_map g1 l /\ proj2 all = flat_map g2 l.
Proof.
  intros H1 H1n H2 H2n Hbody. induction l as [| b l IH]; intros s.
  - exists []. cbn. rewrite app_nil_r, state_eta. repeat split; assumption.
  - destruct (Hbody b s) as (p1 & Hrun & Hp1 & Hp2).
    destruct (IH (State (surface s ++ p1) (mask s))) as (p2 & Hrest & Hq1 & Hq2).
    exists (p1 ++ p2). cbn [for_each flat_map].
    erewrite bind_returns by exact Hrun. rewrite Hrest. settle_surface.
    rewrite H1, H2, Hp1, Hp2, Hq1, Hq2. repeat split; reflexivity.
Qed.

(** ** Vertical speed indicator *)

Lemma vsi_label_value (m : Z) :
  (m mod 500 = 0)%Z -> py_round (Rabs (IZR m / 100)) = (Z.abs m / 100)%Z.
Proof.
  intros Hm.
  assert (Hq : exists q, m = (100 * q)%Z).
  { exists (5 * (m / 500))%Z. pose proof (Z.div_mod m 500). lia. }
  destruct Hq as (q & ->).
  rewrite mult_IZR.
  replace (100 * IZR q / 100) with (IZR q) by field.
  rewrite <- abs_IZR, py_round_IZR.
  rewrite Z.abs_mul. change (Z.abs 100) with 100%Z.
  rewrite Z.mul_comm, Z.div_mul by lia. reflexivity.
Qed.

Lemma vsi_mark_spec (m : Z) (s : state) :
  exists prims,
    vsi_mark m s = Returns tt (State (surface s ++ prims) (mask s)) /\
    texts_in largefont prims
    = (if (m mod 500 =? 0)%Z && negb (m =? -2000)%Z
       then [str_int (Z.abs m / 100)] else []) /\
    line_widths prims = [if (m mod 500 =? 0)%Z then 3%Z else 1%Z].
Proof.
  unfold vsi_mark. destruct (m mod 500 =? 0)%Z eqn:Hmod; cbn [negb andb].
  - apply Z.eqb_eq in Hmod. rewrite (vsi_label_value m Hmod).
    destruct (m =? 2000)%Z eqn:H2; destruct (m =? -2000)%Z eqn:Hm2;
      try (apply Z.eqb_eq in H2; apply Z.eqb_eq in Hm2; lia);
      cbn [negb andb]; eexists;
      (split; [run_emits; unfold bind, emit, ret; settle_surface; reflexivity |]);
      split; reflexivity.
  - eexists. split; [reflexivity |]. split; reflexivity.
Qed.

Lemma vsi_needle_angle_cases (vertical_speed : R) :
  -170 <= vsi_needle_angle vertical_speed <= 170 /\
  (-2000 <= vertical_speed <= 2000 ->
   vsi_needle_angle vertical_speed = vertical_speed * vsi_scale) /\
  (2000 < vertical_speed -> vsi_needle_angle vertical_speed = 170) /\
  (vertical_speed < -2000 -> vsi_needle_angle vertical_speed = -170).
Proof.
  unfold vsi_needle_angle, vsi_scale. cbv zeta.
  destruct (Rgt_dec (vertical_speed * (170 / 2000)) 170);
    [| destruct (Rlt_dec (vertical_speed * (170 / 2000)) (-170))];
    repeat split; intros; lra.
Qed.

(** Everything [vsi] draws. *)
Lemma vsi_run (vertical_speed flight_level gps_speed gps_course gps_altitude
               vertical_max vertical_min : R) (error_message : option string)
  (s : state) :
  let a := radians (vsi_needle_angle vertical_speed) in
  let csize := sizey / 2 in
  exists dial,
    vsi vertical_speed flight_level gps_speed gps_course gps_altitude
      vertical_max vertical_min error_message s =
    Returns tt
      (State
         (surface s ++
          [Arc (zerox - csize, 0) (zerox + csize - 1, sizey - 1) 10 350 "white" 2;
           Text (12, zeroy - VERYSMALL - 12) "up" verysmallfont "white";
           Text (12, zeroy + 12) "dn" verysmallfont "white";
           Text (zerox - textlength "Vert Spd" verysmallfont / 2,
                 zeroy - VERYSMALL - 10) "Vert Spd" verysmallfont "white";
           Text (zerox - textlength "100 ft/min" verysmallfont / 2, zeroy + 10)
             "100 ft/min" verysmallfont "white"] ++
          dial ++
          match error_message with
          | Some e => [Text (zerox - textlength e largefont / 2, 30) e
                         largefont "red"]
          | None => []
          end ++
          [Line [(zerox - (csize - 8 - 3) * cos a, zeroy - (csize - 8 - 3) * sin a);
                 (zerox, zeroy)] "white" 1;
           Line [(zerox - (csize - 14 - 3) * cos a, zeroy - (csize - 14 - 3) * sin a);
                 (zerox + 16 * cos a, zeroy + 16 * sin a)] "white" 5;
           Ellipse (zerox - 4, zeroy - 4) (zerox + 4, zeroy + 4)
             (Some "black") (Some "white") 2])
         (mask s)) /\
    texts_in largefont dial
    = flat_map (fun m => if (m mod 500 =? 0)%Z && negb (m =? -2000)%Z
                         then [str_int (Z.abs m / 100)] else [])
        (py_range (-2000) 2100 100) /\
    line_widths dial
    = flat_map (fun m => [if (m mod 500 =? 0)%Z then 3%Z else 1%Z])
        (py_range (-2000) 2100 100).
Proof.
  cbv zeta. unfold vsi. cbv zeta. rewrite !emit_bind. cbn [surface mask].
  match goal with
  | |- context [bind (for_each _ _) _ ?s0] =>
      destruct (for_each_collect (texts_in largefont) line_widths
                  (fun m => if (m mod 500 =? 0)%Z && negb (m =? -2000)%Z
                            then [str_int (Z.abs m / 100)] else [])
                  (fun m => [if (m mod 500 =? 0)%Z then 3%Z else 1%Z])
                  vsi_mark (texts_in_app largefont) eq_refl
                  line_widths_app eq_refl vsi_mark_spec
                  (py_range (-2000) 2100 100) s0)
        as (dial & Hdial & Htexts & Hwidths)
  end.
  exists dial. split; [| split; assumption].
  erewrite bind_returns by exact Hdial.
  destruct error_message as [e |].
  - unfold centered_text. run_emits. unfold emit. settle_surface. reflexivity.
  - run_emits. unfold emit. settle_surface. reflexivity.
Qed.

(** X12.  The needle of [vsi] is drawn at the angle
    [vertical_speed * 170 / 2000] degrees, clamped to -170..170: beyond
    2000 ft/min up or down it rests on the end of the scale.  For every
    value [m] that has a mark on the scale, the needle at
    [vertical_speed = m] has the angle at which that mark is drawn.  The
    two needle lines and the hub are the last things drawn, on top of the
    scale and of the error message. *)
Theorem vsi_needle_follows_scale (vertical_speed flight_level gps_speed
  gps_course gps_altitude vertical_max vertical_min : R)
  (error_message : option string) (s : state) :
  let a := radians (vsi_needle_angle vertical_speed) in
  let csize := sizey / 2 in
  -170 <= vsi_needle_angle vertical_speed <= 170 /\
  (-2000 <= vertical_speed <= 2000 ->
   vsi_needle_angle vertical_speed = vertical_speed * vsi_scale) /\
  (2000 < vertical_speed -> vsi_needle_angle vertical_speed = 170) /\
  (vertical_speed < -2000 -> vsi_needle_angle vertical_speed = -170) /\
  (forall m : Z, In m (py_range (-2000) 2100 100) ->
                 vsi_needle_angle (IZR m) = IZR m * vsi_scale) /\
  exists below,
    vsi vertical_speed flight_level gps_speed gps_course gps_altitude
      vertical_max vertical_min error_message s =
    Returns tt
      (State
         (surface s ++ below ++
          [Line [(zerox - (csize - 8 - 3) * cos a, zeroy - (csize - 8 - 3) * sin a);
                 (zerox, zeroy)] "white" 1;
           Line [(zerox - (csize - 14 - 3) * cos a, zeroy - (csize - 14 - 3) * sin a);
                 (zerox + 16 * cos a, zeroy + 16 * sin a)] "white" 5;
           Ellipse (zerox - 4, zeroy - 4) (zerox + 4, zeroy + 4)
             (Some "black") (Some "white") 2])
         (mask s)).
Proof.
  cbv zeta.
  destruct (vsi_needle_angle_cases vertical_speed) as (Hr & Hin & Hhi & Hlo).
  split; [exact Hr |]. split; [exact Hin |]. split; [exact Hhi |].
  split; [exact Hlo |]. split.
  - intros m Hm. apply py_range_bounds in Hm; [| lia].
    destruct Hm as [[Hlo' Hhi'] Hmod].
    apply (proj1 (proj2 (vsi_needle_angle_cases (IZR m)))).
    assert ((m - -2000) mod 100 = 0)%Z as Hmod' by exact Hmod.
    assert (m <= 2000)%Z.
    { pose proof (Z.div_mod (m - -2000) 100). lia. }
    split; [apply IZR_le; lia | apply IZR_le; assumption].
  - destruct (vsi_run vertical_speed flight_level gps_speed gps_course
                gps_altitude vertical_max vertical_min error_message s)
      as (dial & Hrun & _).
    cbv zeta in Hrun. eexists. rewrite Hrun. f_equal. f_equal.
    rewrite (app_assoc _ dial), (app_assoc _ (match error_message with
                                              | Some _ => _ | None => _ end)).
    reflexivity.
Qed.

(** X13.  The scale of [vsi] has 41 marks, from -2000 to 2000 ft/min in
    steps of 100; the nine at multiples of 500 are drawn 3 wide, the rest
    1 wide.  The long marks are numbered in hundreds of feet, without a
    sign, "15", "10", "5", "0", "5", "10", "15" and "20": the mark at
    -2000 gets no number, so that it cannot collide with the "20" of
    +2000 next to it. *)
Theorem vsi_scale_marks (vertical_speed flight_level gps_speed
  gps_course gps_altitude vertical_max vertical_min : R) (s : state) :
  exists header dial needle,
    vsi vertical_speed flight_level gps_speed gps_course gps_altitude
      vertical_max vertical_min None s =
    Returns tt (State (surface s ++ header ++ dial ++ needle) (mask s)) /\
    List.length header = 5%nat /\ List.length needle = 3%nat /\
    texts_in largefont dial = ["15"; "10"; "5"; "0"; "5"; "10"; "15"; "20"] /\
    List.length (line_widths dial) = 41%nat /\
    List.length (filter (Z.eqb 3) (line_widths dial)) = 9%nat /\
    List.length (filter (Z.eqb 1) (line_widths dial)) = 32%nat.
Proof.
  destruct (vsi_run vertical_speed flight_level gps_speed gps_course
              gps_altitude vertical_max vertical_min None s)
    as (dial & Hrun & Htexts & Hwidths).
  cbv zeta in Hrun. do 3 eexists. split; [exact Hrun |].
  split; [reflexivity |]. split; [reflexivity |].
  rewrite Htexts, Hwidths. repeat split; vm_compute; reflexivity.
Qed.

(** ** G-meter *)

(** The exact list of values a [while] loop with a positive step visits. *)
Lemma mark_values_exact (step end_value : R) (n : nat) :
  0 < step ->
  forall (m : R) (fuel : nat),
    (n < fuel)%nat ->
    end_value < m + INR n * step ->
    (n = 0%nat \/ m + INR n * step - step <= end_value) ->
    mark_values fuel m end_value step
    = Some (map (fun k => m + INR k * step) (seq 0 n)).
Proof.
  intros Hstep. induction n as [| n IH]; intros m fuel Hfuel Hhi Hlo.
  - destruct fuel as [| fuel]; [lia |]. cbn [mark_values INR] in *.
    destruct (Rle_dec m end_value); [lra | reflexivity].
  - destruct fuel as [| fuel]; [lia |].
    destruct Hlo as [Hlo | Hlo]; [discriminate |].
    rewrite S_INR in Hhi, Hlo. pose proof (pos_INR n) as Hn.
    cbn [mark_values].
    destruct (Rle_dec m end_value) as [_ | Hgt]; [| nra].
    rewrite (IH (m + step) fuel); [| lia | lra |].
    + cbn [option_map seq map INR]. f_equal. f_equal; [ring |].
      rewrite <- seq_shift, map_map. apply map_ext. intros k.
      rewrite S_INR. ring.
    + destruct n as [| n]; [left; reflexivity | right]. lra.
Qed.

Lemma flat_map_single {A B} (f : A -> B) (l : list A) :
  flat_map (fun a => [f a]) l = map f l.
Proof. induction l as [| a l IH]; cbn; [reflexivity | now rewrite IH]. Qed.

Lemma flat_map_nothing {A B} (l : list A) :
  flat_map (fun _ : A => @nil B) l = [].
Proof. induction l as [| a l IH]; cbn; [reflexivity | exact IH]. Qed.

(** What [meter] draws once both loops have run. *)
Lemma meter_run_marks (fuel : nat) (current start_value end_value from_degree
  to_degree size cx cy marks_distance small_marks_distance : R)
  (middle_text1 middle_text2 : option string) (smalls larges : list R)
  (s : state) :
  end_value <> start_value ->
  mark_values fuel start_value end_value small_marks_distance = Some smalls ->
  mark_values fuel start_value end_value marks_distance = Some larges ->
  exists marks captions,
    meter fuel current start_value end_value from_degree to_degree size cx cy
      marks_distance small_marks_distance middle_text1 middle_text2 s =
    Returns tt
      (State
         (surface s ++
          [Arc (cx - size / 2, cy - size / 2) (cx + size / 2, cy + size / 2)
             (from_degree - 90) (to_degree - 90) "white" 2] ++
          marks ++
          [Line (map to_point
                   (translate
                      (needle_angle
                         ((to_degree - from_degree) / (end_value - start_value))
                         current start_value end_value from_degree)
                      (arrow size) (cx, cy)))
             "white" 1;
           Ellipse (cx - 5, cy - 5) (cx + 5, cy + 5) (Some "white") None 1] ++
          captions)
         (mask s)) /\
    line_widths marks
    = map (fun _ => 1%Z) smalls ++ map (fun _ => 2%Z) larges /\
    texts_in largefont marks = map str_num larges /\
    captions
    = match middle_text1 with
      | Some mt => [Text (cx - textlength mt smallfont / 2, cy - SMALL - 15)
                      mt smallfont "yellow"]
      | None => []
      end ++
      match middle_text2 with
      | Some mt => [Text (cx - textlength mt smallfont / 2, cy + 15)
                      mt smallfont "yellow"]
      | None => []
      end.
Proof.
  intros Hdom Hs Hl.
  set (dpv := (to_degree - from_degree) / (end_value - start_value)).
  assert (Hsmall : forall l s0, exists all,
             for_each l (small_mark dpv start_value from_degree size cx cy) s0
             = Returns tt (State (surface s0 ++ all) (mask s0)) /\
             texts_in largefont all = flat_map (fun _ => []) l /\
             line_widths all = flat_map (fun _ => [1%Z]) l).
  { apply (for_each_collect (texts_in largefont) line_widths
             (fun _ : R => @nil string) (fun _ : R => [1%Z]));
      [apply texts_in_app | reflexivity | apply line_widths_app | reflexivity |].
    intros b s0. eexists. split; [apply small_mark_run |].
    split; reflexivity. }
  assert (Hlarge : forall l s0, exists all,
             for_each l (large_mark dpv start_value from_degree size cx cy) s0
             = Returns tt (State (surface s0 ++ all) (mask s0)) /\
             texts_in largefont all = flat_map (fun m => [str_num m]) l /\
             line_widths all = flat_map (fun _ => [2%Z]) l).
  { apply (for_each_collect (texts_in largefont) line_widths
             (fun m : R => [str_num m]) (fun _ : R => [2%Z]));
      [apply texts_in_app | reflexivity | apply line_widths_app | reflexivity |].
    intros b s0. eexists. split.
    - unfold large_mark. run_emits. unfold emit. settle_surface. reflexivity.
    - split; reflexivity. }
  unfold meter. erewrite bind_returns by (apply pydiv_nonzero; lra).
  fold dpv. rewrite emit_bind. cbn [surface mask].
  match goal with
  | |- context [bind (while_le _ _ _ small_marks_distance _) _ ?s0] =>
      destruct (Hsmall smalls s0) as (a1 & Hr1 & Ht1 & Hw1)
  end.
  rewrite (bind_returns _ _ _ _ _
             (eq_trans (while_le_mark_values _ _ _ _ smalls Hs _ _) Hr1)).
  match goal with
  | |- context [bind (while_le _ _ _ marks_distance _) _ ?s0] =>
      destruct (Hlarge larges s0) as (a2 & Hr2 & Ht2 & Hw2)
  end.
  rewrite (bind_returns _ _ _ _ _
             (eq_trans (while_le_mark_values _ _ _ _ larges Hl _ _) Hr2)).
  exists (a1 ++ a2). eexists. split; [| split; [| split; [| reflexivity]]].
  - run_emits.
    destruct middle_text1 as [m1 |]; destruct middle_text2 as [m2 |];
      unfold bind, emit, ret; settle_surface; reflexivity.
  - rewrite line_widths_app, Hw1, Hw2.
    rewrite (flat_map_single (fun _ : R => 1%Z)), (flat_map_single (fun _ : R => 2%Z)).
    reflexivity.
  - rewrite texts_in_app, Ht1, Ht2, flat_map_nothing, flat_map_single.
    reflexivity.
Qed.

(** X14.  [gmeter] draws the gauge on the scale -3..5 g over 120..420
    degrees.  Its loops terminate (34 iterations of fuel are enough for
    each), and because both spacings divide the scale the end value 5 has
    its marks: 33 small marks (1 wide) and 9 large marks (2 wide), the
    large ones numbered [str(-3)] to [str(5)].  The needle is drawn at
    232.5 + 37.5 g degrees for the value g clamped to -3..5. *)
Theorem gmeter_scale (fuel : nat) (current maxg ming : R) (s : state) :
  (34 <= fuel)%nat ->
  exists marks rest,
    gmeter fuel current maxg ming None s =
    Returns tt
      (State
         (surface s ++
          [Arc (sizex / 2 - (sizey - 2) / 2, sizey / 2 - (sizey - 2) / 2)
             (sizex / 2 + (sizey - 2) / 2, sizey / 2 + (sizey - 2) / 2)
             (120 - 90) (420 - 90) "white" 2] ++
          marks ++
          [Line (map to_point
                   (translate (465 / 2 + 75 / 2 * normalize_current current (-3) 5)
                      (arrow (sizey - 2)) (sizex / 2, sizey / 2)))
             "white" 1] ++
          rest)
         (mask s)) /\
    line_widths marks = repeat 1%Z 33 ++ repeat 2%Z 9 /\
    texts_in largefont marks = map str_num [-3; -2; -1; 0; 1; 2; 3; 4; 5].
Proof.
  intros Hfuel.
  assert (Hs : mark_values fuel (-3) 5 (1 / 4)
               = Some (map (fun k => -3 + INR k * (1 / 4)) (seq 0 33))).
  { apply mark_values_exact; [lra | lia | |].
    - change (INR 33) with (IZR (Z.of_nat 33)) || rewrite INR_IZR_INZ.
      cbn [Z.of_nat Pos.of_succ_nat Pos.succ]. lra.
    - right. rewrite INR_IZR_INZ. cbn [Z.of_nat Pos.of_succ_nat Pos.succ]. lra. }
  assert (Hl : mark_values fuel (-3) 5 1
               = Some (map (fun k => -3 + INR k * 1) (seq 0 9))).
  { apply mark_values_exact; [lra | lia | |].
    - rewrite INR_IZR_INZ. cbn [Z.of_nat Pos.of_succ_nat Pos.succ]. lra.
    - right. rewrite INR_IZR_INZ. cbn [Z.of_nat Pos.of_succ_nat Pos.succ]. lra. }
  destruct (meter_run_marks fuel current (-3) 5 120 420 (sizey - 2) (sizex / 2)
              (sizey / 2) 1 (1 / 4) (Some "G-Meter") None _ _ s
              ltac:(lra) Hs Hl)
    as (marks & captions & Hrun & Hw & Ht & Hcap).
  exists marks. eexists. split; [| split].
  - unfold gmeter. erewrite bind_returns by exact Hrun.
    cbn [truthy]. unfold right_text, centered_text.
    run_emits. unfold emit. settle_surface.
    replace (needle_angle ((420 - 120) / (5 - -3)) current (-3) 5 120)
      with (465 / 2 + 75 / 2 * normalize_current current (-3) 5)
      by (unfold needle_angle; field).
    reflexivity.
  - rewrite Hw, !map_map. reflexivity.
  - rewrite Ht. f_equal. cbn [seq map INR].
    repeat (f_equal; try lra).
Qed.

(** ** Capacity bar, continued *)

(** X15.  [bar] returns for every input: the division by [max_val] is
    guarded, and for [max_val = 0] the fill is empty.  Otherwise the fill
    ends at [bar_start + (bar_end - bar_start) * v / max_val] where [v] is
    the value raised to [minval] if it is below; the colour is chosen from
    the value as given, before that floor.  When the value does not
    exceed a positive [max_val] and [minval] lies in 0..[max_val], the
    fill stays inside the bar. *)
Theorem bar_guarded_and_floored (y : R) (text : string)
  (val max_val yellow red : R) (unit : string) (valtext : option string)
  (minval : R) (s : state) :
  exists (xval : R) (scale_text value_text : prim),
    bar y text val max_val yellow red unit valtext minval s =
    Returns (y + VERYSMALL + 5)
      (State
         (surface s ++
          [Text (0, y) text verysmallfont "white";
           scale_text;
           RoundedRectangle (bar_start - 2, y - 2) (bar_end + 2, y + VERYSMALL + 2)
             3 None (Some "white");
           Rectangle (bar_start, y) (xval, y + VERYSMALL)
             (Some (bar_color val yellow red)) None;
           value_text])
         (mask s)) /\
    (max_val = 0 -> xval = bar_start) /\
    (max_val <> 0 ->
     xval = bar_start + (bar_end - bar_start) * Rmax val minval / max_val) /\
    (0 < max_val -> 0 <= minval <= max_val -> val <= max_val ->
     bar_start <= xval <= bar_end).
Proof.
  do 3 eexists. split; [apply bar_run |]. cbv zeta.
  destruct (Req_dec_T max_val 0) as [H0 | Hn0].
  - split; [reflexivity |]. split; [contradiction |].
    intros. lra.
  - split; [contradiction |].
    assert (Hmax : (if Rlt_dec val minval then minval else val) = Rmax val minval).
    { unfold Rmax. destruct (Rlt_dec val minval); destruct (Rle_dec val minval); lra. }
    rewrite Hmax. split; [reflexivity |].
    intros Hpos Hmin Hval. unfold bar_start, bar_end.
    assert (Hv : 0 <= Rmax val minval <= max_val).
    { unfold Rmax. destruct (Rle_dec val minval); lra. }
    assert (Hq : 0 <= Rmax val minval / max_val <= 1).
    { split.
      - apply Rmult_le_pos; [lra |]. apply Rlt_le, Rinv_0_lt_compat. exact Hpos.
      - apply Rmult_le_reg_r with max_val; [exact Hpos |].
        unfold Rdiv. rewrite Rmult_assoc, Rinv_l by lra. lra. }
    unfold Rdiv in *. rewrite Rmult_assoc. nra.
Qed.

(** X16.  The value [bar] returns is where the next bar goes: after
    [y' = bar(y, ...)] and [bar(y', ...)] the frame of the first bar ends
    at y + 20 and the frame of the second starts at y + 21, whatever the
    values shown. *)
Theorem bars_stack_without_overlap (y : R) (text1 text2 : string)
  (val1 max1 yellow1 red1 val2 max2 yellow2 red2 : R) (unit1 unit2 : string)
  (valtext1 valtext2 : option string) (minval1 minval2 : R) (s : state) :
  exists a b c : list prim,
    (y' <- bar y text1 val1 max1 yellow1 red1 unit1 valtext1 minval1 ;;
     bar y' text2 val2 max2 yellow2 red2 unit2 valtext2 minval2) s =
    Returns (y + 46)
      (State
         (surface s ++ a ++
          [RoundedRectangle (bar_start - 2, y - 2) (bar_end + 2, y + 20)
             3 None (Some "white")] ++ b ++
          [RoundedRectangle (bar_start - 2, y + 21) (bar_end + 2, y + 43)
             3 None (Some "white")] ++ c)
         (mask s)) /\
    List.length a = 2%nat /\ List.length b = 4%nat /\ List.length c = 2%nat.
Proof.
  eexists [_; _], [_; _; _; _], [_; _].
  split; [| repeat split].
  erewrite bind_returns by apply bar_run. rewrite bar_run.
  cbv zeta. unfold VERYSMALL. settle_surface.
  replace (y + 18 + 5 + 18 + 5) with (y + 46) by ring.
  replace (y + 18 + 2) with (y + 20) by ring.
  replace (y + 18 + 5 - 2) with (y + 21) by ring.
  replace (y + 18 + 5 + 18 + 2) with (y + 43) by ring.
  reflexivity.
Qed.

(** ** Status panels *)

Lemma round_text_run (x y : R) (text : string) (c : color) (s : state) :
  round_text x y text c s =
  Returns (x + textlength text verysmallfont + 5)
    (State
       (surface s ++
        [RoundedRectangle (x - 2, y - 1)
           (x + textlength text verysmallfont + 2, y + VERYSMALL + 1)
           4 (Some c) None;
         Text (x, y) text verysmallfont "white"])
       (mask s)).
Proof. unfold round_text. run_emits. reflexivity. Qed.

(** X17.  [round_text] returns the x at which the next label goes: two
    labels chained on one line are drawn as two boxes, the first ending
    at [x + w1 + 2] and the second starting at [x + w1 + 3], so they
    never overlap whatever the widths of the texts. *)
Theorem round_text_chain (x y : R) (text1 text2 : string) (c1 c2 : color)
  (s : state) :
  let w1 := textlength text1 verysmallfont in
  let w2 := textlength text2 verysmallfont in
  (x' <- round_text x y text1 c1 ;; round_text x' y text2 c2) s =
  Returns (x + w1 + w2 + 10)
    (State
       (surface s ++
        [RoundedRectangle (x - 2, y - 1) (x + w1 + 2, y + 19) 4 (Some c1) None;
         Text (x, y) text1 verysmallfont "white";
         RoundedRectangle (x + w1 + 3, y - 1) (x + w1 + w2 + 7, y + 19) 4
           (Some c2) None;
         Text (x + w1 + 5, y) text2 verysmallfont "white"])
       (mask s)).
Proof.
  cbv zeta. erewrite bind_returns by apply round_text_run.
  rewrite round_text_run. unfold VERYSMALL. settle_surface.
  set (w1 := textlength text1 verysmallfont).
  set (w2 := textlength text2 verysmallfont).
  replace (x + w1 + 5 + w2 + 5) with (x + w1 + w2 + 10) by ring.
  replace (y + 18 + 1) with (y + 19) by ring.
  replace (x + w1 + 5 - 2) with (x + w1 + 3) by ring.
  replace (x + w1 + 5 + w2 + 2) with (x + w1 + w2 + 7) by ring.
  reflexivity.
Qed.

Lemma for_fold_app {B S} (l l' : list B) (acc : S) (body : B -> S -> M S)
  (s : state) :
  for_fold (l ++ l') acc body s
  = bind (for_fold l acc body) (fun acc' => for_fold l' acc' body) s.
Proof.
  revert acc s. induction l as [| b l IH]; intros acc s; [reflexivity |].
  cbn [app for_fold]. rewrite bind_bind. unfold bind.
  destruct (body b acc s); try reflexivity.
  rewrite IH. reflexivity.
Qed.

Lemma dashboard_rows (x sizex : R) (lines : list (string * string)) :
  forall (y : R) (a : nat) (s : state),
    for_fold lines (y + (SMALL + 2) * INR a) (dashboard_line x sizex) s =
    Returns (y + (SMALL + 2) * INR (a + List.length lines))
      (State
         (surface s ++
          flat_map
            (fun kl =>
               [Text (x, y + (SMALL + 2) * INR (fst kl)) (fst (snd kl))
                  smallfont "white";
                Text (x + sizex - textlength (snd (snd kl)) smallfont,
                      y + (SMALL + 2) * INR (fst kl)) (snd (snd kl))
                  smallfont "white"])
            (combine (seq a (List.length lines)) lines))
         (mask s)).
Proof.
  induction lines as [| line lines IH]; intros y a s.
  - cbn. rewrite Nat.add_0_r, app_nil_r, state_eta. reflexivity.
  - cbn [for_fold List.length seq combine flat_map].
    unfold dashboard_line at 1. rewrite bind_bind, emit_bind, bind_bind, emit_bind.
    rewrite ret_bind. cbn [surface mask fst snd].
    replace (y + (SMALL + 2) * INR a + (SMALL + 2))
      with (y + (SMALL + 2) * INR (S a)) by (rewrite S_INR; ring).
    rewrite IH. settle_surface.
    replace (S a + List.length lines)%nat with (a + S (List.length lines))%nat by lia.
    reflexivity.
Qed.

(** X18.  [dashboard] draws line number k (from 0) at [y + 23 * k], the
    label at [x] and the value right-aligned so that it ends at
    [x + sizex], and returns [y + 23 * n] for n lines.  Drawing a list of
    lines is the same as drawing a first part and then the rest at the
    returned y. *)
Theorem dashboard_layout (x y sizex : R) (lines more : list (string * string))
  (s : state) :
  dashboard x y sizex lines s =
  Returns (y + 23 * INR (List.length lines))
    (State
       (surface s ++
        flat_map
          (fun kl =>
             [Text (x, y + 23 * INR (fst kl)) (fst (snd kl)) smallfont "white";
              Text (x + sizex - textlength (snd (snd kl)) smallfont,
                    y + 23 * INR (fst kl)) (snd (snd kl)) smallfont "white"])
          (combine (seq 0 (List.length lines)) lines))
       (mask s)) /\
  dashboard x y sizex (lines ++ more) s
  = (y' <- dashboard x y sizex lines ;; dashboard x y' sizex more) s.
Proof.
  split.
  - unfold dashboard.
    pose proof (dashboard_rows x sizex lines y 0 s) as H.
    cbn [INR Nat.add] in H. rewrite Rmult_0_r, Rplus_0_r in H.
    unfold SMALL in H. replace (21 + 2) with 23 in H by ring.
    exact H.
  - unfold dashboard. apply for_fold_app.
Qed.

(** ** Flight log *)

Lemma flight_row_run (f : flight) (starty : R) (s : state) :
  exists row,
    flight_row f starty s = Returns tt (State (surface s ++ row) (mask s)) /\
    List.length row = 5%nat.
Proof.
  unfold flight_row. destruct (snd f) as [landing |].
  - eexists. split.
    + run_emits. rewrite bind_bind, emit_bind, ret_bind.
      erewrite bind_returns by apply round_text_run.
      unfold ret. settle_surface. reflexivity.
    + reflexivity.
  - eexists. split.
    + run_emits. rewrite bind_bind, emit_bind, ret_bind.
      erewrite bind_returns by apply round_text_run.
      unfold ret. settle_surface. reflexivity.
    + reflexivity.
Qed.

Lemma row_positions_shift (y : R) (m : nat) :
  map (fun k => y + 19 * INR k) (seq 0 (S m))
  = y :: map (fun k => y + 19 + 19 * INR k) (seq 0 m).
Proof.
  cbn [seq map INR]. f_equal; [ring |].
  rewrite <- seq_shift, map_map. apply map_ext. intros k. rewrite S_INR. ring.
Qed.

(** The loop with its counter is a loop over at most [maxlines] entries. *)
Lemma flight_rows_bounded (last_flights : list flight) :
  forall (y : R) (m : nat) (s : state),
    flight_rows last_flights y (Z.of_nat (S m)) s =
    for_each (combine (map (fun k => y + 19 * INR k) (seq 0 (S m))) last_flights)
      (fun yf => flight_row (snd yf) (fst yf)) s.
Proof.
  induction last_flights as [| f rest IH]; intros y m s.
  - rewrite row_positions_shift. reflexivity.
  - rewrite row_positions_shift. cbn [flight_rows combine for_each fst snd].
    unfold bind. destruct (flight_row f y s) as [[] s' | e s' |]; try reflexivity.
    destruct m as [| m].
    + reflexivity.
    + destruct (Z.leb_spec (Z.of_nat (S (S m)) - 1) 0) as [Hle | _]; [lia |].
      replace (Z.of_nat (S (S m)) - 1)%Z with (Z.of_nat (S m)) by lia.
      unfold VERYSMALL. replace (y + (18 + 1)) with (y + 19) by ring.
      apply IH.
Qed.

(** X19.  [flighttime] lists at most eight flights, however long the log
    is: after the headline and the four column titles it draws the first
    eight entries, one row of five primitives every 19 pixels starting at
    y = 55, and nothing for the entries after the eighth. *)
Theorem flighttime_lists_eight (last_flights : list flight) (s : state) :
  let header :=
    centered_text 0 "Flight Logs" smallfont "yellow" ;;
    emit (Text (15, 29) "Date" verysmallfont "white") ;;
    emit (Text (100, 29) "Start" verysmallfont "white") ;;
    emit (Text (160, 29) "Dur" verysmallfont "white") ;;
    emit (Text (220, 29) "Ldg" verysmallfont "white") in
  flighttime last_flights s =
  (header ;;
   for_each (combine (map (fun k => 55 + 19 * INR k) (seq 0 8)) last_flights)
     (fun yf => flight_row (snd yf) (fst yf))) s /\
  exists titles rows,
    flighttime last_flights s
    = Returns tt (State (surface s ++ titles ++ rows) (mask s)) /\
    List.length titles = 5%nat /\
    List.length rows = (5 * Nat.min 8 (List.length last_flights))%nat.
Proof.
  cbv zeta.
  assert (Hunfold : flighttime last_flights s =
            ((centered_text 0 "Flight Logs" smallfont "yellow" ;;
              emit (Text (15, 29) "Date" verysmallfont "white") ;;
              emit (Text (100, 29) "Start" verysmallfont "white") ;;
              emit (Text (160, 29) "Dur" verysmallfont "white") ;;
              emit (Text (220, 29) "Ldg" verysmallfont "white")) ;;
             for_each
               (combine (map (fun k => 55 + 19 * INR k) (seq 0 8)) last_flights)
               (fun yf => flight_row (snd yf) (fst yf))) s).
  { unfold flighttime, centered_text. cbv zeta. unfold SMALL, VERYSMALL.
    replace (0 + (21 + 8)) with 29 by ring.
    replace (29 + (18 + 8)) with 55 by ring.
    repeat (rewrite bind_bind || rewrite emit_bind || rewrite ret_bind).
    settle_surface. exact (flight_rows_bounded last_flights 55 7 _). }
  split; [exact Hunfold |].
  rewrite Hunfold. unfold centered_text.
  repeat (rewrite bind_bind || rewrite emit_bind || rewrite ret_bind).
  settle_surface.
  match goal with
  | |- context [for_each ?l ?body ?s0] =>
      destruct (for_each_collect (map (fun _ => tt)) (map (fun _ => tt))
                  (fun _ => repeat tt 5) (fun _ => repeat tt 5) body
                  (fun a b => map_app _ a b) eq_refl
                  (fun a b => map_app _ a b) eq_refl) with l s0
        as (rows & Hrows & Hlen & _)
  end.
  { intros [y f] s0. cbn [fst snd].
    destruct (flight_row_run f y s0) as (row & Hrow & Hlen).
    exists row. split; [exact Hrow |].
    assert (Hr : map (fun _ : prim => tt) row = repeat tt 5).
    { destruct row as [| ? [| ? [| ? [| ? [| ? [| ? ?]]]]]]; try discriminate.
      reflexivity. }
    split; exact Hr. }
  eexists [_; _; _; _; _], rows. split; [| split; [reflexivity |]].
  - rewrite Hrows. settle_surface. reflexivity.
  - apply (f_equal (@List.length unit)) in Hlen.
    rewrite length_map in Hlen. rewrite Hlen.
    rewrite (flat_map_constant_length (c := 5)) by (intros; reflexivity).
    rewrite length_combine, length_map, length_seq. lia.
Qed.

Lemma floor_bounds (x : R) : IZR (py_floor x) <= x < IZR (py_floor x) + 1.
Proof. apply Int_part_bounds. Qed.

(** X20.  The duration [flighttime] prints is the elapsed time rounded
    down to whole minutes: for every number of seconds the minutes field
    lies in 0..59 and sixty times the hours field plus the minutes field
    is the number of whole minutes.  3725 seconds print as "01:02". *)
Theorem flight_duration_whole_minutes (delta : R) :
  let hours := py_floor (delta / 3600) in
  let minutes := py_floor ((delta - IZR hours * 3600) / 60) in
  flight_duration delta = (format_02 hours ++ ":" ++ format_02 minutes)%string /\
  (0 <= minutes < 60)%Z /\
  (60 * hours + minutes)%Z = py_floor (delta / 60) /\
  flight_duration 3725 = "01:02".
Proof.
  cbv zeta.
  assert (Hformat : forall d,
            flight_duration d
            = (format_02 (py_floor (d / 3600)) ++ ":" ++
               format_02 (py_floor ((d - IZR (py_floor (d / 3600)) * 3600) / 60)))%string).
  { intros d. unfold flight_duration, py_divmod. cbn [fst snd].
    rewrite !py_int_IZR. reflexivity. }
  pose proof (floor_bounds (delta / 3600)) as Hh.
  set (h := py_floor (delta / 3600)) in *.
  pose proof (floor_bounds ((delta - IZR h * 3600) / 60)) as Hm.
  set (mi := py_floor ((delta - IZR h * 3600) / 60)) in *.
  assert (Hd : IZR h * 3600 <= delta < IZR h * 3600 + 3600) by lra.
  assert (Hr : IZR mi * 60 <= delta - IZR h * 3600 < IZR mi * 60 + 60) by lra.
  assert (Hrange : (0 <= mi < 60)%Z).
  { split.
    - assert (-1 < IZR mi) by lra. apply lt_IZR in H. lia.
    - assert (IZR mi < 60) by lra. apply lt_IZR in H. lia. }
  split; [rewrite Hformat; reflexivity |].
  split; [exact Hrange |]. split.
  - apply Int_part_spec. rewrite plus_IZR, mult_IZR. lra.
  - rewrite Hformat.
    assert (H1 : py_floor (3725 / 3600) = 1%Z)
      by (symmetry; apply Int_part_spec; lra).
    rewrite H1.
    assert (H2 : py_floor ((3725 - 1 * 3600) / 60) = 2%Z)
      by (symmetry; apply Int_part_spec; lra).
    rewrite H2. reflexivity.
Qed.

(** ** Time-series graph, continued *)

Lemma graph_sample_y_value_inside (ypos ysize minvalue maxvalue d : R) :
  minvalue < maxvalue -> 1 <= ysize -> minvalue <= d ->
  let y0 := ypos - 1 + ysize - ysize * (d - minvalue) / (maxvalue - minvalue) in
  ypos <= (if Rlt_dec y0 ypos then ypos else y0) <= ypos + ysize - 1.
Proof.
  intros Hdom Hsize Hd. cbv zeta.
  destruct (scaled_fraction_bounds ysize minvalue maxvalue d Hdom) as (_ & Hlo & _);
    [lra |].
  specialize (Hlo Hd).
  destruct (Rlt_dec _ ypos); lra.
Qed.

Lemma sample_x_inside (xpos xsize : R) (i n : nat) :
  0 <= xsize -> (i < n)%nat -> (2 <= n)%nat ->
  xpos <= xpos + INR i * xsize / IZR (Z.of_nat n - 1) <= xpos + xsize.
Proof.
  intros Hx Hi Hn.
  assert (Hden : IZR (Z.of_nat n - 1) = INR n - 1).
  { rewrite minus_IZR, <- INR_IZR_INZ. reflexivity. }
  rewrite Hden.
  assert (Hn' : 1 <= INR n - 1).
  { apply le_INR in Hn. change (INR 2) with (1 + 1) in Hn. lra. }
  assert (Hi' : 0 <= INR i <= INR n - 1).
  { split; [apply pos_INR |].
    assert (S i <= n)%nat as H by lia. apply le_INR in H. rewrite S_INR in H. lra. }
  assert (Hq : 0 <= INR i / (INR n - 1) <= 1).
  { split.
    - apply Rmult_le_pos; [lra |]. apply Rlt_le, Rinv_0_lt_compat. lra.
    - apply Rmult_le_reg_r with (INR n - 1); [lra |].
      unfold Rdiv. rewrite Rmult_assoc, Rinv_l by lra. lra. }
  replace (INR i * xsize / (INR n - 1)) with (xsize * (INR i / (INR n - 1)))
    by (field; lra).
  nra.
Qed.

(** X21.  The loop of [graph] over the samples keeps every sample that is
    not below [minvalue] inside the plot box vertically, also those above
    [maxvalue]: it draws one segment less than there are samples, and
    each end of each segment has its y in [ypos, ypos + ysize - 1] and
    its x in [xpos, xpos + xsize] (the last sample is at [xpos + xsize],
    one pixel to the right of the frame, which ends at [xpos + xsize - 1]). *)
Theorem graph_samples_stay_in_box (xpos ypos xsize ysize minvalue maxvalue : R)
  (data : list R) (x0 : R) (s : state) :
  minvalue < maxvalue -> 1 <= ysize -> 0 <= xsize ->
  Forall (fun d => minvalue <= d) data ->
  exists segments vars,
    for_fold (seq 0 (List.length data)) (x0, None)
      (graph_sample xpos ypos xsize ysize minvalue maxvalue data) s
    = Returns vars (State (surface s ++ segments) (mask s)) /\
    List.length segments = (List.length data - 1)%nat /\
    Forall
      (fun p => exists x1 y1 x2 y2,
           p = Line [(x1, y1); (x2, y2)] "cyan" 2 /\
           xpos <= x1 <= xpos + xsize /\ ypos <= y1 <= ypos + ysize - 1 /\
           xpos <= x2 <= xpos + xsize /\ ypos <= y2 <= ypos + ysize - 1)
      segments.
Proof.
  intros Hdom Hsize Hx Hdata.
  assert (Hnth : forall i, (i < List.length data)%nat -> minvalue <= nth i data 0).
  { intros i Hi. rewrite Forall_forall in Hdata. apply Hdata, nth_In, Hi. }
  assert (Htail : forall k a x lp s0,
             (1 <= a)%nat -> (a + k <= List.length data)%nat ->
             xpos <= fst lp <= xpos + xsize ->
             ypos <= snd lp <= ypos + ysize - 1 ->
             exists segments vars,
               for_fold (seq a k) (x, Some lp)
                 (graph_sample xpos ypos xsize ysize minvalue maxvalue data) s0
               = Returns vars (State (surface s0 ++ segments) (mask s0)) /\
               List.length segments = k /\
               Forall
                 (fun p => exists x1 y1 x2 y2,
                      p = Line [(x1, y1); (x2, y2)] "cyan" 2 /\
                      xpos <= x1 <= xpos + xsize /\ ypos <= y1 <= ypos + ysize - 1 /\
                      xpos <= x2 <= xpos + xsize /\ ypos <= y2 <= ypos + ysize - 1)
                 segments).
  { induction k as [| k IH]; intros a x lp s0 Ha Hak Hlx Hly.
    - exists [], (x, Some lp). cbn. rewrite app_nil_r, state_eta.
      repeat split. constructor.
    - cbn [seq for_fold].
      erewrite bind_returns.
      2:{ apply graph_sample_run; [lra | exact Ha | lia]. }
      pose proof (graph_sample_y_value_inside ypos ysize minvalue maxvalue
                    (nth a data 0) Hdom Hsize (Hnth a ltac:(lia))) as Hy.
      pose proof (sample_x_inside xpos xsize a (List.length data) Hx
                    ltac:(lia) ltac:(lia)) as Hxa.
      cbv zeta in Hy.
      match goal with
      | |- context [for_fold (seq (S a) k) (?x', Some ?lp') _ ?s1] =>
          destruct (IH (S a) x' lp' s1 ltac:(lia) ltac:(lia) Hxa Hy)
            as (segs & vars & Hrun & Hlen & Hall)
      end.
      eexists. exists vars. split; [| split].
      + rewrite Hrun. settle_surface. reflexivity.
      + cbn [List.length]. rewrite Hlen. reflexivity.
      + constructor; [| exact Hall].
        destruct lp as [lx ly]. cbn [fst snd] in *.
        do 4 eexists. split; [reflexivity |]. repeat split; lra. }
  destruct data as [| d data'].
  - exists [], (x0, None). cbn. rewrite app_nil_r, state_eta.
    repeat split. constructor.
  - cbn [List.length seq for_fold].
    erewrite bind_returns by (apply graph_first_sample_run; lra).
    pose proof (graph_sample_y_value_inside ypos ysize minvalue maxvalue
                  (nth 0 (d :: data') 0) Hdom Hsize
                  (Hnth 0%nat ltac:(cbn; lia))) as Hy.
    cbv zeta in Hy.
    match goal with
    | |- context [for_fold (seq 1 _) (?x', Some ?lp') _ ?s1] =>
        destruct (Htail (List.length data') 1%nat x' lp' s1
                    ltac:(lia) ltac:(cbn [List.length]; lia)
                    ltac:(cbn [fst]; lra) Hy)
          as (segs & vars & Hrun & Hlen & Hall)
    end.
    exists segs, vars. split; [exact Hrun |]. split; [| exact Hall].
    rewrite Hlen. lia.
Qed.

(** ** Compass rose, continued *)

Lemma pasted_labels_app (l l' : list prim) :
  pasted_labels (l ++ l') = pasted_labels l ++ pasted_labels l'.
Proof.
  induction l as [| p l IH]; [reflexivity |].
  destruct p; cbn [app pasted_labels]; rewrite ?IH, ?app_assoc; reflexivity.
Qed.

(** As [for_each_collect], for a body that may also redraw the mask and
    is only known on the elements of the list. *)
Lemma for_each_collect_in {B X Y} (proj1 : list prim -> list X)
  (proj2 : list prim -> list Y) (g1 : B -> list X) (g2 : B -> list Y)
  (body : B -> M unit) (l : list B) :
  (forall a b, proj1 (a ++ b) = proj1 a ++ proj1 b) -> proj1 [] = [] ->
  (forall a b, proj2 (a ++ b) = proj2 a ++ proj2 b) -> proj2 [] = [] ->
  (forall b s, In b l -> exists prims mask',
      body b s = Returns tt (State (surface s ++ prims) mask') /\
      proj1 prims = g1 b /\ proj2 prims = g2 b) ->
  forall s, exists all mask',
      for_each l body s = Returns tt (State (surface s ++ all) mask') /\
      proj1 all = flat_map g1 l /\ proj2 all = flat_map g2 l.
Proof.
  intros H1 H1n H2 H2n. induction l as [| b l IH]; intros Hbody s.
  - exists [], (mask s). cbn. rewrite app_nil_r, state_eta.
    repeat split; assumption.
  - destruct (Hbody b s (or_introl eq_refl)) as (p1 & m1 & Hrun & Hp1 & Hp2).
    destruct (IH (fun b' s' Hin => Hbody b' s' (or_intror Hin))
                (State (surface s ++ p1) m1)) as (p2 & m2 & Hrest & Hq1 & Hq2).
    exists (p1 ++ p2), m2. cbn [for_each flat_map].
    erewrite bind_returns by exact Hrun. rewrite Hrest. settle_surface.
    rewrite H1, H2, Hp1, Hp2, Hq1, Hq2. repeat split; reflexivity.
Qed.

Lemma py_int_tenth (m : Z) : (0 <= m)%Z -> py_int (IZR m / 10) = (m / 10)%Z.
Proof.
  intros Hm. unfold py_int.
  pose proof (Z.div_mod m 10 ltac:(lia)) as Hdm.
  pose proof (Z.mod_pos_bound m 10 ltac:(lia)) as Hr.
  assert (Hq : IZR m = 10 * IZR (m / 10) + IZR (m mod 10)).
  { rewrite <- mult_IZR, <- plus_IZR. f_equal. exact Hdm. }
  assert (Hr' : 0 <= IZR (m mod 10) < 10).
  { split; [apply IZR_le; lia | apply IZR_lt; lia]. }
  assert (Hpos : 0 <= IZR (m / 10)).
  { apply IZR_le. apply Z.div_pos; lia. }
  destruct (Rle_dec 0 (IZR m / 10)) as [_ | Hneg]; [| lra].
  symmetry. apply Int_part_spec. lra.
Qed.

(** X22.  One call of [compass], for every heading and with or without an
    error message, pastes exactly twelve labels, in the order of the
    bearings 0, 30, ..., 330: "N", "3", "6", "E", "12", "15", "S", "21",
    "24", "W", "30", "33", each through a stencil that holds that one
    label and is turned by the heading minus its bearing. *)
Theorem compass_rose_labels (heading : R) (error_message : option string)
  (s : state) :
  exists s',
    compass heading error_message s = Returns tt s' /\
    pasted_rotations (surface s')
    = pasted_rotations (surface s) ++
      [heading - 0; heading - 30; heading - 60; heading - 90; heading - 120;
       heading - 150; heading - 180; heading - 210; heading - 240;
       heading - 270; heading - 300; heading - 330] /\
    pasted_labels (surface s')
    = pasted_labels (surface s) ++
      ["N"; "3"; "6"; "E"; "12"; "15"; "S"; "21"; "24"; "W"; "30"; "33"].
Proof.
  set (label := fun m : Z =>
                  if (m =? 0)%Z then "N" else if (m =? 90)%Z then "E"
                  else if (m =? 180)%Z then "S" else if (m =? 270)%Z then "W"
                  else str_int (m / 10)).
  assert (Hstep : forall m s0, In m (py_range 0 360 10) ->
            exists prims mask',
              compass_step heading m s0
              = Returns tt (State (surface s0 ++ prims) mask') /\
              pasted_rotations prims
              = (if (m mod 30 =? 0)%Z then [heading - IZR m] else []) /\
              pasted_labels prims
              = (if (m mod 30 =? 0)%Z then [label m] else [])).
  { intros m s0 Hin. apply py_range_bounds in Hin; [| lia].
    destruct Hin as [[Hlo Hhi] _].
    destruct (m mod 30 =? 0)%Z eqn:Hmod.
    - apply Z.eqb_eq in Hmod.
      destruct (compass_step_long heading m s0 Hmod) as (tick & Hrun).
      do 2 eexists. split; [exact Hrun |].
      assert (Hline : forall l, tick :: l = [tick] ++ l) by reflexivity.
      unfold compass_step in Hrun.
      replace (m mod 30 =? 0)%Z with true in Hrun
        by (symmetry; apply Z.eqb_eq; exact Hmod).
      cbn [negb] in Hrun. rewrite emit_bind in Hrun.
      unfold bind, mask_blank, mask_text, mask_rotate, emit in Hrun.
      cbn [surface mask] in Hrun. injection Hrun as Hsurf.
      rewrite <- app_assoc in Hsurf. apply app_inv_head in Hsurf.
      injection Hsurf as <- _.
      split; [reflexivity |].
      cbn [pasted_labels bm_glyphs map g_text app]. f_equal.
      unfold compass_mark, label.
      destruct (m =? 0)%Z; [reflexivity |]. destruct (m =? 90)%Z; [reflexivity |].
      destruct (m =? 180)%Z; [reflexivity |]. destruct (m =? 270)%Z; [reflexivity |].
      cbn [fst]. rewrite py_int_tenth by lia. reflexivity.
    - apply Z.eqb_neq in Hmod.
      destruct (compass_step_short heading m s0 Hmod) as (tick & Hrun).
      do 2 eexists. split; [exact Hrun |].
      unfold compass_step in Hrun.
      replace (m mod 30 =? 0)%Z with false in Hrun
        by (symmetry; apply Z.eqb_neq; exact Hmod).
      cbn [negb] in Hrun. unfold emit in Hrun. injection Hrun as Hsurf.
      apply app_inv_head in Hsurf. injection Hsurf as <-.
      split; reflexivity. }
  unfold compass. run_emits.
  match goal with
  | |- context [bind (for_each _ _) _ ?s0] =>
      destruct (for_each_collect_in pasted_rotations pasted_labels
                  (fun m => if (m mod 30 =? 0)%Z then [heading - IZR m] else [])
                  (fun m => if (m mod 30 =? 0)%Z then [label m] else [])
                  (compass_step heading) (py_range 0 360 10)
                  pasted_rotations_app eq_refl pasted_labels_app eq_refl
                  (fun m s1 Hin => Hstep m s1 Hin) s0)
        as (ring & mask' & Hring & Hrot & Hlab)
  end.
  erewrite bind_returns by exact Hring.
  assert (Hrot' : pasted_rotations ring
                  = [heading - 0; heading - 30; heading - 60; heading - 90;
                     heading - 120; heading - 150; heading - 180; heading - 210;
                     heading - 240; heading - 270; heading - 300; heading - 330]).
  { rewrite Hrot.
    let l := eval vm_compute in (py_range 0 360 10) in
    change (py_range 0 360 10) with l.
    cbn [flat_map].
    repeat match goal with
           | |- context [(?a mod 30 =? 0)%Z] =>
               let b := eval vm_compute in (a mod 30 =? 0)%Z in
               change (a mod 30 =? 0)%Z with b
           end.
    reflexivity. }
  assert (Hlab' : pasted_labels ring
                  = ["N"; "3"; "6"; "E"; "12"; "15"; "S"; "21"; "24"; "W"; "30"; "33"]).
  { rewrite Hlab. vm_compute. reflexivity. }
  destruct error_message as [e |].
  - eexists. split; [unfold centered_text, emit; reflexivity |].
    cbn [surface].
    rewrite !pasted_rotations_app, !pasted_labels_app, Hrot', Hlab'.
    cbn [pasted_rotations pasted_labels app]. rewrite !app_nil_r.
    split; reflexivity.
  - eexists. split; [unfold ret; reflexivity |].
    cbn [surface].
    rewrite !pasted_rotations_app, !pasted_labels_app, Hrot', Hlab'.
    cbn [pasted_rotations pasted_labels app]. rewrite !app_nil_r.
    split; reflexivity.
Qed.

End Controller.

(** * The renderers on a concrete panel *)

Ltac settle_surface :=
  cbn [surface mask]; repeat (progress (rewrite <- ?app_assoc; cbn [app])).

Ltac run_emits :=
  repeat (rewrite emit_bind || rewrite ret_bind); settle_surface.

(** ** Graph: a sample below the domain *)

Lemma fixed_pitch_120 : fixed_pitch (str_rounded 120) verysmallfont = 30.
Proof.
  unfold fixed_pitch, str_rounded. rewrite py_round_IZR.
  cbn [str_int]. vm_compute String.length. cbn [INR]. lra.
Qed.

Lemma fixed_pitch_midnight (t : Z) : fixed_pitch (midnight t) verysmallfont = 50.
Proof.
  unfold fixed_pitch, midnight. vm_compute String.length. cbn [INR]. lra.
Qed.

(** [graph(draw, 0, 0, 200, 100, [-12, -12], 0, 120, 50, 100, 1)] lays the
    plot box out at (33, 9)-(199, 90), draws the labels, the box and three
    time ticks, and then enters the sample loop. *)
Lemma graph_reaches_sample_loop :
  exists x s1,
    graph fixed_pitch str_rounded 0 midnight 0 0 200 100 [-12; -12] 0 120 50 100 1
      (State [] [])
    = (for_fold (seq 0 2) (x, None) (graph_sample 33 9 167 82 0 120 [-12; -12]) ;;
       graph_value_line 33 9 167 82 0 120 50 ;;
       graph_value_line 33 9 167 82 0 120 100) s1 /\
    In (Rectangle (33, 9) (33 + 167 - 1, 9 + 82 - 1) (Some "black") (Some "white"))
       (surface s1).
Proof.
  unfold graph. cbv zeta. rewrite !fixed_pitch_120.
  replace (0 + 30 + space) with 33 by (unfold space; lra).
  replace (200 - 30 - space) with 167 by (unfold space; lra).
  replace (0 + VERYSMALL / 2) with 9 by (unfold VERYSMALL; lra).
  replace (100 - VERYSMALL) with 82 by (unfold VERYSMALL; lra).
  run_emits.
  erewrite bind_returns by (apply pydiv_nonzero; lra). run_emits.
  erewrite bind_returns by (apply pydiv_nonzero; lra). run_emits.
  rewrite fixed_pitch_midnight.
  erewrite bind_returns by (apply pydiv_nonzero; lra).
  assert (Hfloor : py_floor (167 / 50 / 2) = 1%Z).
  { symmetry. apply Int_part_spec. lra. }
  rewrite Hfloor. change (1 + 1)%Z with 2%Z. change (2 + 1)%Z with 3%Z.
  erewrite bind_returns by (apply pydiv_nonzero; lra).
  erewrite bind_returns by (apply pydiv_nonzero; lra).
  change (py_range 0 3 1) with [0; 1; 2]%Z.
  cbn [for_fold].
  repeat (rewrite bind_bind || rewrite emit_bind || rewrite ret_bind).
  do 2 eexists. split; [reflexivity |].
  settle_surface. do 4 right. left. reflexivity.
Qed.

(** C1 (the code at a failing input).  In the call
    [graph(draw, 0, 0, 200, 100, [-12, -12], 0, 120, 50, 100, 1)] the plot
    box is (33, 9)-(199, 90) and the sample loop draws its segment from
    (33, 98.2) to (200, 98.2), below the bottom edge y = 90: for a sample
    under [minvalue] the y pixel is not clamped to the box edge. *)
Theorem graph_sample_below_minvalue_drawn_outside_box :
  exists x s1,
    graph fixed_pitch str_rounded 0 midnight 0 0 200 100 [-12; -12] 0 120 50 100 1
      (State [] [])
    = (for_fold (seq 0 2) (x, None) (graph_sample 33 9 167 82 0 120 [-12; -12]) ;;
       graph_value_line 33 9 167 82 0 120 50 ;;
       graph_value_line 33 9 167 82 0 120 100) s1 /\
    In (Rectangle (33, 9) (33 + 167 - 1, 9 + 82 - 1) (Some "black") (Some "white"))
       (surface s1) /\
    for_fold (seq 0 2) (x, None) (graph_sample 33 9 167 82 0 120 [-12; -12]) s1
    = Returns (200, Some (200, 491 / 5))
        (State (surface s1 ++ [Line [(33, 491 / 5); (200, 491 / 5)] "cyan" 2])
           (mask s1)) /\
    9 + 82 - 1 < 491 / 5.
Proof.
  destruct graph_reaches_sample_loop as (x & s1 & Hrun & Hbox).
  exists x, s1. split; [exact Hrun |]. split; [exact Hbox |].
  apply graph_sample_loop_below_minvalue.
Qed.

(** ** Graph: a zero-length domain *)

(** C2, as stated, fails: on the 240x240 panel [meter] with the domain
    5..5 and [graph] with the domain 50..50 do not return, they raise
    [ZeroDivisionError]. *)
Lemma zero_length_domain_does_not_return :
  meter fixed_pitch str_rounded 40 0 5 5 120 420 238 120 120 1 (1 / 4)
    (Some "G-Meter") None (State [] [])
  = Raises ZeroDivisionError (State [] []) /\
  exists s',
    graph fixed_pitch str_rounded 0 midnight 0 26 228 185 [10; 20] 50 50 50 100 1
      (State [] [])
    = Raises ZeroDivisionError s'.
Proof.
  split.
  - apply meter_zero_domain.
  - destruct (graph_zero_domain fixed_pitch str_rounded 0 midnight
                0 26 228 185 [10; 20] 50 50 100 1 (State [] []))
      as (label & Hrun & _).
    eexists. exact Hrun.
Qed.

(** ** Gauge: a spacing that does not divide the domain *)

Lemma ticks_of_0_10_by_3 :
  mark_values 5 0 10 3 = Some [0; 3; 6; 9].
Proof.
  cbn [mark_values].
  repeat match goal with
         | |- context [Rle_dec ?a ?b] => destruct (Rle_dec a b); try lra
         end.
  cbn [option_map]. repeat f_equal; lra.
Qed.

(** C3, as stated, fails: on the domain 0..10 with spacing 3 (which does
    not divide 10) the loop runs at 0, 3, 6 and 9 and stops; the boundary
    value 10 gets no tick.  The sums are exact, so this is the run of the
    loop on Python integers and on floats alike. *)
Lemma boundary_tick_dropped :
  0 < 10 /\ 0 < 3 /\
  ~ (exists k : nat, 10 = 0 + INR k * 3) /\
  mark_values 5 0 10 3 = Some [0; 3; 6; 9] /\
  ~ In 10 [0; 3; 6; 9] /\
  tick_values_int 5 0 10 3 = Some [0; 3; 6; 9]%Z /\
  B64.tick_values 5 0 10 3 = Some [0%float; 3%float; 6%float; 9%float] /\
  (9 + 3 <=? 10)%float = false.
Proof.
  split; [lra |]. split; [lra |]. split; [| split; [| split]].
  - intros (k & Hk). rewrite INR_IZR_INZ, Rplus_0_l, <- mult_IZR in Hk.
    apply eq_IZR in Hk. lia.
  - apply ticks_of_0_10_by_3.
  - intros [H | [H | [H | [H | []]]]]; lra.
  - repeat split; vm_compute; reflexivity.
Qed.

(** The same loop inside [meter]: its body runs four times. *)
Lemma loop_of_0_10_by_3 (body : R -> M unit) (s : state) :
  while_le 5 0 10 3 body s = for_each [0; 3; 6; 9] body s.
Proof.
  apply while_le_mark_values. apply ticks_of_0_10_by_3.
Qed.

(** The amended statement at the large marks of the G-meter (-3 to 5 by
    1, all integers): nine marks, the last at the end value. *)
Lemma gmeter_major_ticks_reach_end_value :
  (-3 < 5)%Z /\ (0 < 1)%Z /\
  tick_values_int 10 (-3) 5 1 = Some [-3; -2; -1; 0; 1; 2; 3; 4; 5]%Z /\
  (In 5%Z [-3; -2; -1; 0; 1; 2; 3; 4; 5]%Z <-> (1 | 5 - -3)%Z).
Proof.
  split; [lia |]. split; [lia |].
  destruct meter_marks_inclusive_without_tolerance as [Hint _].
  destruct (Hint (-3) 5 1)%Z as (Hrun & _ & Hend); [lia | lia |].
  split; [exact Hrun | exact Hend].
Defined.

(** The needle of the G-meter (-3..5 over 120..420 degrees) saturates. *)
Lemma needle_angle_gmeter :
  -3 < 5 /\
  needle_angle ((420 - 120) / (5 - -3)) 9 (-3) 5 120 = 420 /\
  needle_angle ((420 - 120) / (5 - -3)) (-7) (-3) 5 120 = 120.
Proof.
  split; [lra |].
  destruct (needle_angle_monotone_continuous_saturating (-3) 5 120 420)
    as (_ & _ & _ & Hlow & Hhigh & Hstart & Hend); [lra |].
  split.
  - rewrite (Hhigh 9) by lra. exact Hend.
  - rewrite (Hlow (-7)) by lra. exact Hstart.
Defined.

(** ** Attitude: the level horizon on doubles *)

Lemma quarter_turns_values : B64.quarter_turn_values B64.quarter_turns.
Proof. repeat split. Qed.

(** C7, as stated, fails on doubles.  On a panel of 240 by 240 pixels
    ([zerox = zeroy = 120]) the horizon that [ahrs] asks for at level
    attitude, [linepoints(0, 0, 0, 200)], has the y-coordinates
    120.00000000000001 and 119.99999999999999: neither of them is
    [== zeroy].  The x-coordinates are 320 and -80. *)
Lemma level_horizon_not_level_on_doubles :
  B64.quarter_turn_values B64.quarter_turns /\
  B64.linepoints B64.quarter_turns 120 120 0 0 0 200
  = ((320, 120.00000000000001), (-80, 119.99999999999999))%float /\
  (snd (fst (B64.linepoints B64.quarter_turns 120 120 0 0 0 200)) =? 120)%float
  = false /\
  (snd (snd (B64.linepoints B64.quarter_turns 120 120 0 0 0 200)) =? 120)%float
  = false.
Proof.
  split; [exact quarter_turns_values |].
  repeat split; vm_compute; reflexivity.
Qed.

(** The amended statement at the same call. *)
Lemma level_horizon_of_240_panel :
  (1 <= 240 <= 480)%Z /\ (0 <= 200 <= 400)%Z /\
  let ps := fst (B64.linepoints B64.quarter_turns 120 120 0 0 0 200) in
  let pe := snd (B64.linepoints B64.quarter_turns 120 120 0 0 0 200) in
  (fst ps =? 120 + 200)%float = true /\
  (fst pe =? 120 - 200)%float = true /\
  (fst ps + fst pe =? 2 * 120)%float = true /\
  (snd pe <=? 120)%float = true /\
  (120 <=? snd ps)%float = true /\
  (snd ps - 120 <=? 0x1p-44)%float = true /\
  (120 - snd pe <=? 0x1p-44)%float = true.
Proof.
  split; [lia |]. split; [lia |].
  exact (level_horizon_symmetric_up_to_rounding B64.quarter_turns 240 240 200
           quarter_turns_values ltac:(lia) ltac:(lia) ltac:(lia)).
Defined.

(** ** Capacity bar *)

(** C4, as stated, fails in its second half: for
    [bar(val=150, max_val=100, yellow=50, red=0)] the filled rectangle is
    drawn to x = 330, past [bar_end = 240]. *)
Lemma bar_fill_runs_past_bar_end :
  exists s',
    bar panel_width fixed_pitch str_rounded 29 "1090" 150 100 50 0 "" None 0
      (State [] [])
    = Returns (29 + VERYSMALL + 5) s' /\
    In (Rectangle (bar_start, 29) (330, 29 + VERYSMALL) (Some "DimGray") None)
       (surface s') /\
    330 <> bar_end.
Proof.
  eexists. split; [apply bar_run |]. split; [| unfold bar_end; lra].
  cbn [surface app]. right. right. right. left.
  rewrite bar_color_sentinel.
  destruct (Rlt_dec 150 0) as [H | _]; [lra |].
  destruct (Req_dec_T 100 0) as [H | _]; [lra |].
  replace (bar_start + (bar_end - bar_start) * 150 / 100) with 330
    by (unfold bar_start, bar_end; lra).
  reflexivity.
Qed.

(** ** Compass rose *)

(** C8, as stated, fails in its last case: at heading 90 the stencil of
    the bearing-0 label is pasted with rotation 90, not -90. *)
Lemma compass_heading_90_rotation :
  exists s',
    compass_step panel_width panel_height fixed_pitch 90 0 (State [] [])
    = Returns tt s' /\
    pasted_rotations (surface s') = [90] /\
    90 <> -90.
Proof.
  destruct (compass_step_rotation panel_width panel_height fixed_pitch
              90 0%Z (State [] [])) as (s' & Hrun & Hrot); [reflexivity |].
  exists s'. split; [exact Hrun |]. split; [| lra].
  rewrite Hrot. cbn [surface pasted_rotations app]. f_equal. ring.
Qed.

(** The amended statement at heading 90, bearing 0. *)
Lemma heading_90_label_pasted_at_bearing_270 :
  (0 <= 0 < 360)%Z /\ (0 mod 30 = 0)%Z /\
  compass_center panel_width panel_height 90 0
  = compass_center panel_width panel_height 0 270 /\
  exists s',
    compass panel_width panel_height fixed_pitch str_rounded 90 None (State [] [])
    = Returns tt s' /\
    In (PasteColor "yellow"
          (py_round (fst (compass_center panel_width panel_height 90 0) - LARGE),
           py_round (snd (compass_center panel_width panel_height 90 0) - LARGE))
          (Bitmap [Glyph ((LARGE * 2 - fixed_pitch "N" largefont) / 2,
                          (LARGE * 2 - LARGE) / 2) "N" largefont]
             (90 - 0)))
       (surface s').
Proof.
  split; [lia |]. split; [reflexivity |].
  destruct (compass_label_compositing panel_width panel_height fixed_pitch
              str_rounded 90 0%Z None (State [] []))
    as (_ & Hwhole & _ & _ & Hcenter & _); [lia | reflexivity |].
  split; [exact Hcenter | exact Hwhole].
Defined.

(** ** Traffic contacts *)

(** C9, as stated, fails: no single offset [g] describes both the test
    and the left anchor.  On the 240 pixel wide panel a glyph at x = 300
    with a label 10 wide is anchored at 274, which forces [g = 16]; but a
    glyph at x = 100 with a label 125 wide has 100 + 125 + 16 > 240 and
    is still anchored on the right, at 117. *)
Lemma no_single_glyph_offset :
  ~ exists g : R,
      forall x tsize : R,
        0 <= tsize ->
        (x + tsize + g > sizex panel_width ->
         fst (aircraft_tposition panel_width x 0 tsize) = x - g - tsize) /\
        (x + tsize + g <= sizex panel_width ->
         x < fst (aircraft_tposition panel_width x 0 tsize)).
Proof.
  intros (g & Hg).
  assert (Hw : sizex panel_width = 240) by reflexivity.
  assert (H1 : fst (aircraft_tposition panel_width 300 0 10) = 274).
  { rewrite aircraft_tposition_eq, Hw. cbn [fst].
    destruct (Rgt_dec (300 + 10 + 14) 240); lra. }
  assert (H2 : fst (aircraft_tposition panel_width 100 0 125) = 117).
  { rewrite aircraft_tposition_eq, Hw. cbn [fst].
    destruct (Rgt_dec (100 + 125 + 14) 240); lra. }
  destruct (Hg 300 10) as [Ha Hb]; [lra |].
  destruct (Hg 100 125) as [Hc Hd]; [lra |].
  rewrite Hw, H1 in Ha, Hb. rewrite Hw, H2 in Hc, Hd.
  destruct (Rle_dec (300 + 10 + g) 240) as [Hle | Hgt].
  - specialize (Hb Hle). lra.
  - assert (g = 16) by (assert (274 = 300 - g - 10) by (apply Ha; lra); lra).
    subst g. assert (117 = 100 - 16 - 125) by (apply Hc; lra). lra.
Qed.

(** The two placements on the 240 pixel wide panel. *)
Example aircraft_anchor_left_and_right :
  fst (aircraft_tposition panel_width 300 0 10) = 274 /\
  fst (aircraft_tposition panel_width 100 0 125) = 117.
Proof.
  assert (Hw : sizex panel_width = 240) by reflexivity.
  rewrite !aircraft_tposition_eq, Hw. cbn [fst].
  destruct (Rgt_dec (300 + 10 + 14) 240); destruct (Rgt_dec (100 + 125 + 14) 240);
    lra.
Qed.

(** The two contact labels at height 5. *)
Lemma height_five_same_sign :
  (5 <> 0)%Z /\ aircraft_label 5 0 = modesaircraft_label 5 0.
Proof.
  split; [lia |].
  apply (proj2 (proj2 (proj2 (proj2 (height_zero_sign_differs 0))))). lia.
Defined.

(** ** Further runs on the panel *)

(** Twelve steps from 90 degrees lead back to 90 degrees. *)
Lemma arcposition_90_returns :
  (0 <= 90 < 360)%Z /\ Nat.iter 12 next_arcposition 90%Z = 90%Z.
Proof.
  split; [lia |].
  apply (proj2 (next_arcposition_cycle 90)). lia.
Defined.

(** A Mode-S contact estimated at radius 5 is drawn as a ring of radius 18. *)
Lemma modes_radius_5_drawn_as_18 :
  5 < 18 /\ Rmin MAXIMAL_CIRCLE (Rmax MINIMAL_CIRCLE 5) = 18.
Proof.
  split; [lra |].
  destruct (modesaircraft_ring_clamped_label_centred panel_width panel_height
              fixed_pitch 5 0%Z 0 0 None (State [] []))
    as (_ & _ & Hlow & _).
  apply Hlow. lra.
Defined.

(** A slip of 15 is shown as a slip of 10: the ball is 120 pixels left of
    the centre. *)
Lemma slip_15_saturates :
  10 < 15 /\
  exists cx,
    slip panel_width panel_height 15 (State [] []) =
    Returns tt
      (State
         [Rectangle (zerox panel_width - 120, sizey panel_height - 20)
            (zerox panel_width + 120, sizey panel_height - 1) (Some "black") None;
          Ellipse (cx - 10, sizey panel_height - 20)
            (cx + 10, sizey panel_height - 1) (Some "white") None 1]
         []) /\
    cx = zerox panel_width - 120.
Proof.
  split; [lra |].
  destruct (slip_ball_stays_in_strip panel_width panel_height 15 (State [] []))
    as (cx & Hrun & _ & _ & _ & Hhigh).
  exists cx. split; [exact Hrun | apply Hhigh; lra].
Defined.

(** A climb of 3000 ft/min puts the needle on the end of the scale. *)
Lemma vsi_3000_saturates : 2000 < 3000 /\ vsi_needle_angle 3000 = 170.
Proof.
  split; [lra |].
  destruct (vsi_needle_follows_scale panel_width panel_height fixed_pitch
              3000 0 0 0 0 0 0 None (State [] []))
    as (_ & _ & Hhigh & _).
  apply Hhigh. lra.
Defined.

(** The G-meter with 34 iterations of fuel for each loop. *)
Lemma panel_gmeter_returns :
  (34 <= 34)%nat /\
  exists s',
    gmeter panel_width panel_height fixed_pitch str_rounded str_rounded 34
      1 2 0 None (State [] [])
    = Returns tt s'.
Proof.
  split; [lia |].
  destruct (gmeter_scale panel_width panel_height fixed_pitch str_rounded
              str_rounded 34 1 2 0 (State [] []))
    as (marks & rest & Hrun & _); [lia |].
  eexists. exact Hrun.
Defined.

(** A bar whose maximum is 0 is drawn empty. *)
Lemma bar_of_zero_maximum :
  0 = 0 /\
  exists xval s',
    bar panel_width fixed_pitch str_rounded 29 "UAT" 5 0 0 0 "" None 0
      (State [] [])
    = Returns (29 + VERYSMALL + 5) s' /\
    In (Rectangle (bar_start, 29) (xval, 29 + VERYSMALL) (Some "DimGray") None)
       (surface s') /\
    xval = bar_start.
Proof.
  split; [reflexivity |].
  destruct (bar_guarded_and_floored panel_width fixed_pitch str_rounded
              29 "UAT" 5 0 0 0 "" None 0 (State [] []))
    as (xval & t1 & t2 & Hrun & Hzero & _).
  exists xval. eexists. split; [exact Hrun |]. split; [| apply Hzero; reflexivity].
  cbn [surface app]. do 3 right. left.
  unfold bar_color. destruct (Req_dec_T 0 0) as [_ | H]; [reflexivity | lra].
Defined.

(** Three samples, one of them above the domain 0..120, in the box
    (33, 9)-(199, 90). *)
Lemma three_samples_in_box :
  0 < 120 /\ 1 <= 82 /\ 0 <= 167 /\
  Forall (fun d => 0 <= d) [10; 130; 60] /\
  exists segments vars,
    for_fold (seq 0 3) (0, None) (graph_sample 33 9 167 82 0 120 [10; 130; 60])
      (State [] [])
    = Returns vars (State segments []) /\
    List.length segments = 2%nat.
Proof.
  assert (Hdata : Forall (fun d => 0 <= d) [10; 130; 60]).
  { repeat constructor; lra. }
  split; [lra |]. split; [lra |]. split; [lra |]. split; [exact Hdata |].
  destruct (graph_samples_stay_in_box 33 9 167 82 0 120 [10; 130; 60] 0
              (State [] [])) as (segments & vars & Hrun & Hlen & _);
    [lra | lra | lra | exact Hdata |].
  exists segments, vars. split; [exact Hrun | exact Hlen].
Defined.
